(** * Transformer/model.py: a shallow embedding and its verified properties.

    The file follows [src/Transformer/model.py] class by class.  Tensors are
    nested lists (row-major, outermost axis first); every [forward] and every
    constructor is a computation that may raise a Python exception and that
    threads the state it can touch (the module object [self] and the global
    random generator).

    A nested list shows the extent of an axis only as long as the axes
    around it are not empty; the results about shapes are therefore stated
    for tensors with no extent 0.

    Arithmetic is kept abstract: the class [Arith] collects the scalar
    operations the tensor runtime provides, so that every result about
    structure, shapes, exceptions and formulas holds for whatever arithmetic
    implements them, the floating point of the runtime included.  The
    instance over the real numbers is exact arithmetic, which the runtime
    only approximates: it serves for bounds that rounding keeps, and for
    relating an expression of the code to its closed form. *)

From Stdlib Require Import String List ZArith Arith Bool Lia Reals Lra.
Import ListNotations.

Set Implicit Arguments.

(* ------------------------------------------------------------------ *)
(** ** Exceptions and results *)

(** The exceptions Python or the tensor runtime can raise in this file. *)
Inductive exn : Type :=
| TypeError | NameError | AttributeError | AssertionError
| ZeroDivisionError | ValueError | IndexError | RuntimeError.

Inductive result (A : Type) : Type :=
| Ok (a : A)
| Err (e : exn).
Arguments Ok {A} a.
Arguments Err {A} e.

Definition is_ok {A} (r : result A) : bool :=
  match r with Ok _ => true | Err _ => false end.

Definition rbind {A B} (r : result A) (f : A -> result B) : result B :=
  match r with Ok a => f a | Err e => Err e end.

Definition rmap {A B} (f : A -> B) (r : result A) : result B :=
  match r with Ok a => Ok (f a) | Err e => Err e end.

(** [mapR f l]: apply a fallible [f] left to right, stop at the first error. *)
Fixpoint mapR {A B} (f : A -> result B) (l : list A) : result (list B) :=
  match l with
  | [] => Ok []
  | a :: l' => rbind (f a) (fun b => rbind (mapR f l') (fun bs => Ok (b :: bs)))
  end.

(** [zipR f xs ys]: pairwise, an error when the extents differ. *)
Fixpoint zipR {A B C} (f : A -> B -> result C) (xs : list A) (ys : list B)
  : result (list C) :=
  match xs, ys with
  | [], [] => Ok []
  | x :: xs', y :: ys' =>
      rbind (f x y) (fun c => rbind (zipR f xs' ys') (fun cs => Ok (c :: cs)))
  | _, _ => Err RuntimeError
  end.

(** Broadcasting along one axis: an axis of extent 1 is stretched to the
    extent of the other operand, otherwise the extents must agree. *)
Definition bzipR {A B C} (f : A -> B -> result C) (xs : list A) (ys : list B)
  : result (list C) :=
  match xs, ys with
  | [x], _ => mapR (f x) ys
  | _, [y] => mapR (fun x => f x y) xs
  | _, _ => zipR f xs ys
  end.

Definition bzip {A B C} (f : A -> B -> C) : list A -> list B -> result (list C) :=
  bzipR (fun a b => Ok (f a b)).

(** Total pairwise map, used where both operands have the same extent by
    construction. *)
Fixpoint map2 {A B C} (f : A -> B -> C) (xs : list A) (ys : list B) : list C :=
  match xs, ys with
  | x :: xs', y :: ys' => f x y :: map2 f xs' ys'
  | _, _ => []
  end.

(** [imap f l]: map with the index of each element. *)
Fixpoint imap_from {A B} (i : nat) (f : nat -> A -> B) (l : list A) : list B :=
  match l with
  | [] => []
  | a :: l' => f i a :: imap_from (S i) f l'
  end.
Definition imap {A B} (f : nat -> A -> B) (l : list A) : list B := imap_from 0 f l.

(* ------------------------------------------------------------------ *)
(** ** The state-and-exception monad

    [M St A]: a computation over a state [St] that returns or raises.  The
    state survives an exception, as the attributes of a Python object do. *)

Definition M (St A : Type) : Type := St -> result A * St.

Definition ret {St A} (a : A) : M St A := fun s => (Ok a, s).
Definition raise {St A} (e : exn) : M St A := fun s => (Err e, s).
Definition bind {St A B} (m : M St A) (f : A -> M St B) : M St B :=
  fun s => match m s with
           | (Ok a, s') => f a s'
           | (Err e, s') => (Err e, s')
           end.
Definition lift {St A} (r : result A) : M St A := fun s => (r, s).

(** Run a computation of a component inside the state of its owner. *)
Definition zoom {P C A} (get : P -> C) (set : C -> P -> P) (m : M C A) : M P A :=
  fun p => let (r, c) := m (get p) in (r, set c p).

Declare Scope monad_scope.
Delimit Scope monad_scope with monad.
Notation "x <- c ;; k" := (bind c (fun x => k))
  (at level 61, c at next level, right associativity) : monad_scope.
Notation "c ;;; k" := (bind c (fun _ => k))
  (at level 61, right associativity) : monad_scope.
Local Open Scope monad_scope.

Fixpoint mapM {St A B} (f : A -> M St B) (l : list A) : M St (list B) :=
  match l with
  | [] => ret []
  | a :: l' => b <- f a ;; bs <- mapM f l' ;; ret (b :: bs)
  end.

(** The [for] loop of the stacks: thread a value through a list of steps. *)
Fixpoint foldM {St A X} (f : X -> A -> M St X) (l : list A) (x : X) : M St X :=
  match l with
  | [] => ret x
  | a :: l' => y <- f x a ;; foldM f l' y
  end.

(* ------------------------------------------------------------------ *)
(** ** The arithmetic of the tensor runtime *)

Class Arith : Type := {
  scalar : Type;
  s_of_Z : Z -> scalar;
  s_add : scalar -> scalar -> scalar;
  s_sub : scalar -> scalar -> scalar;
  s_mul : scalar -> scalar -> scalar;
  s_div : scalar -> scalar -> scalar;
  s_neg : scalar -> scalar;
  s_sqrt : scalar -> scalar;
  s_exp : scalar -> scalar;
  s_log : scalar -> scalar;
  s_sin : scalar -> scalar;
  s_cos : scalar -> scalar;
  s_ltb : scalar -> scalar -> bool;
  (** the global random generator: its state and one draw from it *)
  rng : Type;
  rand : rng -> scalar * rng
}.

Declare Scope scalar_scope.
Delimit Scope scalar_scope with s.
Notation "x +. y" := (s_add x y) (at level 50, left associativity) : scalar_scope.
Notation "x -. y" := (s_sub x y) (at level 50, left associativity) : scalar_scope.
Notation "x *. y" := (s_mul x y) (at level 40, left associativity) : scalar_scope.
Notation "x /. y" := (s_div x y) (at level 40, left associativity) : scalar_scope.
Local Open Scope scalar_scope.

(** The reals as an instance: exact arithmetic, not the floating point of
    the runtime; the generator is a stream of samples. *)
#[export] Instance RArith : Arith := {|
  scalar := R;
  s_of_Z := IZR;
  s_add := Rplus; s_sub := Rminus; s_mul := Rmult; s_div := Rdiv;
  s_neg := Ropp;
  s_sqrt := sqrt; s_exp := exp; s_log := ln; s_sin := sin; s_cos := cos;
  s_ltb := fun a b => if Rlt_dec a b then true else false;
  rng := nat -> R;
  rand := fun g => (g 0%nat, fun n => g (S n))
|}.

(* ------------------------------------------------------------------ *)
(** ** Tensors and the operations of the runtime *)

(** Tensors of rank 1 to 4. *)
Abbreviation Vec := (list scalar).
Abbreviation Mat := (list (list scalar)).
Abbreviation T3 := (list (list (list scalar))).
Abbreviation T4 := (list (list (list (list scalar)))).

Section Tensors.
Context {A : Arith}.

Definition s_of_nat (n : nat) : scalar := s_of_Z (Z.of_nat n).
Definition zero : scalar := s_of_Z 0.
Definition one : scalar := s_of_Z 1.

Definition sum (v : Vec) : scalar := fold_left s_add v zero.
Definition dot (a b : Vec) : scalar := sum (map2 s_mul a b).

(** [x.mean(dim=-1)] and [x.std(dim=-1)] (the unbiased estimator, which is
    the default of the runtime) of one feature vector. *)
Definition mean (v : Vec) : scalar := sum v /. s_of_nat (length v).
Definition std (v : Vec) : scalar :=
  let m := mean v in
  s_sqrt (sum (map (fun x => (x -. m) *. (x -. m)) v)
          /. s_of_Z (Z.of_nat (length v) - 1)).

Definition softmax (v : Vec) : Vec :=
  let e := map s_exp v in
  let s := sum e in
  map (fun x => x /. s) e.
Definition log_softmax (v : Vec) : Vec := map s_log (softmax v).
Definition relu (x : scalar) : scalar := if s_ltb x zero then zero else x.

(** The extent of the innermost axis, read off the data. *)
Definition last_dim2 (m : Mat) : nat := length (hd [] m).
Definition last_dim4 (t : T4) : nat := last_dim2 (hd [] (hd [] t)).
Definition shape3 (x : T3) : list nat :=
  [length x; length (hd [] x); last_dim2 (hd [] x)].

(** [m.transpose(-2,-1)] of a matrix of any element type. *)
Definition transpose {X} (d : X) (m : list (list X)) : list (list X) :=
  map (fun j => map (fun row => nth j row d) m) (seq 0 (length (hd [] m))).

(** [torch.matmul] of two matrices; the inner extents must agree. *)
Definition matmul (a b : Mat) : result Mat :=
  if forallb (fun row => length row =? length b) a
  then Ok (map (fun row => map (dot row) (transpose zero b)) a)
  else Err RuntimeError.

(** [flat.view(-1, n)]: row [j] is the slice [j*n, (j+1)*n) of the buffer. *)
Definition view_rows {X} (n : nat) (flat : list X) : list (list X) :=
  map (fun j => firstn n (skipn (j * n) flat)) (seq 0 (length flat / n)).

(** Elementwise sum of two rank-3 tensors, with broadcasting. *)
Definition add3 (x y : T3) : result T3 := bzipR (bzipR (bzip s_add)) x y.

(** *** nn.Linear *)
Record Linear : Type := {
  in_features : nat;
  out_features : nat;
  weight : Mat;          (* out_features x in_features *)
  bias : Vec             (* out_features *)
}.

Definition Linear_vec (l : Linear) (v : Vec) : result Vec :=
  if length v =? in_features l
  then Ok (map2 s_add (map (dot v) (weight l)) (bias l))
  else Err RuntimeError.

(** [y = x W^T + b] on the last axis. *)
Definition Linear_forward (l : Linear) (x : T3) : result T3 :=
  mapR (mapR (Linear_vec l)) x.

Definition rand_scalar : M rng scalar := fun g => let (u, g') := rand g in (Ok u, g').
Definition rand_vec (n : nat) : M rng Vec := mapM (fun _ => rand_scalar) (seq 0 n).
Definition rand_mat (r c : nat) : M rng Mat := mapM (fun _ => rand_vec c) (seq 0 r).

(** [nn.Linear(i, o)]: weight and bias drawn by the initialiser. *)
Definition nn_Linear (i o : nat) : M rng Linear :=
  w <- rand_mat o i ;;
  b <- rand_vec o ;;
  ret {| in_features := i; out_features := o; weight := w; bias := b |}.

(** [nn.init.xavier_uniform_] on the weight (the only parameter of rank 2). *)
Definition Linear_xavier (l : Linear) : M rng Linear :=
  w <- rand_mat (out_features l) (in_features l) ;;
  ret {| in_features := in_features l; out_features := out_features l;
         weight := w; bias := bias l |}.

(** *** nn.Dropout *)
Record Dropout : Type := {
  p : scalar;
  training : bool
}.

(** [nn.Dropout(p)] refuses a probability outside [0, 1]; a new module is in
    training mode. *)
Definition nn_Dropout (q : scalar) : result Dropout :=
  if s_ltb q zero || s_ltb one q then Err ValueError
  else Ok {| p := q; training := true |}.

(** One element in training mode: dropped with probability [p], otherwise
    scaled by [1 / (1 - p)]. *)
Definition dropout_scalar (d : Dropout) (x : scalar) : M rng scalar :=
  u <- rand_scalar ;;
  ret (if s_ltb u (p d) then zero else x /. (one -. p d)).

Definition dropout3 (d : Dropout) (x : T3) : M rng T3 :=
  if training d then mapM (mapM (mapM (dropout_scalar d))) x else ret x.
Definition dropout4 (d : Dropout) (x : T4) : M rng T4 :=
  if training d then mapM (mapM (mapM (mapM (dropout_scalar d)))) x else ret x.

(** *** Parameters and Python values *)

(** A parameter tensor: a vector (bias, scale, shift) or a matrix (weight,
    embedding table). *)
Inductive param : Type :=
| P1 (v : Vec)
| P2 (m : Mat).

Definition Linear_parameters (l : Linear) : list param := [P2 (weight l); P1 (bias l)].

(** The Python values that the attributes and expressions modelled by value
    can hold. *)
Inductive pyval : Type :=
| PyInt (n : nat)
| PyFloat (x : scalar)
| PySize (dims : list nat)       (* a torch.Size *)
| PyTensor (t : T3)
| PyDropout (d : Dropout).       (* an nn.Dropout module *)

(** [f(args)]: of these values only a module is callable. *)
Definition py_call (f : pyval) (args : list pyval) : M rng pyval :=
  match f with
  | PyDropout d =>
      match args with
      | [PyTensor t] => r <- dropout3 d t ;; ret (PyTensor r)
      | _ => raise TypeError
      end
  | _ => raise TypeError
  end.

Definition as_int (v : pyval) : result nat :=
  match v with PyInt n => Ok n | _ => Err TypeError end.
Definition as_tensor (v : pyval) : result T3 :=
  match v with PyTensor t => Ok t | _ => Err TypeError end.

(** Running a computation on the generator, or on [self], inside the state
    [(self, generator)] of a method. *)
Definition with_rng {P X} (m : M rng X) : M (P * rng) X :=
  zoom snd (fun g s => (fst s, g)) m.
Definition get_self {P} : M (P * rng) P := fun s => (Ok (fst s), s).
Definition set_self {P} (x : P) : M (P * rng) unit := fun s => (Ok tt, (x, snd s)).
Definition zoom_self {P C X} (get : P -> C) (set : C -> P -> P) (m : M (C * rng) X)
  : M (P * rng) X :=
  zoom (fun s => (get (fst s), snd s)) (fun c s => (set (fst c) (fst s), snd c)) m.

End Tensors.

(* ------------------------------------------------------------------ *)
(** ** class InputEmbeddings *)

Module InputEmbeddings.
Section Class.
Context {A : Arith}.

Record t : Type := {
  d_model : nat;
  vocab_size : nat;
  embedding : Mat            (* nn.Embedding(vocab_size, d_model) *)
}.

Definition __init__ (d_model vocab_size : nat) : M rng t :=
  w <- rand_mat vocab_size d_model ;;
  ret {| d_model := d_model; vocab_size := vocab_size; embedding := w |}.

(** [self.embedding(x) * math.sqrt(self.d_model)] on a batch of token ids:
    the lookup of an id in a table with no row is a [RuntimeError] of the
    runtime, that of an id beyond the rows of a table an [IndexError]. *)
Definition forward (self : t) (x : list (list nat)) : result T3 :=
  mapR (mapR (fun id =>
    match embedding self with
    | [] => Err RuntimeError
    | _ :: _ =>
        match nth_error (embedding self) id with
        | Some row => Ok (map (fun e => e *. s_sqrt (s_of_nat (d_model self))) row)
        | None => Err IndexError
        end
    end)) x.

Definition parameters (self : t) : list param := [P2 (embedding self)].

Definition xavier (self : t) : M rng t :=
  w <- rand_mat (vocab_size self) (d_model self) ;;
  ret {| d_model := d_model self; vocab_size := vocab_size self; embedding := w |}.

End Class.
End InputEmbeddings.

(* ------------------------------------------------------------------ *)
(** ** class PositionalEncoding *)

Module PositionalEncoding.
Section Class.
Context {A : Arith}.

Record t : Type := {
  d_model : nat;
  seq_len : nat;
  dropout : pyval;           (* whatever the caller passed *)
  pe : T3                    (* the registered buffer, 1 x seq_len x d_model *)
}.

(** [torch.arange(0, n, 2)] *)
Definition arange2 (n : nat) : list nat := map (fun i => 2 * i) (seq 0 ((n + 1) / 2)).

(** The number of columns of [row[start::2]] for a row of extent [width]. *)
Definition slots (start width : nat) : nat := (width - start + 1) / 2.

(** [row[start::2] = vals] on one row. *)
Definition assign_row (start : nat) (row vals : Vec) : Vec :=
  imap (fun c old =>
          if (start <=? c) && Nat.even (c - start)
          then nth ((c - start) / 2) vals old
          else old) row.

(** [table[:, start::2] = vals], where [vals] has [vwidth] columns: the
    right-hand side is broadcast to the slice or the assignment fails. *)
Definition assign_cols (start width : nat) (table vals : Mat) (vwidth : nat)
  : result Mat :=
  if vwidth =? slots start width
  then Ok (map2 (assign_row start) table vals)
  else if vwidth =? 1
  then Ok (map2 (fun row v => assign_row start row (repeat (hd zero v) (slots start width)))
                table vals)
  else Err RuntimeError.

Definition div_term (d_model : nat) : Vec :=
  map (fun j => s_exp (s_of_nat j *. (s_neg (s_log (s_of_Z 10000)) /. s_of_nat d_model)))
      (arange2 d_model).

Definition __init__ (d_model seq_len : nat) (dropout : pyval) : result t :=
  let pe := repeat (repeat zero d_model) seq_len in
  let position := map s_of_nat (seq 0 seq_len) in
  (* -math.log(10000.0)/d_model divides a float by an int *)
  if d_model =? 0 then Err ZeroDivisionError else
  let angle := map (fun pos => map (fun dt => pos *. dt) (div_term d_model)) position in
  rbind (assign_cols 0 d_model pe (map (map s_sin) angle) (length (div_term d_model)))
    (fun pe =>
  rbind (assign_cols 1 d_model pe (map (map s_cos) angle) (length (div_term d_model)))
    (fun pe =>
  Ok {| d_model := d_model; seq_len := seq_len; dropout := dropout; pe := [pe] |})).

(** [x = x + (self.pe[:,:x.shape(1),:]).requires_grad_(False)]
    [return self.dropout(x)]: the extent is obtained by calling [x.shape]. *)
Definition forward (self : t) (x : T3) : M rng T3 :=
  n <- py_call (PySize (shape3 x)) [PyInt 1] ;;
  n <- lift (as_int n) ;;
  x <- lift (add3 x (map (firstn n) (pe self))) ;;
  r <- py_call (dropout self) [PyTensor x] ;;
  lift (as_tensor r).

(** The table is a buffer: the module has no parameter. *)
Definition parameters (self : t) : list param := [].
Definition buffers (self : t) : list T3 := [pe self].

End Class.
End PositionalEncoding.

(* ------------------------------------------------------------------ *)
(** ** class LayerNormalization *)

Module LayerNormalization.
Section Class.
Context {A : Arith}.

Record t : Type := {
  d_model : nat;
  eps : scalar;
  alpha : Vec;               (* nn.Parameter(torch.ones(d_model)) *)
  beta : Vec                 (* nn.Parameter(torch.zeros(d_model)) *)
}.

(** The default [eps=1e-6]. *)
Definition default_eps : scalar := s_of_Z 1 /. s_of_Z 1000000.

(** [def __init__(self,d_model,eps=1e-6)]: an argument that the call does not
    supply is [None]; [d_model] has no default. *)
Definition __init__ (d_model : option nat) (eps : option scalar) : result t :=
  match d_model with
  | None => Err TypeError
  | Some d =>
      Ok {| d_model := d;
            eps := match eps with Some e => e | None => default_eps end;
            alpha := repeat one d;
            beta := repeat zero d |}
  end.

(** [self.alpha * (x - mean) / (std + self.eps) + self.beta] on one token;
    [mean] and [std] keep their axis, of extent 1. *)
Definition forward_vec (self : t) (v : Vec) : result Vec :=
  let mean := mean v in
  let std := std v in
  rbind (bzip s_mul (alpha self) (map (fun x => x -. mean) v)) (fun n =>
  bzip s_add (map (fun y => y /. (std +. eps self)) n) (beta self)).

Definition forward (self : t) (x : T3) : result T3 :=
  mapR (mapR (forward_vec self)) x.

Definition parameters (self : t) : list param := [P1 (alpha self); P1 (beta self)].

End Class.
End LayerNormalization.

(* ------------------------------------------------------------------ *)
(** ** class FeedForward *)

Module FeedForward.
Section Class.
Context {A : Arith}.

Record t : Type := {
  d_model : nat;
  d_ff : nat;
  dropout : pyval;           (* whatever the caller passed *)
  linear1 : Linear;
  linear2 : Linear
}.

Definition __init__ (d_model d_ff : nat) (dropout : pyval) : M rng t :=
  l1 <- nn_Linear d_model d_ff ;;
  l2 <- nn_Linear d_ff d_model ;;
  ret {| d_model := d_model; d_ff := d_ff; dropout := dropout;
         linear1 := l1; linear2 := l2 |}.

(** [self.linear2(self.dropout(self.relu(self.linear1(x))))] *)
Definition forward (self : t) (x : T3) : M rng T3 :=
  y <- lift (Linear_forward (linear1 self) x) ;;
  r <- py_call (dropout self) [PyTensor (map (map (map relu)) y)] ;;
  z <- lift (as_tensor r) ;;
  lift (Linear_forward (linear2 self) z).

Definition parameters (self : t) : list param :=
  Linear_parameters (linear1 self) ++ Linear_parameters (linear2 self).

Definition xavier (self : t) : M rng t :=
  l1 <- Linear_xavier (linear1 self) ;;
  l2 <- Linear_xavier (linear2 self) ;;
  ret {| d_model := d_model self; d_ff := d_ff self; dropout := dropout self;
         linear1 := l1; linear2 := l2 |}.

End Class.
End FeedForward.

(* ------------------------------------------------------------------ *)
(** ** class MultiHeadAttention *)

Module MultiHeadAttention.
Section Class.
Context {A : Arith}.

Record t : Type := {
  d_model : nat;
  h : nat;
  d_k : nat;
  w_q : Linear;
  w_k : Linear;
  w_v : Linear;
  w_o : Linear;
  dropout : Dropout;
  attention_scores : option T4   (* set by forward, absent before *)
}.

Definition set_attention_scores (s : T4) (m : t) : t :=
  {| d_model := d_model m; h := h m; d_k := d_k m;
     w_q := w_q m; w_k := w_k m; w_v := w_v m; w_o := w_o m;
     dropout := dropout m; attention_scores := Some s |}.

Definition __init__ (d_model h : nat) (dropout : scalar) : M rng t :=
  (* assert d_model % h == 0 , "d_model is not divisible by h" *)
  if h =? 0 then raise ZeroDivisionError else
  if negb (d_model mod h =? 0) then raise AssertionError else
  w_q <- nn_Linear d_model d_model ;;
  w_k <- nn_Linear d_model d_model ;;
  w_v <- nn_Linear d_model d_model ;;
  w_o <- nn_Linear d_model d_model ;;
  dropout <- lift (nn_Dropout dropout) ;;
  ret {| d_model := d_model; h := h; d_k := d_model / h;
         w_q := w_q; w_k := w_k; w_v := w_v; w_o := w_o;
         dropout := dropout; attention_scores := None |}.

(** A mask is given by the entry that each position (batch, head, query,
    key) of the scores sees once the mask is broadcast to their shape. *)
Definition mask_t : Type := nat -> nat -> nat -> nat -> Z.

(** [scores.masked_fill(mask == 0, v)] *)
Definition masked_fill (mask : mask_t) (v : scalar) (scores : T4) : T4 :=
  imap (fun b => imap (fun j => imap (fun i => imap (fun k s =>
    if (mask b j i k =? 0)%Z then v else s)))) scores.

(** The static method [attention]. *)
Definition attention (query key value : T4) (mask : option mask_t)
           (dropout : option Dropout) : M rng (T4 * T4) :=
  let d_k := last_dim4 query in
  s <- lift (bzipR (bzipR (fun q k => matmul q (transpose zero k))) query key) ;;
  let s := map (map (map (map (fun x => x /. s_sqrt (s_of_nat d_k))))) s in
  let s := match mask with
           | Some m => masked_fill m (s_of_Z (-1000000000)) s
           | None => s
           end in
  let s := map (map (map softmax)) s in
  s <- match dropout with
       | Some d => dropout4 d s
       | None => ret s
       end ;;
  x <- lift (bzipR (bzipR matmul) s value) ;;
  ret (x, s).

(** [x.view(x.shape[0], -1, h, d_k)] of a contiguous rank-3 tensor. *)
Definition view4 (h d_k : nat) (x : T3) : result T4 :=
  if (length x =? 0) || (h * d_k =? 0) then Err RuntimeError else
  mapR (fun xb =>
          let flat := concat xb in
          if length flat mod (h * d_k) =? 0
          then Ok (view_rows h (view_rows d_k flat))
          else Err RuntimeError) x.

(** [x.transpose(1,2)] of a rank-4 tensor. *)
Definition transpose12 (x : T4) : T4 := map (transpose []) x.

(** [x.contiguous().view(x.shape[0], -1, d_model)] of a rank-4 tensor. *)
Definition view3 (d_model : nat) (x : T4) : result T3 :=
  if (length x =? 0) || (d_model =? 0) then Err RuntimeError else
  mapR (fun xb =>
          let flat := concat (concat xb) in
          if length flat mod d_model =? 0
          then Ok (view_rows d_model flat)
          else Err RuntimeError) x.

Definition forward (q k v : T3) (mask : option mask_t) : M (t * rng) T3 :=
  self <- get_self ;;
  query <- lift (Linear_forward (w_q self) q) ;;
  key <- lift (Linear_forward (w_k self) k) ;;
  value <- lift (Linear_forward (w_v self) v) ;;
  query <- lift (rmap transpose12 (view4 (h self) (d_k self) query)) ;;
  key <- lift (rmap transpose12 (view4 (h self) (d_k self) key)) ;;
  value <- lift (rmap transpose12 (view4 (h self) (d_k self) value)) ;;
  r <- with_rng (attention query key value mask (Some (dropout self))) ;;
  set_self (set_attention_scores (snd r) self) ;;;
  x <- lift (view3 (d_model self) (transpose12 (fst r))) ;;
  lift (Linear_forward (w_o self) x).

Definition parameters (self : t) : list param :=
  Linear_parameters (w_q self) ++ Linear_parameters (w_k self)
  ++ Linear_parameters (w_v self) ++ Linear_parameters (w_o self).

Definition xavier (self : t) : M rng t :=
  q <- Linear_xavier (w_q self) ;;
  k <- Linear_xavier (w_k self) ;;
  v <- Linear_xavier (w_v self) ;;
  o <- Linear_xavier (w_o self) ;;
  ret {| d_model := d_model self; h := h self; d_k := d_k self;
         w_q := q; w_k := k; w_v := v; w_o := o;
         dropout := dropout self; attention_scores := attention_scores self |}.

End Class.
End MultiHeadAttention.

(* ------------------------------------------------------------------ *)
(** ** class ResidualConnection *)

Module ResidualConnection.
Section Class.
Context {A : Arith}.

Record t : Type := {
  d_model : nat;
  norm : LayerNormalization.t;
  dropout : Dropout          (* self.dropout, rebound to nn.Dropout(dropout) *)
}.

Definition __init__ (d_model : nat) (dropout : scalar) : result t :=
  rbind (LayerNormalization.__init__ (Some d_model) None) (fun norm =>
  rbind (nn_Dropout dropout) (fun dropout =>
  Ok {| d_model := d_model; norm := norm; dropout := dropout |})).

(** [x + self.dropout(sublayer(self.norm(x)))]; the sublayer is a closure
    over the state [P] of the caller. *)
Definition forward {P} (self : t) (x : T3) (sublayer : T3 -> M (P * rng) T3)
  : M (P * rng) T3 :=
  n <- lift (LayerNormalization.forward (norm self) x) ;;
  y <- sublayer n ;;
  d <- with_rng (dropout3 (dropout self) y) ;;
  lift (add3 x d).

Definition parameters (self : t) : list param :=
  LayerNormalization.parameters (norm self).

End Class.
End ResidualConnection.

(* ------------------------------------------------------------------ *)
(** ** class EncoderLayer *)

Module EncoderLayer.
Section Class.
Context {A : Arith}.

Record t : Type := {
  d_model : nat;
  h : nat;
  d_ff : nat;
  dropout : scalar;
  multi_head_attention : MultiHeadAttention.t;
  feed_forward : FeedForward.t;
  residual_connection : ResidualConnection.t;
  residual_connection_ff : ResidualConnection.t
}.

Definition set_multi_head_attention (m : MultiHeadAttention.t) (l : t) : t :=
  {| d_model := d_model l; h := h l; d_ff := d_ff l; dropout := dropout l;
     multi_head_attention := m; feed_forward := feed_forward l;
     residual_connection := residual_connection l;
     residual_connection_ff := residual_connection_ff l |}.

Definition __init__ (d_model h d_ff : nat) (dropout : scalar) : M rng t :=
  mha <- MultiHeadAttention.__init__ d_model h dropout ;;
  ff <- FeedForward.__init__ d_model d_ff (PyFloat dropout) ;;
  rc <- lift (ResidualConnection.__init__ d_model dropout) ;;
  rc_ff <- lift (ResidualConnection.__init__ d_model dropout) ;;
  ret {| d_model := d_model; h := h; d_ff := d_ff; dropout := dropout;
         multi_head_attention := mha; feed_forward := ff;
         residual_connection := rc; residual_connection_ff := rc_ff |}.

Definition forward (x : T3) (mask : option MultiHeadAttention.mask_t)
  : M (t * rng) T3 :=
  self <- get_self ;;
  x <- ResidualConnection.forward (residual_connection self) x
         (fun x => zoom_self multi_head_attention set_multi_head_attention
                     (MultiHeadAttention.forward x x x mask)) ;;
  self <- get_self ;;
  ResidualConnection.forward (residual_connection_ff self) x
         (fun x => with_rng (FeedForward.forward (feed_forward self) x)).

Definition parameters (self : t) : list param :=
  MultiHeadAttention.parameters (multi_head_attention self)
  ++ FeedForward.parameters (feed_forward self)
  ++ ResidualConnection.parameters (residual_connection self)
  ++ ResidualConnection.parameters (residual_connection_ff self).

Definition xavier (self : t) : M rng t :=
  m <- MultiHeadAttention.xavier (multi_head_attention self) ;;
  f <- FeedForward.xavier (feed_forward self) ;;
  ret {| d_model := d_model self; h := h self; d_ff := d_ff self;
         dropout := dropout self;
         multi_head_attention := m; feed_forward := f;
         residual_connection := residual_connection self;
         residual_connection_ff := residual_connection_ff self |}.

End Class.
End EncoderLayer.

(* ------------------------------------------------------------------ *)
(** ** Python scopes and loops over stored layers *)

Section Scopes.
Context {A : Arith}.

(** What a name of a scope is bound to. *)
Inductive scope_val : Type :=
| ValInt (n : nat)
| ValFloat (x : scalar)
| ValObject.                 (* a module, class, function or instance *)

(** The names bound at module level in model.py. *)
Definition module_globals : list string :=
  ["torch"; "nn"; "math"; "InputEmbeddings"; "PositionalEncoding";
   "LayerNormalization"; "FeedForward"; "MultiHeadAttention";
   "ResidualConnection"; "EncoderLayer"; "Encoder"; "DecoderLayer";
   "Decoder"; "ProjectionLayer"; "Transformer"; "build_transformer"]%string.

(** Reading the name [name] inside a function whose local scope is [locals]:
    the locals, then the globals of the module (no builtin is involved in
    this file). *)
Definition resolve (locals : list (string * scope_val)) (name : string)
  : result scope_val :=
  match find (fun kv => String.eqb (fst kv) name) locals with
  | Some kv => Ok (snd kv)
  | None => if existsb (String.eqb name) module_globals
            then Ok ValObject else Err NameError
  end.

(** [for layer in layers: x = layer(x, ...)] where calling a layer may
    update it: the layers are the state, the generator is threaded. *)
Fixpoint for_layers {C X} (call : X -> M (C * rng) X) (layers : list C) (x : X)
         (g : rng) : result X * (list C * rng) :=
  match layers with
  | [] => (Ok x, ([], g))
  | c :: cs =>
      match call x (c, g) with
      | (Ok y, (c', g')) =>
          let '(r, (cs', g'')) := for_layers call cs y g' in (r, (c' :: cs', g''))
      | (Err e, (c', g')) => (Err e, (c' :: cs, g'))
      end
  end.

Definition forM_layers {C X} (call : X -> M (C * rng) X) (x : X) : M (list C * rng) X :=
  fun s => for_layers call (fst s) x (snd s).

End Scopes.

(* ------------------------------------------------------------------ *)
(** ** class Encoder *)

Module Encoder.
Section Class.
Context {A : Arith}.

Record t : Type := {
  layers : list EncoderLayer.t;
  norm : LayerNormalization.t
}.

Definition set_layers (l : list EncoderLayer.t) (e : t) : t :=
  {| layers := l; norm := norm e |}.

Definition __init__ (layers : list EncoderLayer.t) : result t :=
  rbind (LayerNormalization.__init__ None None) (fun norm =>
  Ok {| layers := layers; norm := norm |}).

(** The attributes that [__init__] gives an instance. *)
Inductive attr : Type :=
| AttrLayers (l : list EncoderLayer.t)
| AttrNorm (n : LayerNormalization.t).

Definition getattr (self : t) (name : string) : result attr :=
  if String.eqb name "layers" then Ok (AttrLayers (layers self))
  else if String.eqb name "norm" then Ok (AttrNorm (norm self))
  else Err AttributeError.

Definition forward (x : T3) (mask : option MultiHeadAttention.mask_t)
  : M (t * rng) T3 :=
  self <- get_self ;;
  it <- lift (getattr self "encoder_layers") ;;
  match it with
  | AttrLayers _ =>
      x <- zoom_self layers set_layers
             (forM_layers (fun x => EncoderLayer.forward x mask) x) ;;
      self <- get_self ;;
      lift (LayerNormalization.forward (norm self) x)
  | AttrNorm _ => raise TypeError       (* not iterable *)
  end.

Definition parameters (self : t) : list param :=
  flat_map EncoderLayer.parameters (layers self)
  ++ LayerNormalization.parameters (norm self).

Definition xavier (self : t) : M rng t :=
  ls <- mapM EncoderLayer.xavier (layers self) ;;
  ret {| layers := ls; norm := norm self |}.

End Class.
End Encoder.

(* ------------------------------------------------------------------ *)
(** ** class DecoderLayer *)

Module DecoderLayer.
Section Class.
Context {A : Arith}.

Record t : Type := {
  self_attention_block : MultiHeadAttention.t;
  cross_attention_block : MultiHeadAttention.t;
  feed_forward_block : FeedForward.t;
  residual_connections : ResidualConnection.t
}.

Definition set_self_attention_block (m : MultiHeadAttention.t) (l : t) : t :=
  {| self_attention_block := m;
     cross_attention_block := cross_attention_block l;
     feed_forward_block := feed_forward_block l;
     residual_connections := residual_connections l |}.

Definition set_cross_attention_block (m : MultiHeadAttention.t) (l : t) : t :=
  {| self_attention_block := self_attention_block l;
     cross_attention_block := m;
     feed_forward_block := feed_forward_block l;
     residual_connections := residual_connections l |}.

(** The local scope of [__init__]: its parameters. *)
Definition init_locals (dropout : scalar) : list (string * scope_val) :=
  [("self", ValObject); ("self_attention_block", ValObject);
   ("cross_attention_block", ValObject); ("feed_forward_block", ValObject);
   ("dropout", ValFloat dropout)]%string.

Definition __init__ (self_attention_block cross_attention_block : MultiHeadAttention.t)
           (feed_forward_block : FeedForward.t) (dropout : scalar) : result t :=
  (* self.residual_connections = ResidualConnection(d_model,dropout) *)
  rbind (resolve (init_locals dropout) "d_model") (fun d_model =>
  match d_model with
  | ValInt d =>
      rbind (ResidualConnection.__init__ d dropout) (fun rc =>
      Ok {| self_attention_block := self_attention_block;
            cross_attention_block := cross_attention_block;
            feed_forward_block := feed_forward_block;
            residual_connections := rc |})
  | _ => Err TypeError
  end).

Definition forward (x enc_output : T3)
           (src_mask tgt_mask : option MultiHeadAttention.mask_t) : M (t * rng) T3 :=
  self <- get_self ;;
  x <- ResidualConnection.forward (residual_connections self) x
         (fun x => zoom_self self_attention_block set_self_attention_block
                     (MultiHeadAttention.forward x x x tgt_mask)) ;;
  self <- get_self ;;
  x <- ResidualConnection.forward (residual_connections self) x
         (fun x => zoom_self cross_attention_block set_cross_attention_block
                     (MultiHeadAttention.forward x enc_output enc_output src_mask)) ;;
  self <- get_self ;;
  ResidualConnection.forward (residual_connections self) x
         (fun x => with_rng (FeedForward.forward (feed_forward_block self) x)).

Definition parameters (self : t) : list param :=
  MultiHeadAttention.parameters (self_attention_block self)
  ++ MultiHeadAttention.parameters (cross_attention_block self)
  ++ FeedForward.parameters (feed_forward_block self)
  ++ ResidualConnection.parameters (residual_connections self).

Definition xavier (self : t) : M rng t :=
  s <- MultiHeadAttention.xavier (self_attention_block self) ;;
  c <- MultiHeadAttention.xavier (cross_attention_block self) ;;
  f <- FeedForward.xavier (feed_forward_block self) ;;
  ret {| self_attention_block := s; cross_attention_block := c;
         feed_forward_block := f;
         residual_connections := residual_connections self |}.

End Class.
End DecoderLayer.

(* ------------------------------------------------------------------ *)
(** ** class Decoder *)

Module Decoder.
Section Class.
Context {A : Arith}.

Record t : Type := {
  layers : list DecoderLayer.t;
  norm : LayerNormalization.t
}.

Definition set_layers (l : list DecoderLayer.t) (e : t) : t :=
  {| layers := l; norm := norm e |}.

Definition __init__ (layers : list DecoderLayer.t) : result t :=
  rbind (LayerNormalization.__init__ None None) (fun norm =>
  Ok {| layers := layers; norm := norm |}).

Inductive attr : Type :=
| AttrLayers (l : list DecoderLayer.t)
| AttrNorm (n : LayerNormalization.t).

Definition getattr (self : t) (name : string) : result attr :=
  if String.eqb name "layers" then Ok (AttrLayers (layers self))
  else if String.eqb name "norm" then Ok (AttrNorm (norm self))
  else Err AttributeError.

Definition forward (x enc_output : T3)
           (src_mask tgt_mask : option MultiHeadAttention.mask_t) : M (t * rng) T3 :=
  self <- get_self ;;
  it <- lift (getattr self "layers") ;;
  match it with
  | AttrLayers _ =>
      x <- zoom_self layers set_layers
             (forM_layers (fun x => DecoderLayer.forward x enc_output src_mask tgt_mask) x) ;;
      self <- get_self ;;
      lift (LayerNormalization.forward (norm self) x)
  | AttrNorm _ => raise TypeError       (* not iterable *)
  end.

Definition parameters (self : t) : list param :=
  flat_map DecoderLayer.parameters (layers self)
  ++ LayerNormalization.parameters (norm self).

Definition xavier (self : t) : M rng t :=
  ls <- mapM DecoderLayer.xavier (layers self) ;;
  ret {| layers := ls; norm := norm self |}.

End Class.
End Decoder.

(* ------------------------------------------------------------------ *)
(** ** class ProjectionLayer *)

Module ProjectionLayer.
Section Class.
Context {A : Arith}.

Record t : Type := {
  d_model : nat;
  vocab_size : nat;
  linear : Linear
}.

Definition __init__ (d_model vocab_size : nat) : M rng t :=
  l <- nn_Linear d_model vocab_size ;;
  ret {| d_model := d_model; vocab_size := vocab_size; linear := l |}.

(** [torch.log_softmax(self.linear(x),dim=-1)] *)
Definition forward (self : t) (x : T3) : result T3 :=
  rmap (map (map log_softmax)) (Linear_forward (linear self) x).

Definition parameters (self : t) : list param := Linear_parameters (linear self).

Definition xavier (self : t) : M rng t :=
  l <- Linear_xavier (linear self) ;;
  ret {| d_model := d_model self; vocab_size := vocab_size self; linear := l |}.

End Class.
End ProjectionLayer.

(* ------------------------------------------------------------------ *)
(** ** class Transformer and build_transformer *)

Module Transformer.
Section Class.
Context {A : Arith}.

Record t : Type := {
  encoder : Encoder.t;
  decoder : Decoder.t;
  src_embed : InputEmbeddings.t;
  tgt_embed : InputEmbeddings.t;
  src_pos : PositionalEncoding.t;
  tgt_pos : PositionalEncoding.t;
  projection_layer : ProjectionLayer.t
}.

Definition set_encoder (e : Encoder.t) (m : t) : t :=
  {| encoder := e; decoder := decoder m; src_embed := src_embed m;
     tgt_embed := tgt_embed m; src_pos := src_pos m; tgt_pos := tgt_pos m;
     projection_layer := projection_layer m |}.

Definition set_decoder (d : Decoder.t) (m : t) : t :=
  {| encoder := encoder m; decoder := d; src_embed := src_embed m;
     tgt_embed := tgt_embed m; src_pos := src_pos m; tgt_pos := tgt_pos m;
     projection_layer := projection_layer m |}.

Definition __init__ (encoder : Encoder.t) (decoder : Decoder.t)
           (src_embed tgt_embed : InputEmbeddings.t)
           (src_pos tgt_pos : PositionalEncoding.t)
           (projection_layer : ProjectionLayer.t) : t :=
  {| encoder := encoder; decoder := decoder; src_embed := src_embed;
     tgt_embed := tgt_embed; src_pos := src_pos; tgt_pos := tgt_pos;
     projection_layer := projection_layer |}.

Definition encode (src : list (list nat)) (src_mask : option MultiHeadAttention.mask_t)
  : M (t * rng) T3 :=
  self <- get_self ;;
  src <- lift (InputEmbeddings.forward (src_embed self) src) ;;
  src <- with_rng (PositionalEncoding.forward (src_pos self) src) ;;
  zoom_self encoder set_encoder (Encoder.forward src src_mask).

Definition decode (encoder_output : T3) (src_mask : option MultiHeadAttention.mask_t)
           (tgt : list (list nat)) (tgt_mask : option MultiHeadAttention.mask_t)
  : M (t * rng) T3 :=
  self <- get_self ;;
  tgt <- lift (InputEmbeddings.forward (tgt_embed self) tgt) ;;
  tgt <- with_rng (PositionalEncoding.forward (tgt_pos self) tgt) ;;
  zoom_self decoder set_decoder
    (Decoder.forward tgt encoder_output src_mask tgt_mask).

Definition project (x : T3) : M (t * rng) T3 :=
  self <- get_self ;;
  lift (ProjectionLayer.forward (projection_layer self) x).

(** [self.parameters()], in the order the submodules are registered; the
    positional tables are buffers and contribute nothing. *)
Definition parameters (self : t) : list param :=
  Encoder.parameters (encoder self) ++ Decoder.parameters (decoder self)
  ++ InputEmbeddings.parameters (src_embed self)
  ++ InputEmbeddings.parameters (tgt_embed self)
  ++ PositionalEncoding.parameters (src_pos self)
  ++ PositionalEncoding.parameters (tgt_pos self)
  ++ ProjectionLayer.parameters (projection_layer self).

(** [for p in transformer.parameters(): if p.dim() > 1: xavier_uniform_(p)] *)
Definition xavier (self : t) : M rng t :=
  e <- Encoder.xavier (encoder self) ;;
  d <- Decoder.xavier (decoder self) ;;
  se <- InputEmbeddings.xavier (src_embed self) ;;
  te <- InputEmbeddings.xavier (tgt_embed self) ;;
  pl <- ProjectionLayer.xavier (projection_layer self) ;;
  ret {| encoder := e; decoder := d; src_embed := se; tgt_embed := te;
         src_pos := src_pos self; tgt_pos := tgt_pos self;
         projection_layer := pl |}.

End Class.
End Transformer.

Section Build.
Context {A : Arith}.

Definition build_transformer (src_vocab_size tgt_vocab_size d_model h d_ff N : nat)
           (dropout : scalar) (src_seq_len tgt_seq_len : nat) : M rng Transformer.t :=
  src_embed <- InputEmbeddings.__init__ d_model src_vocab_size ;;
  tgt_embed <- InputEmbeddings.__init__ d_model tgt_vocab_size ;;
  src_pos <- lift (PositionalEncoding.__init__ d_model src_seq_len (PyFloat dropout)) ;;
  tgt_pos <- lift (PositionalEncoding.__init__ d_model tgt_seq_len (PyFloat dropout)) ;;
  encoder_block <-
    mapM (fun _ =>
            MultiHeadAttention.__init__ d_model h dropout ;;;
            FeedForward.__init__ d_model d_ff (PyFloat dropout) ;;;
            EncoderLayer.__init__ d_model h d_ff dropout)
         (seq 0 N) ;;
  decoder_block <-
    mapM (fun _ =>
            decoder_self_attention_block <- MultiHeadAttention.__init__ d_model h dropout ;;
            decoder_cross_attention_block <- MultiHeadAttention.__init__ d_model h dropout ;;
            feed_forward_block <- FeedForward.__init__ d_model d_ff (PyFloat dropout) ;;
            lift (DecoderLayer.__init__ decoder_self_attention_block
                    decoder_cross_attention_block feed_forward_block dropout))
         (seq 0 N) ;;
  encoder <- lift (Encoder.__init__ encoder_block) ;;
  decoder <- lift (Decoder.__init__ decoder_block) ;;
  projection_layer <- ProjectionLayer.__init__ d_model tgt_vocab_size ;;
  Transformer.xavier
    (Transformer.__init__ encoder decoder src_embed tgt_embed src_pos tgt_pos
       projection_layer).

End Build.

(* ================================================================== *)
(** * The vocabulary of the properties *)

Section Vocabulary.
Context {A : Arith}.

(** ** Outcomes of a computation *)

(** [never_returns m]: from every state, [m] ends in an exception. *)
Definition never_returns {St X} (m : M St X) : Prop :=
  forall s, exists e s', m s = (Err e, s').

(** [returns m P]: from every state, [m] returns a value that satisfies [P]. *)
Definition returns {St X} (m : M St X) (P : X -> Prop) : Prop :=
  forall s, exists x s', m s = (Ok x, s') /\ P x.

(** [preserves obs m]: whatever [m] does (return or raise), the observation
    [obs] of [self] is after it what it was before. *)
Definition preserves {P X O} (obs : P -> O) (m : M (P * rng) X) : Prop :=
  forall s, obs (fst (snd (m s))) = obs (fst s).

(** ** Well-formed modules and shapes *)

(** A linear map as [nn.Linear(i, o)] makes it. *)
Definition wf_linear (i o : nat) (l : Linear) : Prop :=
  in_features l = i /\ out_features l = o /\
  length (weight l) = o /\ Forall (fun row => length row = i) (weight l) /\
  length (bias l) = o.

Definition rect {X} (r c : nat) (m : list (list X)) : Prop :=
  length m = r /\ Forall (fun row => length row = c) m.

Definition has_shape3 (B S D : nat) (x : T3) : Prop :=
  length x = B /\ Forall (rect S D) x.

Definition has_shape4 (B H S D : nat) (x : T4) : Prop :=
  length x = B /\ Forall (has_shape3 H S D) x.

(** A module as the constructor makes it. *)
Definition wf_attention (self : MultiHeadAttention.t) : Prop :=
  MultiHeadAttention.h self <> 0 /\ MultiHeadAttention.d_k self <> 0 /\
  MultiHeadAttention.d_model self
  = MultiHeadAttention.h self * MultiHeadAttention.d_k self /\
  wf_linear (MultiHeadAttention.d_model self) (MultiHeadAttention.d_model self)
            (MultiHeadAttention.w_q self) /\
  wf_linear (MultiHeadAttention.d_model self) (MultiHeadAttention.d_model self)
            (MultiHeadAttention.w_k self) /\
  wf_linear (MultiHeadAttention.d_model self) (MultiHeadAttention.d_model self)
            (MultiHeadAttention.w_v self) /\
  wf_linear (MultiHeadAttention.d_model self) (MultiHeadAttention.d_model self)
            (MultiHeadAttention.w_o self).

(** Every token of [x] has the extent of the scale and of the shift. *)
Definition fits (self : LayerNormalization.t) (x : T3) : Prop :=
  Forall (Forall (fun v => length v = length (LayerNormalization.alpha self) /\
                           length v = length (LayerNormalization.beta self))) x.

(** Everything of an attention block but the scores it remembers. *)
Definition MultiHeadAttention_config (m : MultiHeadAttention.t) :=
  (MultiHeadAttention.d_model m, MultiHeadAttention.h m, MultiHeadAttention.d_k m,
   (MultiHeadAttention.w_q m, MultiHeadAttention.w_k m,
    MultiHeadAttention.w_v m, MultiHeadAttention.w_o m),
   MultiHeadAttention.dropout m).

(** A decoder layer keeps its residual connection, its feed-forward block
    and the configuration of both attention blocks. *)
Definition DecoderLayer_config (l : DecoderLayer.t) :=
  (MultiHeadAttention_config (DecoderLayer.self_attention_block l),
   MultiHeadAttention_config (DecoderLayer.cross_attention_block l),
   DecoderLayer.feed_forward_block l,
   DecoderLayer.residual_connections l).

(** ** Layer normalisation in the words of the specification *)

(** The formula of the specification on one token: component [i] is
    [alpha_i * (x_i - mean) / (std + eps) + beta_i]. *)
Definition normalize_token (alpha beta : Vec) (eps : scalar) (v : Vec) : Vec :=
  map (fun i => nth i alpha zero *. (nth i v zero -. mean v) /. (std v +. eps)
                +. nth i beta zero)
      (seq 0 (length v)).

Definition normalize (self : LayerNormalization.t) (x : T3) : T3 :=
  map (map (normalize_token (LayerNormalization.alpha self)
              (LayerNormalization.beta self) (LayerNormalization.eps self))) x.

(** ** The positional table *)

(** The angle of position [pos] and frequency index [i], as the code
    computes it: [position * div_term]. *)
Definition angle (d_model pos i : nat) : scalar :=
  s_of_nat pos
  *. s_exp (s_of_nat (2 * i) *. (s_neg (s_log (s_of_Z 10000)) /. s_of_nat d_model)).

Definition angles (d_model seq_len : nat) : Mat :=
  map (fun pos => map (fun dt => pos *. dt) (PositionalEncoding.div_term d_model))
      (map s_of_nat (seq 0 seq_len)).

(** The table after both slice assignments, when they succeed. *)
Definition table_of (d_model seq_len : nat) (cos_vals : Vec -> Vec) : Mat :=
  map2 (fun row v => PositionalEncoding.assign_row 1 row (cos_vals v))
       (map2 (PositionalEncoding.assign_row 0)
             (repeat (repeat zero d_model) seq_len)
             (map (map s_sin) (angles d_model seq_len)))
       (map (map s_cos) (angles d_model seq_len)).

(** ** Multi-head attention in the words of the specification *)

(** A learned linear map on one token, and on every token of a tensor. *)
Definition apply_linear (l : Linear) (v : Vec) : Vec :=
  map2 s_add (map (dot v) (weight l)) (bias l).

Definition linear_map (l : Linear) (x : T3) : T3 := map (map (apply_linear l)) x.

(** Head [j] of a sequence of tokens: the features [j*d_k, (j+1)*d_k) of
    every token. *)
Definition head (d_k j : nat) (x : Mat) : Mat :=
  map (fun tok => firstn d_k (skipn (j * d_k) tok)) x.

(** (batch, seq, h*d_k) to (batch, h, seq, d_k): the head index comes before
    the sequence index. *)
Definition split_heads (h d_k : nat) (x : T3) : T4 :=
  map (fun xb => map (fun j => head d_k j xb) (seq 0 h)) x.

(** [Q . K^T / sqrt(d_k)] per batch element and head. *)
Definition raw_scores (d_k : nat) (Q K : T4) : T4 :=
  map2 (map2 (fun Qj Kj =>
                map (fun qr => map (fun kr => dot qr kr /. s_sqrt (s_of_nat d_k)) Kj) Qj))
       Q K.

(** Positions where the mask is 0 get -1e9. *)
Definition mask_scores (mask : option MultiHeadAttention.mask_t) (s : T4) : T4 :=
  match mask with
  | Some m => MultiHeadAttention.masked_fill m (s_of_Z (-1000000000)) s
  | None => s
  end.

(** Softmax over the key axis. *)
Definition probabilities (s : T4) : T4 := map (map (map softmax)) s.

(** [P . V] per batch element and head: row [i] is the sum over the keys
    [k] of [P[i][k] * V[k]]. *)
Definition weighted_values (d_k : nat) (P V : T4) : T4 :=
  map2 (map2 (fun Pj Vj =>
                map (fun pr =>
                       map (fun t => dot pr (map (fun vr => nth t vr zero) Vj))
                           (seq 0 d_k)) Pj))
       P V.

(** (batch, h, seq, d_k) back to (batch, seq, h*d_k): token [i] is the
    concatenation over the heads of their row [i]. *)
Definition concat_heads (S : nat) (O : T4) : T3 :=
  map (fun Ob => map (fun i => concat (map (fun Oj => nth i Oj []) Ob)) (seq 0 S)) O.

(** ** Further vocabulary *)

(** The lookup of one token id in the embedding table, scaled. *)
Definition embed_id (self : InputEmbeddings.t) (id : nat) : result Vec :=
  match InputEmbeddings.embedding self with
  | [] => Err RuntimeError
  | _ :: _ =>
      match nth_error (InputEmbeddings.embedding self) id with
      | Some row =>
          Ok (map (fun e => e *. s_sqrt (s_of_nat (InputEmbeddings.d_model self))) row)
      | None => Err IndexError
      end
  end.

(** [raises e m]: from every state, [m] raises the exception [e]. *)
Definition raises {St X} (e : exn) (m : M St X) : Prop :=
  forall s, exists s', m s = (Err e, s').

(** ** Parameters under re-initialisation *)

(** [p.dim()] of a parameter. *)
Definition dim (p : param) : nat :=
  match p with P1 _ => 1 | P2 _ => 2 end.

(** [kept ps ps']: the parameters [ps'] are those of [ps], slot by slot of
    the same rank, and every parameter of rank at most 1 is unchanged. *)
Definition kept (ps ps' : list param) : Prop :=
  Forall2 (fun p p' => dim p' = dim p /\ (dim p <= 1 -> p' = p)) ps ps'.

End Vocabulary.

(** ** A concrete attention block over the reals *)

(** A block of width 2 with two heads, in evaluation mode. *)
Definition example_linear : @Linear RArith :=
  {| in_features := 2; out_features := 2;
     weight := [[1; 0]; [0; 1]]%R; bias := [0; 0]%R |}.

Definition example_attention : @MultiHeadAttention.t RArith :=
  {| MultiHeadAttention.d_model := 2; MultiHeadAttention.h := 2;
     MultiHeadAttention.d_k := 1;
     MultiHeadAttention.w_q := example_linear;
     MultiHeadAttention.w_k := example_linear;
     MultiHeadAttention.w_v := example_linear;
     MultiHeadAttention.w_o := example_linear;
     MultiHeadAttention.dropout := {| p := 0%R; training := false |};
     MultiHeadAttention.attention_scores := None |}.

(* ================================================================== *)
(** * Properties *)

Unset Implicit Arguments.

(** ** Computations that cannot return *)

Section Raises.
Context {A : Arith}.

Lemma never_returns_raise {St X} (e : exn) : never_returns (@raise St X e).
Proof. intros s. exists e, s. reflexivity. Qed.

Lemma never_returns_lift_err {St X} (r : result X) (e : exn) :
  r = Err e -> never_returns (@lift St X r).
Proof. intros -> s. exists e, s. reflexivity. Qed.

Lemma never_returns_bind {St X Y} (m : M St X) (k : X -> M St Y) :
  (forall x, never_returns (k x)) -> never_returns (bind m k).
Proof.
  intros Hk s. unfold bind. destruct (m s) as [[x | e] s'].
  - apply Hk.
  - exists e, s'. reflexivity.
Qed.

Lemma never_returns_bind_l {St X Y} (m : M St X) (k : X -> M St Y) :
  never_returns m -> never_returns (bind m k).
Proof.
  intros Hm s. unfold bind. destruct (Hm s) as (e & s' & ->).
  exists e, s'. reflexivity.
Qed.

Lemma LayerNormalization_needs_d_model (eps : option scalar) :
  LayerNormalization.__init__ None eps = Err TypeError.
Proof. reflexivity. Qed.

Lemma Encoder_init_raises (layers : list EncoderLayer.t) :
  Encoder.__init__ layers = Err TypeError.
Proof. reflexivity. Qed.

Lemma Decoder_init_raises (layers : list DecoderLayer.t) :
  Decoder.__init__ layers = Err TypeError.
Proof. reflexivity. Qed.

Lemma d_model_unbound (dropout : scalar) :
  resolve (DecoderLayer.init_locals dropout) "d_model" = Err NameError.
Proof. reflexivity. Qed.

Lemma DecoderLayer_init_raises sa ca ff (dropout : scalar) :
  DecoderLayer.__init__ sa ca ff dropout = Err NameError.
Proof. unfold DecoderLayer.__init__. rewrite d_model_unbound. reflexivity. Qed.

(** A loop whose body cannot return raises as soon as it has an iteration. *)
Lemma mapM_never_returns {St X Y} (f : X -> M St Y) (l : list X) :
  (forall x, never_returns (f x)) -> l <> [] -> never_returns (mapM f l).
Proof.
  intros Hf Hl. destruct l as [| x l]; [congruence |].
  cbn [mapM]. apply never_returns_bind_l, Hf.
Qed.

End Raises.

(** C2. [build_transformer] returns a [Transformer] for no configuration:
    [Encoder.__init__] and [Decoder.__init__] call [LayerNormalization()]
    without the [d_model] that [LayerNormalization.__init__] requires, and
    [DecoderLayer.__init__] reads a name [d_model] that is bound in none of
    its scopes; whatever the vocabulary sizes, widths, head and layer counts,
    dropout, sequence lengths and generator state, the call ends in an
    exception. *)
Theorem build_transformer_never_returns :
  forall (A : Arith),
    (forall eps, LayerNormalization.__init__ None eps = Err TypeError) /\
    (forall layers, Encoder.__init__ layers = Err TypeError) /\
    (forall layers, Decoder.__init__ layers = Err TypeError) /\
    (forall sa ca ff dropout, DecoderLayer.__init__ sa ca ff dropout = Err NameError) /\
    (forall src_vocab_size tgt_vocab_size d_model h d_ff N dropout
            src_seq_len tgt_seq_len,
        never_returns
          (build_transformer src_vocab_size tgt_vocab_size d_model h d_ff N
             dropout src_seq_len tgt_seq_len)).
Proof.
  intros A. split; [| split; [| split; [| split]]].
  - apply LayerNormalization_needs_d_model.
  - apply Encoder_init_raises.
  - apply Decoder_init_raises.
  - apply DecoderLayer_init_raises.
  - intros. unfold build_transformer.
    do 6 (apply never_returns_bind; intros ?).
    apply never_returns_bind_l.
    apply never_returns_lift_err with (e := TypeError).
    apply Encoder_init_raises.
Qed.

(** With at least one layer the decoder loop is reached only to fail: each
    iteration ends in the [NameError] of [DecoderLayer.__init__] unless a
    constructor before it has already raised. *)
Lemma decoder_loop_never_returns {A : Arith} (d_model h d_ff N : nat) (dropout : scalar) :
  N <> 0 ->
  never_returns
    (mapM (fun _ : nat =>
             sa <- MultiHeadAttention.__init__ d_model h dropout ;;
             ca <- MultiHeadAttention.__init__ d_model h dropout ;;
             ff <- FeedForward.__init__ d_model d_ff (PyFloat dropout) ;;
             lift (DecoderLayer.__init__ sa ca ff dropout))
          (seq 0 N)).
Proof.
  intros HN. apply mapM_never_returns.
  - intros _. do 3 (apply never_returns_bind; intros ?).
    apply never_returns_lift_err with (e := NameError).
    apply DecoderLayer_init_raises.
  - destruct N; [congruence | discriminate].
Qed.

(** ** The positional encoding and the stacks at run time *)

(** C6. [PositionalEncoding.forward] adds no row of the table to any input:
    it asks for the sequence extent with [x.shape(1)], a call of the
    [torch.Size] that [x.shape] is, and calling it raises [TypeError]; this
    is so for every table, every stored dropout, every input (short or long)
    and every generator state, and the generator is left as it was. *)
Theorem PositionalEncoding_forward_raises :
  forall (A : Arith) (self : PositionalEncoding.t) (x : T3) (g : rng),
    PositionalEncoding.forward self x g = (Err TypeError, g).
Proof.
  intros A self x g. unfold PositionalEncoding.forward.
  unfold bind at 1. cbn [py_call]. reflexivity.
Qed.

Section Stacks.
Context {A : Arith}.

(** The sibling loop: [Decoder.forward] does run its stored layers in order,
    each on the output of the one before, and normalises the last output. *)
Lemma Decoder_forward_sequential (self : Decoder.t) (x enc_output : T3)
      (src_mask tgt_mask : option MultiHeadAttention.mask_t) (g : rng) :
  Decoder.forward x enc_output src_mask tgt_mask (self, g) =
  match for_layers (fun x => DecoderLayer.forward x enc_output src_mask tgt_mask)
                   (Decoder.layers self) x g with
  | (Ok y, (ls, g')) =>
      (LayerNormalization.forward (Decoder.norm self) y, (Decoder.set_layers ls self, g'))
  | (Err e, (ls, g')) => (Err e, (Decoder.set_layers ls self, g'))
  end.
Proof.
  unfold Decoder.forward, bind, get_self, lift, zoom_self, zoom, forM_layers.
  cbn.
  destruct (for_layers _ (Decoder.layers self) x g) as [[y | e] [ls g']];
    reflexivity.
Qed.

Lemma for_layers_nil {C X} (call : X -> M (C * rng) X) (x : X) (g : rng) :
  for_layers call [] x g = (Ok x, ([], g)).
Proof. reflexivity. Qed.

Lemma for_layers_cons_ok {C X} (call : X -> M (C * rng) X) c cs x g y c' g' :
  call x (c, g) = (Ok y, (c', g')) ->
  for_layers call (c :: cs) x g =
  (fst (for_layers call cs y g'),
   (c' :: fst (snd (for_layers call cs y g')), snd (snd (for_layers call cs y g')))).
Proof.
  intros H. cbn [for_layers]. rewrite H.
  destruct (for_layers call cs y g') as [r [cs' g'']]. reflexivity.
Qed.

End Stacks.

(** C3. The two stacks differ.  [Encoder.forward] applies no layer: it
    iterates [self.encoder_layers], an attribute that [Encoder.__init__]
    never sets (the layers are stored as [self.layers]), so it raises
    [AttributeError] for every stack, input and mask, and leaves the stack
    untouched.  [Decoder.forward] iterates [self.layers]: it runs the stored
    layers in order, each on the output of the one before, and returns the
    final normalisation of the last output (or the first exception). *)
Theorem Encoder_forward_raises :
  forall (A : Arith),
    (forall (self : Encoder.t) (x : T3) (mask : option MultiHeadAttention.mask_t)
            (g : rng),
        Encoder.getattr self "encoder_layers" = Err AttributeError /\
        Encoder.forward x mask (self, g) = (Err AttributeError, (self, g))) /\
    (forall (self : Decoder.t) (x enc_output : T3)
            (src_mask tgt_mask : option MultiHeadAttention.mask_t) (g : rng),
        Decoder.forward x enc_output src_mask tgt_mask (self, g) =
        match for_layers (fun y => DecoderLayer.forward y enc_output src_mask tgt_mask)
                         (Decoder.layers self) x g with
        | (Ok y, (ls, g')) =>
            (LayerNormalization.forward (Decoder.norm self) y,
             (Decoder.set_layers ls self, g'))
        | (Err e, (ls, g')) => (Err e, (Decoder.set_layers ls self, g'))
        end).
Proof.
  intros A. split.
  - intros self x mask g. split; [reflexivity |].
    unfold Encoder.forward, bind, get_self, lift. cbn. reflexivity.
  - intros. apply Decoder_forward_sequential.
Qed.

(** ** Computations that return *)

Section Returns.
Context {A : Arith}.

Lemma returns_ret {St X} (x : X) (P : X -> Prop) : P x -> returns (@ret St X x) P.
Proof. intros HP s. exists x, s. split; [reflexivity | exact HP]. Qed.

Lemma returns_bind {St X Y} (m : M St X) (k : X -> M St Y) (P : X -> Prop)
      (Q : Y -> Prop) :
  returns m P -> (forall x, P x -> returns (k x) Q) -> returns (bind m k) Q.
Proof.
  intros Hm Hk s. destruct (Hm s) as (x & s' & Hx & HP).
  unfold bind. rewrite Hx. apply Hk, HP.
Qed.

Lemma returns_weaken {St X} (m : M St X) (P Q : X -> Prop) :
  returns m P -> (forall x, P x -> Q x) -> returns m Q.
Proof.
  intros Hm HPQ s. destruct (Hm s) as (x & s' & Hx & HP).
  exists x, s'. split; [exact Hx | apply HPQ, HP].
Qed.

Lemma returns_mapM {St X Y} (f : X -> M St Y) (P : Y -> Prop) (l : list X) :
  (forall x, returns (f x) P) ->
  returns (mapM f l) (fun ys => length ys = length l /\ Forall P ys).
Proof.
  intros Hf. induction l as [| x l IH]; cbn [mapM].
  - apply returns_ret. split; [reflexivity | constructor].
  - eapply returns_bind; [apply Hf |]. intros y Hy.
    eapply returns_bind; [apply IH |]. intros ys [Hlen Hall].
    apply returns_ret. split; [cbn; congruence | constructor; assumption].
Qed.

Lemma rand_scalar_returns : returns rand_scalar (fun _ => True).
Proof.
  intros g. unfold rand_scalar. destruct (rand g) as [u g'].
  exists u, g'. split; [reflexivity | exact I].
Qed.

Lemma rand_vec_returns (n : nat) : returns (rand_vec n) (fun v => length v = n).
Proof.
  unfold rand_vec. eapply returns_weaken.
  - apply returns_mapM with (P := fun _ => True). intros _. apply rand_scalar_returns.
  - cbn beta. intros v [Hlen _]. now rewrite Hlen, length_seq.
Qed.

Lemma rand_mat_returns (r c : nat) :
  returns (rand_mat r c)
          (fun m => length m = r /\ Forall (fun row => length row = c) m).
Proof.
  unfold rand_mat. eapply returns_weaken.
  - apply returns_mapM with (P := fun row : Vec => length row = c).
    intros _. apply rand_vec_returns.
  - cbn beta. intros m [Hlen Hall]. split; [now rewrite Hlen, length_seq | exact Hall].
Qed.

Lemma nn_Linear_returns (i o : nat) : returns (nn_Linear i o) (wf_linear i o).
Proof.
  unfold nn_Linear.
  eapply returns_bind; [apply rand_mat_returns |]. intros w [Hw1 Hw2].
  eapply returns_bind; [apply rand_vec_returns |]. intros b Hb.
  apply returns_ret. repeat split; assumption.
Qed.

End Returns.

(** ** Construction of the attention block *)

(** C9. For a head count [h] other than 0 and a dropout probability that
    [nn.Dropout] accepts, [MultiHeadAttention(d_model, h, dropout)] raises
    exactly when [d_model % h != 0]; it then raises [AssertionError] at once,
    before anything is drawn from the generator; when [d_model % h == 0] it
    returns a module whose [d_k] is [d_model // h] (so that [h * d_k] is
    [d_model]) and whose [d_model] and [h] are the arguments. *)
Theorem MultiHeadAttention_init_divisibility :
  forall (A : Arith) (d_model h : nat) (dropout : scalar) (g : rng),
    h <> 0 ->
    is_ok (nn_Dropout dropout) = true ->
    ((exists e g', MultiHeadAttention.__init__ d_model h dropout g = (Err e, g'))
     <-> d_model mod h <> 0) /\
    (d_model mod h <> 0 ->
     MultiHeadAttention.__init__ d_model h dropout g = (Err AssertionError, g)) /\
    (d_model mod h = 0 ->
     exists m g',
       MultiHeadAttention.__init__ d_model h dropout g = (Ok m, g') /\
       MultiHeadAttention.d_k m = d_model / h /\
       MultiHeadAttention.h m * MultiHeadAttention.d_k m = d_model /\
       MultiHeadAttention.d_model m = d_model /\
       MultiHeadAttention.h m = h).
Proof.
  intros A d_model h dropout g Hh Hp.
  assert (Hfail : d_model mod h <> 0 ->
                  MultiHeadAttention.__init__ d_model h dropout g
                  = (Err AssertionError, g)).
  { intros Hmod. unfold MultiHeadAttention.__init__.
    destruct (Nat.eqb_spec h 0) as [-> | _]; [congruence |].
    destruct (Nat.eqb_spec (d_model mod h) 0) as [E | _]; [congruence |].
    reflexivity. }
  assert (Hok : d_model mod h = 0 ->
                exists m g',
                  MultiHeadAttention.__init__ d_model h dropout g = (Ok m, g') /\
                  MultiHeadAttention.d_k m = d_model / h /\
                  MultiHeadAttention.h m * MultiHeadAttention.d_k m = d_model /\
                  MultiHeadAttention.d_model m = d_model /\
                  MultiHeadAttention.h m = h).
  { intros Hmod. unfold MultiHeadAttention.__init__.
    destruct (Nat.eqb_spec h 0) as [-> | _]; [congruence |].
    rewrite Hmod. cbn [Nat.eqb negb].
    destruct (nn_Dropout dropout) as [d | e] eqn:Ed; [| discriminate].
    destruct (nn_Linear_returns d_model d_model g) as (q & g1 & Eq & _).
    destruct (nn_Linear_returns d_model d_model g1) as (k & g2 & Ek & _).
    destruct (nn_Linear_returns d_model d_model g2) as (v & g3 & Ev & _).
    destruct (nn_Linear_returns d_model d_model g3) as (o & g4 & Eo & _).
    unfold bind. rewrite Eq, Ek, Ev, Eo. cbn.
    eexists _, g4. split; [reflexivity |]. cbn.
    repeat split.
    apply Nat.Div0.div_exact in Hmod. lia. }
  split; [| split; assumption].
  split.
  - intros (e & g' & He) Hmod.
    destruct (Hok Hmod) as (m & g'' & Hm & _). congruence.
  - intros Hmod. exists AssertionError, g. apply Hfail, Hmod.
Qed.

(** A head count of 0 makes [d_model % h] itself raise. *)
Lemma MultiHeadAttention_init_zero_heads {A : Arith} (d_model : nat)
      (dropout : scalar) (g : rng) :
  MultiHeadAttention.__init__ d_model 0 dropout g = (Err ZeroDivisionError, g).
Proof. reflexivity. Qed.

(** A probability outside the unit interval is refused by [nn.Dropout]
    after the linear maps have been built. *)
Lemma MultiHeadAttention_init_bad_dropout {A : Arith} (d_model h : nat)
      (dropout : scalar) (g : rng) :
  h <> 0 -> d_model mod h = 0 -> is_ok (nn_Dropout dropout) = false ->
  exists g', MultiHeadAttention.__init__ d_model h dropout g = (Err ValueError, g').
Proof.
  intros Hh Hmod Hp. unfold MultiHeadAttention.__init__.
  destruct (Nat.eqb_spec h 0) as [-> | _]; [congruence |].
  rewrite Hmod. cbn [Nat.eqb negb].
  destruct (nn_Linear_returns d_model d_model g) as (q & g1 & Eq & _).
  destruct (nn_Linear_returns d_model d_model g1) as (k & g2 & Ek & _).
  destruct (nn_Linear_returns d_model d_model g2) as (v & g3 & Ev & _).
  destruct (nn_Linear_returns d_model d_model g3) as (o & g4 & Eo & _).
  unfold bind. rewrite Eq, Ek, Ev, Eo.
  unfold nn_Dropout in Hp |- * .
  destruct (s_ltb dropout zero || s_ltb one dropout); [| discriminate].
  exists g4. reflexivity.
Qed.

(** Over the reals, [nn.Dropout] accepts 0. *)
Lemma nn_Dropout_zero_ok : is_ok (@nn_Dropout RArith 0%R) = true.
Proof.
  unfold nn_Dropout, zero, one. cbn.
  destruct (Rlt_dec 0 0) as [H | _]; [lra |].
  destruct (Rlt_dec 1 0) as [H | _]; [lra |]. reflexivity.
Qed.

Lemma MultiHeadAttention_init_divisibility_witness :
  exists m g',
    @MultiHeadAttention.__init__ RArith 4 2 0%R (fun _ => 0%R) = (Ok m, g') /\
    MultiHeadAttention.d_k m = 2 /\
    MultiHeadAttention.h m * MultiHeadAttention.d_k m = 4.
Proof.
  destruct (MultiHeadAttention_init_divisibility RArith 4 2 0%R (fun _ => 0%R)
              ltac:(discriminate) nn_Dropout_zero_ok) as (_ & _ & H).
  destruct (H eq_refl) as (m & g' & E & Hk & Hhk & _).
  exists m, g'. repeat split; assumption.
Defined.

(** ** Lists: pairwise maps and broadcasting on operands of equal extent *)

Section ListFacts.

Lemma length_map2 {X Y Z} (f : X -> Y -> Z) (xs : list X) (ys : list Y) :
  length xs = length ys -> length (map2 f xs ys) = length xs.
Proof.
  revert ys. induction xs as [| x xs IH]; intros [| y ys] H; cbn in H |- * ;
    try discriminate; [reflexivity |].
  f_equal. apply IH. lia.
Qed.

Lemma nth_map2 {X Y Z} (f : X -> Y -> Z) (xs : list X) (ys : list Y) i dx dy dz :
  length xs = length ys -> i < length xs ->
  nth i (map2 f xs ys) dz = f (nth i xs dx) (nth i ys dy).
Proof.
  revert ys i. induction xs as [| x xs IH]; intros [| y ys] i H Hi; cbn in H, Hi |- * ;
    try discriminate; try lia.
  destruct i as [| i]; [reflexivity |]. apply IH; lia.
Qed.

Lemma zipR_pure {X Y Z} (f : X -> Y -> Z) (xs : list X) (ys : list Y) :
  length xs = length ys ->
  zipR (fun a b => Ok (f a b)) xs ys = Ok (map2 f xs ys).
Proof.
  revert ys. induction xs as [| x xs IH]; intros [| y ys] H; cbn in H |- * ;
    try discriminate; [reflexivity |].
  rewrite IH by lia. reflexivity.
Qed.

Lemma mapR_pure {X Y} (f : X -> Y) (l : list X) :
  mapR (fun a => Ok (f a)) l = Ok (map f l).
Proof.
  induction l as [| a l IH]; cbn; [reflexivity |]. rewrite IH. reflexivity.
Qed.

Lemma mapR_ext_in {X Y} (f g : X -> result Y) (l : list X) :
  (forall a, In a l -> f a = g a) -> mapR f l = mapR g l.
Proof.
  induction l as [| a l IH]; intros H; cbn; [reflexivity |].
  rewrite (H a) by (left; reflexivity).
  rewrite IH by (intros b Hb; apply H; right; exact Hb). reflexivity.
Qed.

Lemma mapR_ok_in {X Y} (f : X -> result Y) (g : X -> Y) (l : list X) :
  (forall a, In a l -> f a = Ok (g a)) -> mapR f l = Ok (map g l).
Proof.
  intros H. rewrite (mapR_ext_in f (fun a => Ok (g a))) by exact H.
  apply mapR_pure.
Qed.

(** With operands of the same extent, broadcasting is the pairwise map. *)
Lemma bzipR_same_length {X Y Z} (f : X -> Y -> result Z) (xs : list X) (ys : list Y) :
  length xs = length ys -> bzipR f xs ys = zipR f xs ys.
Proof.
  intros H. unfold bzipR.
  destruct xs as [| x [| x' xs]], ys as [| y [| y' ys]]; cbn in H |- * ;
    try discriminate; reflexivity.
Qed.

Lemma bzip_same_length {X Y Z} (f : X -> Y -> Z) (xs : list X) (ys : list Y) :
  length xs = length ys -> bzip f xs ys = Ok (map2 f xs ys).
Proof.
  intros H. unfold bzip. rewrite bzipR_same_length by exact H.
  apply zipR_pure, H.
Qed.

Lemma zipR_ok_in {X Y Z} (f : X -> Y -> result Z) (g : X -> Y -> Z)
      (xs : list X) (ys : list Y) :
  length xs = length ys ->
  (forall a b, In (a, b) (combine xs ys) -> f a b = Ok (g a b)) ->
  zipR f xs ys = Ok (map2 g xs ys).
Proof.
  revert ys. induction xs as [| x xs IH]; intros [| y ys] H Hf; cbn in H |- * ;
    try discriminate; [reflexivity |].
  rewrite (Hf x y) by (left; reflexivity). cbn.
  rewrite IH; [reflexivity | lia |].
  intros a b Hab. apply Hf. right. exact Hab.
Qed.

Lemma Forall_map2 {X Y Z} (f : X -> Y -> Z) (P : Z -> Prop) (xs : list X) (ys : list Y) :
  (forall a b, In (a, b) (combine xs ys) -> P (f a b)) -> Forall P (map2 f xs ys).
Proof.
  revert ys. induction xs as [| x xs IH]; intros [| y ys] H; cbn; try constructor.
  - apply H. left. reflexivity.
  - apply IH. intros a b Hab. apply H. right. exact Hab.
Qed.

Lemma nth_map_seq {X} (phi : nat -> X) (n i : nat) (d : X) :
  i < n -> nth i (map phi (seq 0 n)) d = phi i.
Proof.
  intros Hi.
  rewrite nth_indep with (d' := phi 0) by (rewrite length_map, length_seq; exact Hi).
  rewrite (map_nth phi), seq_nth by exact Hi. reflexivity.
Qed.

Lemma map2_seq {X Y Z} (f : X -> Y -> Z) (xs : list X) (ys : list Y) dx dy :
  length xs = length ys ->
  map2 f xs ys = map (fun i => f (nth i xs dx) (nth i ys dy)) (seq 0 (length xs)).
Proof.
  intros H.
  apply nth_ext with (d := f dx dy) (d' := (fun i => f (nth i xs dx) (nth i ys dy)) 0).
  - rewrite length_map2, length_map, length_seq by exact H. reflexivity.
  - intros i Hi. rewrite length_map2 in Hi by exact H.
    rewrite (map_nth (fun i => f (nth i xs dx) (nth i ys dy))), seq_nth by exact Hi.
    apply nth_map2; assumption.
Qed.

Lemma half_spec (n : nat) : 2 * (n / 2) <= n < 2 * (n / 2) + 2.
Proof.
  pose proof (Nat.div_mod_eq n 2) as H.
  pose proof (Nat.mod_upper_bound n 2 ltac:(discriminate)) as H'. lia.
Qed.

Lemma half_double (i : nat) : 2 * i / 2 = i.
Proof. pose proof (half_spec (2 * i)). lia. Qed.

Lemma half_double_succ (i : nat) : (2 * i + 1) / 2 = i.
Proof. pose proof (half_spec (2 * i + 1)). lia. Qed.

Lemma nth_map_rows {X Y} (f : X -> Y) (l : list (list X)) (i : nat) :
  nth i (map (map f) l) [] = map f (nth i l []).
Proof. exact (map_nth (map f) l [] i). Qed.

End ListFacts.

(** ** Layer normalisation *)

Section LayerNorm.
Context {A : Arith}.

Lemma forward_vec_formula (self : LayerNormalization.t) (v : Vec) :
  length v = length (LayerNormalization.alpha self) ->
  length v = length (LayerNormalization.beta self) ->
  LayerNormalization.forward_vec self v =
  Ok (normalize_token (LayerNormalization.alpha self) (LayerNormalization.beta self)
        (LayerNormalization.eps self) v).
Proof.
  intros Ha Hb. unfold LayerNormalization.forward_vec.
  set (h := fun x => x -. mean v).
  set (g := fun y => y /. (std v +. LayerNormalization.eps self)).
  assert (L1 : length (map h v) = length v) by apply length_map.
  assert (L2 : length (map2 s_mul (LayerNormalization.alpha self) (map h v)) = length v).
  { rewrite length_map2; congruence. }
  rewrite bzip_same_length by congruence. cbn [rbind].
  assert (L3 : length (map g (map2 s_mul (LayerNormalization.alpha self) (map h v)))
               = length v).
  { rewrite length_map. exact L2. }
  rewrite bzip_same_length by congruence.
  f_equal. unfold normalize_token.
  rewrite (map2_seq s_add _ _ (g zero) zero) by congruence.
  rewrite L3. apply map_ext_in. intros i Hi. apply in_seq in Hi.
  f_equal. rewrite (map_nth g). unfold g. f_equal.
  rewrite nth_map2 with (dx := zero) (dy := h zero); [| congruence | lia].
  rewrite (map_nth h). reflexivity.
Qed.

Lemma forward_formula (self : LayerNormalization.t) (x : T3) :
  fits self x -> LayerNormalization.forward self x = Ok (normalize self x).
Proof.
  intros Hx. unfold LayerNormalization.forward, normalize.
  apply mapR_ok_in. intros m Hm.
  apply mapR_ok_in. intros v Hv.
  unfold fits in Hx. rewrite Forall_forall in Hx.
  specialize (Hx m Hm). rewrite Forall_forall in Hx.
  destruct (Hx v Hv) as [Ha Hb].
  apply forward_vec_formula; assumption.
Qed.

End LayerNorm.

(** C7. [LayerNormalization(d_model)] holds a scale [alpha] of [d_model]
    ones and a shift [beta] of [d_model] zeros, which are its two parameters,
    and the default [eps], which is positive (1e-6).  Its [forward] treats
    every token on its own: on an input whose tokens have the extent of
    [alpha] and [beta] it returns, for each token [v] and feature [i],
    [alpha_i * (v_i - mean v) / (std v + eps) + beta_i], with [mean] and
    [std] taken over the features of that token. *)
Theorem LayerNormalization_formula :
  forall (A : Arith),
    (forall d, exists self,
        LayerNormalization.__init__ (Some d) None = Ok self /\
        LayerNormalization.alpha self = repeat one d /\
        LayerNormalization.beta self = repeat zero d /\
        LayerNormalization.eps self = LayerNormalization.default_eps /\
        LayerNormalization.parameters self
        = [P1 (LayerNormalization.alpha self); P1 (LayerNormalization.beta self)]) /\
    (forall self x, fits self x ->
        LayerNormalization.forward self x = Ok (normalize self x)) /\
    (forall self v i,
        length v = length (LayerNormalization.alpha self) ->
        length v = length (LayerNormalization.beta self) ->
        i < length v ->
        exists out,
          LayerNormalization.forward_vec self v = Ok out /\
          nth i out zero
          = nth i (LayerNormalization.alpha self) zero *. (nth i v zero -. mean v)
            /. (std v +. LayerNormalization.eps self)
            +. nth i (LayerNormalization.beta self) zero) /\
    (0 < @LayerNormalization.default_eps RArith)%R.
Proof.
  intros A. split; [| split; [| split]].
  - intros d. eexists. split; [reflexivity |]. cbn. repeat split.
  - intros self x Hx. apply forward_formula, Hx.
  - intros self v i Ha Hb Hi. eexists. split.
    + apply forward_vec_formula; assumption.
    + unfold normalize_token.
      exact (nth_map_seq
               (fun j => nth j (LayerNormalization.alpha self) zero
                         *. (nth j v zero -. mean v)
                         /. (std v +. LayerNormalization.eps self)
                         +. nth j (LayerNormalization.beta self) zero)
               (length v) i zero Hi).
  - unfold LayerNormalization.default_eps. cbn. lra.
Qed.

(** ** The residual connection *)

Section Residual.
Context {A : Arith}.

Lemma with_rng_run {P X} (m : M rng X) (s : P * rng) :
  with_rng m s = (fst (m (snd s)), (fst s, snd (m (snd s)))).
Proof.
  unfold with_rng, zoom. destruct (m (snd s)) as [r g']. reflexivity.
Qed.

Lemma dropout_scalar_returns (d : Dropout) (x : scalar) :
  returns (dropout_scalar d x) (fun _ => True).
Proof.
  unfold dropout_scalar. eapply returns_bind; [apply rand_scalar_returns |].
  intros u _. apply returns_ret. exact I.
Qed.

(** Dropout never raises and keeps every extent of its input. *)
Lemma dropout3_returns (d : Dropout) (y : T3) :
  returns (dropout3 d y)
          (fun r => length r = length y).
Proof.
  unfold dropout3. destruct (training d).
  - eapply returns_weaken.
    + apply returns_mapM with (P := fun _ : Mat => True). intros m.
      eapply returns_weaken.
      * apply returns_mapM with (P := fun _ : Vec => True). intros v.
        eapply returns_weaken.
        -- apply returns_mapM with (P := fun _ : scalar => True).
           intros x. apply dropout_scalar_returns.
        -- intros; exact I.
      * intros; exact I.
    + cbn beta. intros r [Hr _]. exact Hr.
  - apply returns_ret. reflexivity.
Qed.

Lemma dropout3_eval (d : Dropout) (y : T3) (g : rng) :
  training d = false -> dropout3 d y g = (Ok y, g).
Proof. intros H. unfold dropout3. rewrite H. reflexivity. Qed.

Lemma zipR_map_r {X Y Z} (f : X -> Y -> result Z) (phi : X -> Y) (xs : list X) :
  zipR f xs (map phi xs) = mapR (fun a => f a (phi a)) xs.
Proof.
  induction xs as [| a xs IH]; cbn; [reflexivity |]. rewrite IH. reflexivity.
Qed.

(** Adding to [x] a tensor computed token by token from [x], each token
    keeping its extent, needs no broadcasting and cannot fail. *)
Lemma add3_tokenwise (phi : Vec -> Vec) (x : T3) :
  (forall v, length (phi v) = length v) ->
  add3 x (map (map phi) x) = Ok (map (map (fun v => map2 s_add v (phi v))) x).
Proof.
  intros Hphi. unfold add3.
  rewrite bzipR_same_length by (now rewrite length_map).
  rewrite zipR_map_r. apply mapR_ok_in. intros m _.
  rewrite bzipR_same_length by (now rewrite length_map).
  rewrite zipR_map_r. apply mapR_ok_in. intros v _.
  apply bzip_same_length. now rewrite Hphi.
Qed.

Lemma length_normalize_token (alpha beta : Vec) (eps : scalar) (v : Vec) :
  length (normalize_token alpha beta eps v) = length v.
Proof. unfold normalize_token. now rewrite length_map, length_seq. Qed.

End Residual.

(** C8. [ResidualConnection.forward(x, f)] is [x + dropout(f(norm(x)))] with
    the normalisation first: if [norm(x)] raises, [f] is not run; otherwise
    [f] is applied to the normalised input [n], and if it returns [y] the
    result is [x + d] where [d] is what dropout makes of [y] (dropout never
    raises).  With dropout disabled (evaluation mode) dropout is the
    identity, and with [f] the identity the result is [x + norm(x)]: on an
    input that fits the normalisation it is, token by token, [v] plus the
    normalised [v]. *)
Theorem ResidualConnection_wrap :
  forall (A : Arith) (P : Type) (self : ResidualConnection.t) (x : T3)
         (f : T3 -> M (P * rng) T3) (s : P * rng),
    (forall e,
        LayerNormalization.forward (ResidualConnection.norm self) x = Err e ->
        ResidualConnection.forward self x f s = (Err e, s)) /\
    (forall n,
        LayerNormalization.forward (ResidualConnection.norm self) x = Ok n ->
        (forall e s', f n s = (Err e, s') ->
                      ResidualConnection.forward self x f s = (Err e, s')) /\
        (forall y s', f n s = (Ok y, s') ->
                      exists d g',
                        dropout3 (ResidualConnection.dropout self) y (snd s') = (Ok d, g') /\
                        ResidualConnection.forward self x f s = (add3 x d, (fst s', g')))) /\
    (training (ResidualConnection.dropout self) = false ->
     ResidualConnection.forward self x (fun n => ret n) s
     = (rbind (LayerNormalization.forward (ResidualConnection.norm self) x)
              (fun n => add3 x n), s)) /\
    (training (ResidualConnection.dropout self) = false ->
     fits (ResidualConnection.norm self) x ->
     ResidualConnection.forward self x (fun n => ret n) s
     = (Ok (map (map (fun v =>
                        map2 s_add v
                          (normalize_token
                             (LayerNormalization.alpha (ResidualConnection.norm self))
                             (LayerNormalization.beta (ResidualConnection.norm self))
                             (LayerNormalization.eps (ResidualConnection.norm self)) v))) x),
        s)).
Proof.
  intros A P self x f s.
  assert (Hid : training (ResidualConnection.dropout self) = false ->
                ResidualConnection.forward self x (fun n => ret n) s
                = (rbind (LayerNormalization.forward (ResidualConnection.norm self) x)
                         (fun n => add3 x n), s)).
  { intros Ht. unfold ResidualConnection.forward, bind, lift, ret.
    destruct (LayerNormalization.forward (ResidualConnection.norm self) x) as [n | e];
      [| reflexivity].
    rewrite with_rng_run, dropout3_eval by exact Ht. cbn.
    destruct s as [p g]. reflexivity. }
  split; [| split; [| split]].
  - intros e He. unfold ResidualConnection.forward, bind, lift. rewrite He. reflexivity.
  - intros n Hn. split.
    + intros e s' Hf. unfold ResidualConnection.forward, bind, lift.
      rewrite Hn, Hf. reflexivity.
    + intros y s' Hf.
      destruct (dropout3_returns (ResidualConnection.dropout self) y (snd s'))
        as (d & g' & Hd & _).
      exists d, g'. split; [exact Hd |].
      unfold ResidualConnection.forward, bind, lift.
      rewrite Hn, Hf, with_rng_run, Hd. reflexivity.
  - exact Hid.
  - intros Ht Hx. rewrite Hid by exact Ht.
    rewrite forward_formula by exact Hx. cbn [rbind]. unfold normalize.
    rewrite add3_tokenwise by (intros v; apply length_normalize_token).
    reflexivity.
Qed.

(** ** What a forward pass leaves unchanged *)

Section Frame.
Context {A : Arith}.

Lemma bind_get_self {P X} (k : P -> M (P * rng) X) (s : P * rng) :
  bind get_self k s = k (fst s) s.
Proof. reflexivity. Qed.

(** Two continuations that agree on what [m] returns give the same run. *)
Lemma bind_ext_on {St X Y} (m : M St X) (k k' : X -> M St Y) (s : St) :
  (forall x s', m s = (Ok x, s') -> k x s' = k' x s') -> bind m k s = bind m k' s.
Proof.
  intros H. unfold bind. destruct (m s) as [[x | e] s']; [| reflexivity].
  apply H. reflexivity.
Qed.

Lemma preserves_lift {P X O} (obs : P -> O) (r : result X) : preserves obs (lift r).
Proof. intros s. reflexivity. Qed.

Lemma preserves_get_self {P O} (obs : P -> O) : preserves obs get_self.
Proof. intros s. reflexivity. Qed.

Lemma preserves_raise {P X O} (obs : P -> O) (e : exn) :
  preserves obs (@raise (P * rng) X e).
Proof. intros s. reflexivity. Qed.

Lemma preserves_with_rng {P X O} (obs : P -> O) (m : M rng X) :
  preserves obs (with_rng m).
Proof. intros s. rewrite with_rng_run. reflexivity. Qed.

Lemma preserves_bind {P X Y O} (obs : P -> O) (m : M (P * rng) X)
      (k : X -> M (P * rng) Y) :
  preserves obs m -> (forall x, preserves obs (k x)) -> preserves obs (bind m k).
Proof.
  intros Hm Hk s. unfold bind. specialize (Hm s).
  destruct (m s) as [[x | e] s']; cbn [fst snd] in Hm |- * .
  - rewrite Hk. exact Hm.
  - exact Hm.
Qed.

Lemma preserves_zoom_self {P C X O O'} (obs : P -> O) (obs' : C -> O')
      (get : P -> C) (set : C -> P -> P) (m : M (C * rng) X) :
  preserves obs' m ->
  (forall c p, obs' c = obs' (get p) -> obs (set c p) = obs p) ->
  preserves obs (zoom_self get set m).
Proof.
  intros Hm Hset s. unfold zoom_self, zoom.
  specialize (Hm (get (fst s), snd s)).
  destruct (m (get (fst s), snd s)) as [r c]. cbn [fst snd] in Hm |- * .
  apply Hset, Hm.
Qed.

Lemma preserves_residual {P O} (obs : P -> O) (rc : ResidualConnection.t) (x : T3)
      (f : T3 -> M (P * rng) T3) :
  (forall n, preserves obs (f n)) -> preserves obs (ResidualConnection.forward rc x f).
Proof.
  intros Hf. unfold ResidualConnection.forward.
  apply preserves_bind; [apply preserves_lift |]. intros n.
  apply preserves_bind; [apply Hf |]. intros y.
  apply preserves_bind; [apply preserves_with_rng |]. intros d.
  apply preserves_lift.
Qed.

(** The one assignment to [self] in the file, [self.attention_scores = ...],
    touches nothing else of the block. *)
Lemma MultiHeadAttention_forward_config (q k v : T3) mask :
  preserves MultiHeadAttention_config (MultiHeadAttention.forward q k v mask).
Proof.
  unfold MultiHeadAttention.forward. intros [m g].
  unfold bind at 1. cbn [get_self fst snd].
  repeat (match goal with
          | |- context [bind (lift ?r) _] =>
              unfold bind at 1; unfold lift at 1; destruct r; [| reflexivity]
          end).
  unfold bind at 1. rewrite with_rng_run. cbn [fst snd].
  destruct (fst (MultiHeadAttention.attention _ _ _ mask _ g)) as [r | e];
    [| reflexivity].
  unfold bind at 1. cbn [set_self fst snd].
  repeat (match goal with
          | |- context [bind (lift ?r) _] =>
              unfold bind at 1; unfold lift at 1; destruct r; [| reflexivity]
          end).
  reflexivity.
Qed.

Lemma MultiHeadAttention_forward_parameters (q k v : T3) mask :
  preserves MultiHeadAttention.parameters (MultiHeadAttention.forward q k v mask).
Proof.
  intros s. pose proof (MultiHeadAttention_forward_config q k v mask s) as H.
  unfold MultiHeadAttention_config in H. unfold MultiHeadAttention.parameters.
  congruence.
Qed.

Lemma EncoderLayer_forward_parameters (x : T3) mask :
  preserves EncoderLayer.parameters (EncoderLayer.forward x mask).
Proof.
  unfold EncoderLayer.forward.
  apply preserves_bind; [apply preserves_get_self |]. intros self.
  apply preserves_bind.
  - apply preserves_residual. intros n.
    apply preserves_zoom_self with (obs' := MultiHeadAttention.parameters).
    + apply MultiHeadAttention_forward_parameters.
    + intros c p Hc.
      unfold EncoderLayer.parameters, EncoderLayer.set_multi_head_attention.
      cbn [EncoderLayer.multi_head_attention EncoderLayer.feed_forward
           EncoderLayer.residual_connection EncoderLayer.residual_connection_ff].
      now rewrite Hc.
  - intros y. apply preserves_bind; [apply preserves_get_self |]. intros self'.
    apply preserves_residual. intros n. apply preserves_with_rng.
Qed.

Lemma DecoderLayer_self_attention_config (q k v : T3) mask :
  preserves DecoderLayer_config
    (zoom_self DecoderLayer.self_attention_block DecoderLayer.set_self_attention_block
       (MultiHeadAttention.forward q k v mask)).
Proof.
  apply preserves_zoom_self with (obs' := MultiHeadAttention_config).
  - apply MultiHeadAttention_forward_config.
  - intros c p Hc. unfold DecoderLayer_config. cbn. now rewrite Hc.
Qed.

Lemma DecoderLayer_cross_attention_config (q k v : T3) mask :
  preserves DecoderLayer_config
    (zoom_self DecoderLayer.cross_attention_block DecoderLayer.set_cross_attention_block
       (MultiHeadAttention.forward q k v mask)).
Proof.
  apply preserves_zoom_self with (obs' := MultiHeadAttention_config).
  - apply MultiHeadAttention_forward_config.
  - intros c p Hc. unfold DecoderLayer_config. cbn. now rewrite Hc.
Qed.

Lemma DecoderLayer_forward_config (x enc_output : T3) src_mask tgt_mask :
  preserves DecoderLayer_config (DecoderLayer.forward x enc_output src_mask tgt_mask).
Proof.
  unfold DecoderLayer.forward.
  apply preserves_bind; [apply preserves_get_self |]. intros self.
  apply preserves_bind.
  { apply preserves_residual. intros n. apply DecoderLayer_self_attention_config. }
  intros x1. apply preserves_bind; [apply preserves_get_self |]. intros self1.
  apply preserves_bind.
  { apply preserves_residual. intros n. apply DecoderLayer_cross_attention_config. }
  intros x2. apply preserves_bind; [apply preserves_get_self |]. intros self2.
  apply preserves_residual. intros n. apply preserves_with_rng.
Qed.

Lemma DecoderLayer_config_parameters (l l' : DecoderLayer.t) :
  DecoderLayer_config l' = DecoderLayer_config l ->
  DecoderLayer.parameters l' = DecoderLayer.parameters l.
Proof.
  unfold DecoderLayer_config, MultiHeadAttention_config, DecoderLayer.parameters,
    MultiHeadAttention.parameters.
  intros H. congruence.
Qed.

Lemma DecoderLayer_forward_parameters (x enc_output : T3) src_mask tgt_mask :
  preserves DecoderLayer.parameters
            (DecoderLayer.forward x enc_output src_mask tgt_mask).
Proof.
  intros s. apply DecoderLayer_config_parameters, DecoderLayer_forward_config.
Qed.

(** A loop over layers that each keep their parameters keeps those of all. *)
Lemma for_layers_parameters {C X} (par : C -> list param) (call : X -> M (C * rng) X) :
  (forall x, preserves par (call x)) ->
  forall layers x g,
    flat_map par (fst (snd (for_layers call layers x g))) = flat_map par layers.
Proof.
  intros Hcall. induction layers as [| c cs IH]; intros x g; [reflexivity |].
  cbn [for_layers]. specialize (Hcall x (c, g)).
  destruct (call x (c, g)) as [[y | e] [c' g']]; cbn [fst snd] in Hcall.
  - specialize (IH y g').
    destruct (for_layers call cs y g') as [r [cs' g'']]. cbn [fst snd] in IH |- * .
    cbn [flat_map]. now rewrite Hcall, IH.
  - cbn [fst snd flat_map]. now rewrite Hcall.
Qed.

Lemma Decoder_forward_parameters (x enc_output : T3) src_mask tgt_mask :
  preserves Decoder.parameters (Decoder.forward x enc_output src_mask tgt_mask).
Proof.
  intros [self g]. rewrite Decoder_forward_sequential.
  pose proof (for_layers_parameters DecoderLayer.parameters
                (fun x => DecoderLayer.forward x enc_output src_mask tgt_mask)
                (fun x => DecoderLayer_forward_parameters x enc_output src_mask tgt_mask)
                (Decoder.layers self) x g) as H.
  destruct (for_layers _ (Decoder.layers self) x g) as [[y | e] [ls g']];
    cbn [fst snd] in H |- * ; unfold Decoder.parameters, Decoder.set_layers;
    cbn [Decoder.layers Decoder.norm]; now rewrite H.
Qed.

Lemma Encoder_forward_parameters (x : T3) mask :
  preserves Encoder.parameters (Encoder.forward x mask).
Proof.
  unfold Encoder.forward.
  apply preserves_bind; [apply preserves_get_self |]. intros self.
  apply preserves_bind; [apply preserves_lift |]. intros [ls | n].
  - apply preserves_bind.
    + apply preserves_zoom_self with (obs' := flat_map EncoderLayer.parameters).
      * intros s. unfold forM_layers.
        apply for_layers_parameters. intros y. apply EncoderLayer_forward_parameters.
      * intros c p Hc. unfold Encoder.parameters, Encoder.set_layers.
        cbn [Encoder.layers Encoder.norm]. now rewrite Hc.
    + intros y. apply preserves_bind; [apply preserves_get_self |]. intros self'.
      apply preserves_lift.
  - apply preserves_raise.
Qed.

End Frame.

(** ** The decoder layer *)

(** C4. [DecoderLayer.forward] is three residual wraps in sequence, all
    through the residual connection [rc] of the layer: first the
    self-attention applied to (n, n, n) under the target mask, where [n] is
    the normalised decoder state; then the cross-attention whose query is
    the normalised decoder state and whose key and value are both the
    encoder output, under the source mask; then the feed-forward block.
    Each stage consumes the output of the stage before, and the layer's
    residual connection and feed-forward block are the same throughout. *)
Theorem DecoderLayer_forward_composition :
  forall (A : Arith) (self : DecoderLayer.t) (x enc_output : T3)
         (src_mask tgt_mask : option MultiHeadAttention.mask_t) (g : rng),
    DecoderLayer.forward x enc_output src_mask tgt_mask (self, g) =
    (x1 <- ResidualConnection.forward (DecoderLayer.residual_connections self) x
             (fun n => zoom_self DecoderLayer.self_attention_block
                         DecoderLayer.set_self_attention_block
                         (MultiHeadAttention.forward n n n tgt_mask)) ;;
     x2 <- ResidualConnection.forward (DecoderLayer.residual_connections self) x1
             (fun n => zoom_self DecoderLayer.cross_attention_block
                         DecoderLayer.set_cross_attention_block
                         (MultiHeadAttention.forward n enc_output enc_output src_mask)) ;;
     ResidualConnection.forward (DecoderLayer.residual_connections self) x2
       (fun n => with_rng (FeedForward.forward (DecoderLayer.feed_forward_block self) n)))
      (self, g).
Proof.
  intros A self x enc_output src_mask tgt_mask g.
  unfold DecoderLayer.forward. rewrite bind_get_self. cbn [fst].
  apply bind_ext_on. intros x1 [self1 g1] E1.
  pose proof (preserves_residual DecoderLayer_config
                (DecoderLayer.residual_connections self) x _
                (fun n => DecoderLayer_self_attention_config n n n tgt_mask)
                (self, g)) as H1.
  rewrite E1 in H1. cbn [fst snd] in H1.
  assert (Hrc1 : DecoderLayer.residual_connections self1
                 = DecoderLayer.residual_connections self)
    by (unfold DecoderLayer_config in H1; congruence).
  rewrite bind_get_self. cbn [fst]. rewrite Hrc1.
  apply bind_ext_on. intros x2 [self2 g2] E2.
  pose proof (preserves_residual DecoderLayer_config
                (DecoderLayer.residual_connections self) x1 _
                (fun n => DecoderLayer_cross_attention_config n enc_output enc_output src_mask)
                (self1, g1)) as H2.
  rewrite E2 in H2. cbn [fst snd] in H2.
  assert (Hrc2 : DecoderLayer.residual_connections self2
                 = DecoderLayer.residual_connections self)
    by (unfold DecoderLayer_config in H1, H2; congruence).
  assert (Hff2 : DecoderLayer.feed_forward_block self2
                 = DecoderLayer.feed_forward_block self)
    by (unfold DecoderLayer_config in H1, H2; congruence).
  rewrite bind_get_self. cbn [fst]. rewrite Hrc2, Hff2. reflexivity.
Qed.

(** ** Parameters are read, never written *)

Section TransformerFrame.
Context {A : Arith}.

Lemma Transformer_encode_parameters src src_mask :
  preserves Transformer.parameters (Transformer.encode src src_mask).
Proof.
  unfold Transformer.encode.
  apply preserves_bind; [apply preserves_get_self |]. intros self.
  apply preserves_bind; [apply preserves_lift |]. intros e.
  apply preserves_bind; [apply preserves_with_rng |]. intros y.
  apply preserves_zoom_self with (obs' := Encoder.parameters).
  - apply Encoder_forward_parameters.
  - intros c p Hc. unfold Transformer.parameters, Transformer.set_encoder.
    cbn [Transformer.encoder Transformer.decoder Transformer.src_embed
         Transformer.tgt_embed Transformer.src_pos Transformer.tgt_pos
         Transformer.projection_layer].
    now rewrite Hc.
Qed.

Lemma Transformer_decode_parameters encoder_output src_mask tgt tgt_mask :
  preserves Transformer.parameters
            (Transformer.decode encoder_output src_mask tgt tgt_mask).
Proof.
  unfold Transformer.decode.
  apply preserves_bind; [apply preserves_get_self |]. intros self.
  apply preserves_bind; [apply preserves_lift |]. intros e.
  apply preserves_bind; [apply preserves_with_rng |]. intros y.
  apply preserves_zoom_self with (obs' := Decoder.parameters).
  - apply Decoder_forward_parameters.
  - intros c p Hc. unfold Transformer.parameters, Transformer.set_decoder.
    cbn [Transformer.encoder Transformer.decoder Transformer.src_embed
         Transformer.tgt_embed Transformer.src_pos Transformer.tgt_pos
         Transformer.projection_layer].
    now rewrite Hc.
Qed.

Lemma Transformer_project_parameters x :
  preserves Transformer.parameters (Transformer.project x).
Proof.
  unfold Transformer.project.
  apply preserves_bind; [apply preserves_get_self |]. intros self.
  apply preserves_lift.
Qed.

End TransformerFrame.

(** C10. No forward computation writes a parameter.  Whether they return or
    raise, [encode], [decode] and [project] leave [Transformer.parameters]
    (every weight, bias, embedding table and norm scale and shift) as they
    found it, and so do the forward passes they are built from: the encoder
    and decoder stacks, their layers, and the attention block, whose only
    assignment to [self] stores the attention scores, which are not a
    parameter.  The other forward passes (embedding, positional encoding,
    normalisation, feed-forward, residual connection, projection) assign
    nothing at all: they are functions of [self]. *)
Theorem forward_preserves_parameters :
  forall (A : Arith),
    (forall src src_mask,
        preserves Transformer.parameters (Transformer.encode src src_mask)) /\
    (forall encoder_output src_mask tgt tgt_mask,
        preserves Transformer.parameters
                  (Transformer.decode encoder_output src_mask tgt tgt_mask)) /\
    (forall x, preserves Transformer.parameters (Transformer.project x)) /\
    (forall x mask, preserves Encoder.parameters (Encoder.forward x mask)) /\
    (forall x enc_output src_mask tgt_mask,
        preserves Decoder.parameters
                  (Decoder.forward x enc_output src_mask tgt_mask)) /\
    (forall x mask, preserves EncoderLayer.parameters (EncoderLayer.forward x mask)) /\
    (forall x enc_output src_mask tgt_mask,
        preserves DecoderLayer.parameters
                  (DecoderLayer.forward x enc_output src_mask tgt_mask)) /\
    (forall q k v mask,
        preserves MultiHeadAttention.parameters (MultiHeadAttention.forward q k v mask)).
Proof.
  intros A.
  split; [intros; apply Transformer_encode_parameters |].
  split; [intros; apply Transformer_decode_parameters |].
  split; [intros; apply Transformer_project_parameters |].
  split; [intros; apply Encoder_forward_parameters |].
  split; [intros; apply Decoder_forward_parameters |].
  split; [intros; apply EncoderLayer_forward_parameters |].
  split; [intros; apply DecoderLayer_forward_parameters |].
  intros; apply MultiHeadAttention_forward_parameters.
Qed.

(** ** The positional table *)

Section PositionalTable.
Context {A : Arith}.

Lemma nth_error_imap_from {X Y} (f : nat -> X -> Y) (l : list X) (k c : nat) :
  nth_error (imap_from k f l) c = option_map (f (k + c)) (nth_error l c).
Proof.
  revert k c. induction l as [| a l IH]; intros k c.
  - destruct c; reflexivity.
  - destruct c as [| c]; cbn.
    + now rewrite Nat.add_0_r.
    + rewrite IH. now rewrite Nat.add_succ_r.
Qed.

Lemma nth_error_imap {X Y} (f : nat -> X -> Y) (l : list X) (c : nat) :
  nth_error (imap f l) c = option_map (f c) (nth_error l c).
Proof. unfold imap. now rewrite nth_error_imap_from. Qed.

Lemma length_imap_from {X Y} (f : nat -> X -> Y) (l : list X) (k : nat) :
  length (imap_from k f l) = length l.
Proof. revert k. induction l as [| a l IH]; intros k; cbn; [| rewrite IH]; reflexivity. Qed.

Lemma length_assign_row (start : nat) (row vals : Vec) :
  length (PositionalEncoding.assign_row start row vals) = length row.
Proof. apply length_imap_from. Qed.

Lemma nth_error_assign_row (start : nat) (row vals : Vec) (c : nat) (old : scalar) :
  nth_error row c = Some old ->
  nth_error (PositionalEncoding.assign_row start row vals) c =
  Some (if (start <=? c) && Nat.even (c - start)
        then nth ((c - start) / 2) vals old else old).
Proof.
  intros H. unfold PositionalEncoding.assign_row.
  rewrite nth_error_imap, H. reflexivity.
Qed.

Lemma length_arange2 (n : nat) : length (PositionalEncoding.arange2 n) = (n + 1) / 2.
Proof. unfold PositionalEncoding.arange2. now rewrite length_map, length_seq. Qed.

Lemma length_div_term (d : nat) : length (PositionalEncoding.div_term d) = (d + 1) / 2.
Proof. unfold PositionalEncoding.div_term. now rewrite length_map, length_arange2. Qed.

Lemma nth_angles (d_model seq_len pos i : nat) :
  pos < seq_len -> 2 * i < d_model ->
  nth i (nth pos (angles d_model seq_len) []) zero = angle d_model pos i.
Proof.
  intros Hpos Hi. unfold angles. rewrite map_map.
  rewrite nth_map_seq by exact Hpos.
  unfold PositionalEncoding.div_term, PositionalEncoding.arange2.
  rewrite !map_map.
  assert (Hi' : i < (d_model + 1) / 2) by (pose proof (half_spec (d_model + 1)); lia).
  rewrite nth_map_seq by exact Hi'. reflexivity.
Qed.

Lemma length_angles (d_model seq_len : nat) : length (angles d_model seq_len) = seq_len.
Proof. unfold angles. now rewrite !length_map, length_seq. Qed.

Lemma length_nth_angles (d_model seq_len pos : nat) :
  pos < seq_len -> length (nth pos (angles d_model seq_len) []) = (d_model + 1) / 2.
Proof.
  intros Hpos. unfold angles. rewrite map_map.
  rewrite nth_map_seq by exact Hpos. now rewrite length_map, length_div_term.
Qed.

Lemma nth_table_of (d_model seq_len pos : nat) (cos_vals : Vec -> Vec) :
  pos < seq_len ->
  nth pos (table_of d_model seq_len cos_vals) [] =
  PositionalEncoding.assign_row 1
    (PositionalEncoding.assign_row 0 (repeat zero d_model)
       (map s_sin (nth pos (angles d_model seq_len) [])))
    (cos_vals (map s_cos (nth pos (angles d_model seq_len) []))).
Proof.
  intros Hpos. unfold table_of.
  assert (L0 : length (repeat (repeat zero d_model) seq_len) = seq_len)
    by apply repeat_length.
  assert (L1 : length (map (map s_sin) (angles d_model seq_len)) = seq_len)
    by (now rewrite length_map, length_angles).
  assert (L2 : length (map (map s_cos) (angles d_model seq_len)) = seq_len)
    by (now rewrite length_map, length_angles).
  assert (L3 : length (map2 (PositionalEncoding.assign_row 0)
                            (repeat (repeat zero d_model) seq_len)
                            (map (map s_sin) (angles d_model seq_len))) = seq_len).
  { rewrite length_map2; [exact L0 | now transitivity seq_len]. }
  rewrite nth_map2 with (dx := []) (dy := []);
    [| now transitivity seq_len | now rewrite L3].
  rewrite nth_map2 with (dx := []) (dy := []);
    [| now transitivity seq_len | exact (eq_ind_r (fun n => pos < n) Hpos L0)].
  rewrite nth_repeat_lt by exact Hpos.
  rewrite !nth_map_rows. reflexivity.
Qed.

Lemma length_table_of (d_model seq_len : nat) (cos_vals : Vec -> Vec) :
  length (table_of d_model seq_len cos_vals) = seq_len /\
  Forall (fun row => length row = d_model) (table_of d_model seq_len cos_vals).
Proof.
  assert (L0 : length (repeat (repeat zero d_model) seq_len) = seq_len)
    by apply repeat_length.
  assert (L1 : length (map (map s_sin) (angles d_model seq_len)) = seq_len)
    by (now rewrite length_map, length_angles).
  assert (L2 : length (map (map s_cos) (angles d_model seq_len)) = seq_len)
    by (now rewrite length_map, length_angles).
  assert (L3 : length (map2 (PositionalEncoding.assign_row 0)
                            (repeat (repeat zero d_model) seq_len)
                            (map (map s_sin) (angles d_model seq_len))) = seq_len).
  { rewrite length_map2; [exact L0 | now transitivity seq_len]. }
  unfold table_of. split.
  - rewrite length_map2; [exact L3 | now transitivity seq_len].
  - apply Forall_map2. intros row v Hin. rewrite length_assign_row.
    apply in_combine_l in Hin.
    assert (Hall : Forall (fun r => length r = d_model)
                          (map2 (PositionalEncoding.assign_row 0)
                                (repeat (repeat zero d_model) seq_len)
                                (map (map s_sin) (angles d_model seq_len)))).
    { apply Forall_map2. intros r w Hrw. rewrite length_assign_row.
      apply in_combine_l, repeat_spec in Hrw. subst r. apply repeat_length. }
    rewrite Forall_forall in Hall. apply Hall, Hin.
Qed.

(** The entries of a row: sines at the even columns, cosines at the odd. *)
Lemma table_row_entries (d_model seq_len pos i : nat) (cos_vals : Vec -> Vec) :
  pos < seq_len -> 2 * i < d_model ->
  (2 * i + 1 < d_model -> forall v, cos_vals v = v) ->
  let row := nth pos (table_of d_model seq_len cos_vals) [] in
  nth_error row (2 * i) = Some (s_sin (angle d_model pos i)) /\
  (2 * i + 1 < d_model ->
   nth_error row (2 * i + 1) = Some (s_cos (angle d_model pos i))).
Proof.
  intros Hpos Hi Hcos row. subst row. rewrite nth_table_of by exact Hpos.
  set (a := nth pos (angles d_model seq_len) []).
  assert (La : length a = (d_model + 1) / 2) by (apply length_nth_angles, Hpos).
  assert (Hi' : i < (d_model + 1) / 2) by (pose proof (half_spec (d_model + 1)); lia).
  assert (Hz : forall c, c < d_model -> nth_error (repeat zero d_model) c = Some zero).
  { intros c Hc. rewrite nth_error_repeat by exact Hc. reflexivity. }
  assert (Hsin : nth i (map s_sin a) zero = s_sin (angle d_model pos i)).
  { rewrite nth_indep with (d' := s_sin zero) by (rewrite length_map; lia).
    rewrite map_nth. unfold a. now rewrite nth_angles. }
  assert (Hcosv : nth i (map s_cos a) zero = s_cos (angle d_model pos i)).
  { rewrite nth_indep with (d' := s_cos zero) by (rewrite length_map; lia).
    rewrite map_nth. unfold a. now rewrite nth_angles. }
  split.
  - erewrite nth_error_assign_row;
      [| erewrite nth_error_assign_row; [reflexivity | apply Hz; exact Hi]].
    replace ((1 <=? 2 * i) && Nat.even (2 * i - 1)) with false.
    + cbn [Nat.leb andb]. rewrite Nat.sub_0_r.
      replace (Nat.even (2 * i)) with true
        by (symmetry; apply Nat.even_spec; exists i; lia).
      rewrite half_double.
      f_equal. exact Hsin.
    + symmetry. destruct i as [| i]; [reflexivity |].
      apply andb_false_intro2.
      rewrite <- Nat.negb_odd. apply negb_false_iff, Nat.odd_spec.
      exists i. lia.
  - intros Hi1.
    erewrite nth_error_assign_row;
      [| erewrite nth_error_assign_row; [reflexivity | apply Hz; exact Hi1]].
    replace (1 <=? 2 * i + 1) with true by (symmetry; apply Nat.leb_le; lia).
    replace (2 * i + 1 - 1) with (2 * i) by lia.
    replace (Nat.even (2 * i)) with true
      by (symmetry; apply Nat.even_spec; exists i; lia).
    cbn [andb].
    rewrite half_double.
    rewrite Hcos by exact Hi1.
    f_equal.
    rewrite nth_indep with (d' := zero) by (rewrite length_map; lia).
    exact Hcosv.
Qed.

(** What [__init__] returns, when it returns: the table of sines and cosines. *)
Lemma PositionalEncoding_init_table (d_model seq_len : nat) (dropout : pyval)
      (self : PositionalEncoding.t) :
  PositionalEncoding.__init__ d_model seq_len dropout = Ok self ->
  exists cos_vals,
    PositionalEncoding.pe self = [table_of d_model seq_len cos_vals] /\
    (forall i, 2 * i + 1 < d_model -> forall v, cos_vals v = v).
Proof.
  unfold PositionalEncoding.__init__.
  destruct (Nat.eqb_spec d_model 0) as [-> | Hd]; [discriminate |].
  assert (S0 : PositionalEncoding.slots 0 d_model = (d_model + 1) / 2)
    by (unfold PositionalEncoding.slots; now rewrite Nat.sub_0_r).
  unfold PositionalEncoding.assign_cols.
  rewrite length_div_term, S0, Nat.eqb_refl. cbn [rbind].
  destruct (Nat.eqb_spec ((d_model + 1) / 2) (PositionalEncoding.slots 1 d_model))
    as [E | NE].
  - cbn [rbind]. intros H. injection H as <-.
    exists (fun v => v). split; [reflexivity | reflexivity].
  - destruct (Nat.eqb_spec ((d_model + 1) / 2) 1) as [E1 | NE1]; [| discriminate].
    cbn [rbind]. intros H. injection H as <-.
    exists (fun v => repeat (hd zero v) (PositionalEncoding.slots 1 d_model)).
    split; [reflexivity |].
    intros i Hi. exfalso. apply NE. unfold PositionalEncoding.slots.
    assert (d_model = 2 \/ d_model >= 3) as [-> | H3] by lia; [reflexivity |].
    pose proof (half_spec (d_model + 1)). pose proof (half_spec (d_model - 1 + 1)). lia.
Qed.

(** Construction succeeds for every even width other than 0. *)
Lemma PositionalEncoding_init_even (k seq_len : nat) (dropout : pyval) :
  k <> 0 -> is_ok (PositionalEncoding.__init__ (2 * k) seq_len dropout) = true.
Proof.
  intros Hk. unfold PositionalEncoding.__init__.
  destruct (Nat.eqb_spec (2 * k) 0) as [E | _]; [lia |].
  unfold PositionalEncoding.assign_cols. rewrite length_div_term.
  unfold PositionalEncoding.slots.
  replace (2 * k - 0 + 1) with (2 * k + 1) by lia.
  replace (2 * k - 1 + 1) with (2 * k) by lia.
  rewrite half_double_succ, half_double.
  rewrite Nat.eqb_refl. reflexivity.
Qed.

(** An odd width from 3 on makes the cosine assignment fail. *)
Lemma PositionalEncoding_init_odd (k seq_len : nat) (dropout : pyval) :
  k <> 0 -> PositionalEncoding.__init__ (2 * k + 1) seq_len dropout = Err RuntimeError.
Proof.
  intros Hk. unfold PositionalEncoding.__init__.
  destruct (Nat.eqb_spec (2 * k + 1) 0) as [E | _]; [lia |].
  unfold PositionalEncoding.assign_cols. rewrite length_div_term.
  unfold PositionalEncoding.slots.
  replace (2 * k + 1 - 0 + 1) with (2 * (k + 1)) by lia.
  replace (2 * k + 1 + 1) with (2 * (k + 1)) by lia.
  replace (2 * k + 1 - 1 + 1) with (2 * k + 1) by lia.
  rewrite half_double_succ, half_double.
  rewrite Nat.eqb_refl. cbn [rbind].
  destruct (Nat.eqb_spec (k + 1) k) as [E | _]; [lia |].
  destruct (Nat.eqb_spec (k + 1) 1) as [E | _]; [lia |].
  reflexivity.
Qed.

End PositionalTable.

(** Apart from the table: in exact arithmetic, over the reals, the angle
    that the code computes is [pos / 10000^(2i/d_model)].  This is a law of
    the real numbers; floating point keeps it only up to rounding. *)
Lemma angle_closed_form (d_model pos i : nat) :
  d_model <> 0 ->
  @angle RArith d_model pos i
  = (INR pos / Rpower 10000 (INR (2 * i) / INR d_model))%R /\
  @angle RArith d_model pos i
  = (INR pos * exp (- INR (2 * i) * ln 10000 / INR d_model))%R.
Proof.
  intros Hd. unfold angle, s_of_nat. cbn [RArith s_mul s_exp s_neg s_log s_div s_of_Z].
  rewrite <- !INR_IZR_INZ.
  assert (Hd' : INR d_model <> 0%R) by (apply not_0_INR; exact Hd).
  assert (E : (INR (2 * i) * (- ln 10000 / INR d_model))%R
              = (- (INR (2 * i) / INR d_model * ln 10000))%R)
    by (field; exact Hd').
  split.
  - unfold Rpower, Rdiv at 2. rewrite <- exp_Ropp. f_equal. f_equal.
    rewrite E. unfold Rdiv. reflexivity.
  - f_equal. f_equal. field. exact Hd'.
Qed.

(** C5. Whenever [PositionalEncoding.__init__] returns, in whatever
    arithmetic the runtime computes, its buffer [pe] holds one table of
    [seq_len] rows of [d_model] entries with, for every position
    [pos < seq_len] and every even column [2i < d_model],
    [table[pos][2i] = sin(theta)] and, at the odd column next to it (when
    [2i+1 < d_model]), [table[pos][2i+1] = cos(theta)], where [theta] is the
    angle as the code computes it: [pos * exp(2i * (-log(10000) / d_model))].
    The table is a buffer, not a parameter: the module has no parameters. *)
Theorem positional_table_entries :
  forall (A : Arith) (d_model seq_len : nat) (dropout : pyval)
         (self : PositionalEncoding.t),
    PositionalEncoding.__init__ d_model seq_len dropout = Ok self ->
    exists table : Mat,
      PositionalEncoding.pe self = [table] /\
      PositionalEncoding.buffers self = [[table]] /\
      PositionalEncoding.parameters self = [] /\
      length table = seq_len /\
      Forall (fun row => length row = d_model) table /\
      forall pos i, pos < seq_len -> 2 * i < d_model ->
        let theta :=
          s_of_nat pos
          *. s_exp (s_of_nat (2 * i)
                    *. (s_neg (s_log (s_of_Z 10000)) /. s_of_nat d_model)) in
        nth_error (nth pos table []) (2 * i) = Some (s_sin theta) /\
        (2 * i + 1 < d_model ->
         nth_error (nth pos table []) (2 * i + 1) = Some (s_cos theta)).
Proof.
  intros A d_model seq_len dropout self Hinit.
  destruct (PositionalEncoding_init_table d_model seq_len dropout self Hinit)
    as (cos_vals & Hpe & Hcos).
  exists (table_of d_model seq_len cos_vals).
  destruct (length_table_of d_model seq_len cos_vals) as [Hlen Hrows].
  split; [exact Hpe |].
  split; [unfold PositionalEncoding.buffers; now rewrite Hpe |].
  split; [reflexivity |].
  split; [exact Hlen |].
  split; [exact Hrows |].
  intros pos i Hpos Hi theta.
  destruct (table_row_entries d_model seq_len pos i cos_vals Hpos Hi
              (fun H => Hcos i H)) as [Hsin Hcs].
  subst theta. split; [exact Hsin | exact Hcs].
Qed.

Lemma positional_table_entries_witness :
  exists self table,
    @PositionalEncoding.__init__ RArith 2 2 (PyFloat 0%R) = Ok self /\
    PositionalEncoding.pe self = [table] /\
    nth_error (nth 1 table []) 1
    = Some (cos (1 * exp (0 * (- ln 10000 / 2))))%R.
Proof.
  destruct (positional_table_entries RArith 2 2 (@PyFloat RArith 0%R) _ eq_refl)
    as (table & Hpe & _ & _ & _ & _ & Hentries).
  eexists _, table. split; [reflexivity |]. split; [exact Hpe |].
  destruct (Hentries 1 0 ltac:(lia) ltac:(lia)) as (_ & Hcos).
  apply Hcos. lia.
Defined.

(** ** Views and transpositions of row-major data *)

Section Views.

Lemma map_nth_seq_id {X} (l : list X) (d : X) :
  map (fun i => nth i l d) (seq 0 (length l)) = l.
Proof.
  apply nth_ext with (d := d) (d' := d).
  - now rewrite length_map, length_seq.
  - intros i Hi. rewrite length_map, length_seq in Hi.
    now rewrite (nth_map_seq (fun i => nth i l d)).
Qed.

Lemma view_rows_nil {X} (n : nat) : @view_rows X n [] = [].
Proof. unfold view_rows. cbn. destruct n; reflexivity. Qed.

(** A buffer that starts with a full row. *)
Lemma view_rows_cons {X} (n : nat) (a l : list X) :
  n <> 0 -> length a = n -> view_rows n (a ++ l) = a :: view_rows n l.
Proof.
  intros Hn Ha. unfold view_rows.
  rewrite length_app, Ha.
  replace (n + length l) with (1 * n + length l) by lia.
  rewrite Nat.div_add_l by exact Hn.
  cbn [Nat.add seq map]. f_equal.
  - cbn [Nat.mul skipn]. rewrite firstn_app, Ha, Nat.sub_diag. cbn [firstn].
    rewrite app_nil_r. rewrite <- Ha. apply firstn_all.
  - rewrite <- seq_shift, map_map. apply map_ext. intros j.
    rewrite skipn_app, Ha.
    replace (S j * n - n) with (j * n) by (cbn; lia).
    rewrite skipn_all2 by (rewrite Ha; cbn; lia). reflexivity.
Qed.

(** A buffer made of full rows is the list of these rows. *)
Lemma view_rows_concat {X} (n : nat) (rows : list (list X)) :
  n <> 0 -> Forall (fun r => length r = n) rows -> view_rows n (concat rows) = rows.
Proof.
  intros Hn H. induction H as [| r rows Hr _ IH]; cbn [concat].
  - apply view_rows_nil.
  - rewrite view_rows_cons by assumption. now rewrite IH.
Qed.

(** The rows of a buffer whose extent is a multiple of the row width. *)
Lemma view_rows_spec {X} (n k : nat) (l : list X) :
  n <> 0 -> length l = k * n ->
  concat (view_rows n l) = l /\ length (view_rows n l) = k /\
  Forall (fun r => length r = n) (view_rows n l).
Proof.
  intros Hn. revert l. induction k as [| k IH]; intros l Hl.
  - destruct l; [| discriminate]. rewrite view_rows_nil. repeat split. constructor.
  - rewrite <- (firstn_skipn n l).
    assert (Hf : length (firstn n l) = n) by (rewrite length_firstn; cbn in Hl; lia).
    assert (Hs : length (skipn n l) = k * n) by (rewrite length_skipn; cbn in Hl; lia).
    rewrite view_rows_cons by assumption.
    destruct (IH _ Hs) as (Hc & Hlen & Hall).
    cbn [concat length]. rewrite Hc, Hlen. repeat split.
    constructor; assumption.
Qed.

Lemma view_rows_app {X} (n k : nat) (a l : list X) :
  n <> 0 -> length a = k * n -> view_rows n (a ++ l) = view_rows n a ++ view_rows n l.
Proof.
  intros Hn. revert a. induction k as [| k IH]; intros a Ha.
  - destruct a; [| discriminate]. now rewrite view_rows_nil.
  - rewrite <- (firstn_skipn n a).
    assert (Hf : length (firstn n a) = n) by (rewrite length_firstn; cbn in Ha; lia).
    assert (Hs : length (skipn n a) = k * n) by (rewrite length_skipn; cbn in Ha; lia).
    rewrite <- app_assoc.
    rewrite (view_rows_cons n (firstn n a) (skipn n a ++ l)) by assumption.
    rewrite (view_rows_cons n (firstn n a) (skipn n a)) by assumption.
    rewrite IH by exact Hs. reflexivity.
Qed.

(** [view(-1, h, d_k)] of a buffer of tokens of width [h * d_k] cuts every
    token into its [h] slices. *)
Lemma view_tokens {X} (h d_k : nat) (tokens : list (list X)) :
  h <> 0 -> d_k <> 0 ->
  Forall (fun t => length t = h * d_k) tokens ->
  view_rows h (view_rows d_k (concat tokens)) = map (view_rows d_k) tokens.
Proof.
  intros Hh Hk H. induction H as [| t tokens Ht _ IH]; cbn [concat map].
  - now rewrite !view_rows_nil.
  - rewrite view_rows_app with (k := h) by assumption.
    destruct (view_rows_spec d_k h t Hk Ht) as (_ & Hlen & _).
    rewrite view_rows_cons by assumption. now rewrite IH.
Qed.

Lemma nth_view_rows {X} (n j : nat) (l : list X) :
  j < length l / n -> nth j (view_rows n l) [] = firstn n (skipn (j * n) l).
Proof.
  intros Hj. unfold view_rows.
  exact (nth_map_seq (fun j => firstn n (skipn (j * n) l)) (length l / n) j [] Hj).
Qed.

(** The transpose of a matrix with a first row of extent [c]. *)
Lemma transpose_cols {X} (d : X) (m : list (list X)) (c : nat) :
  length (hd [] m) = c ->
  transpose d m = map (fun j => map (fun row => nth j row d) m) (seq 0 c).
Proof. intros <-. reflexivity. Qed.

Lemma length_transpose {X} (d : X) (m : list (list X)) :
  length (transpose d m) = length (hd [] m).
Proof. unfold transpose. now rewrite length_map, length_seq. Qed.

(** Transposing twice gives back a rectangular matrix with no empty extent. *)
Lemma transpose_involutive {X} (d : X) (m : list (list X)) (r c : nat) :
  r <> 0 -> c <> 0 -> length m = r -> Forall (fun row => length row = c) m ->
  transpose d (transpose d m) = m.
Proof.
  intros Hr Hc Hm Hrows.
  assert (Hhd : length (hd [] m) = c).
  { destruct m as [| row m]; [cbn in Hm; lia |]. now inversion Hrows. }
  rewrite (transpose_cols d m c Hhd).
  assert (Hhd' : length (hd [] (map (fun j => map (fun row => nth j row d) m) (seq 0 c)))
                 = r).
  { destruct c as [| c]; [lia |]. cbn [seq map hd]. now rewrite length_map. }
  rewrite (transpose_cols d _ r Hhd').
  transitivity (map (fun i => nth i m []) (seq 0 r));
    [| rewrite <- Hm; apply map_nth_seq_id].
  apply map_ext_in. intros i Hi. apply in_seq in Hi.
  rewrite map_map.
  assert (Hrow : length (nth i m []) = c).
  { rewrite Forall_forall in Hrows. apply Hrows, nth_In. lia. }
  transitivity (map (fun j => nth j (nth i m []) d) (seq 0 c));
    [| rewrite <- Hrow; apply map_nth_seq_id].
  apply map_ext. intros j.
  rewrite nth_indep with (d' := (fun row => nth j row d) []) by (rewrite length_map; lia).
  rewrite (map_nth (fun row => nth j row d)). reflexivity.
Qed.

Lemma concat_concat_map {X} (l : list (list (list X))) :
  concat (concat l) = concat (map (@concat X) l).
Proof.
  induction l as [| a l IH]; cbn [concat map]; [reflexivity |].
  now rewrite concat_app, IH.
Qed.

Lemma length_concat_uniform {X} (n : nat) (rows : list (list X)) :
  Forall (fun r => length r = n) rows -> length (concat rows) = length rows * n.
Proof.
  intros H. induction H as [| r rows Hr _ IH]; cbn [concat length]; [reflexivity |].
  rewrite length_app, IH, Hr. cbn. lia.
Qed.

Lemma map2_map_seq {X Y Z} (f : X -> Y -> Z) (a : nat -> X) (b : nat -> Y) (n : nat) :
  map2 f (map a (seq 0 n)) (map b (seq 0 n)) = map (fun j => f (a j) (b j)) (seq 0 n).
Proof.
  generalize 0 as s. induction n as [| n IH]; intros s; cbn; [reflexivity |].
  now rewrite IH.
Qed.

End Views.

(** ** Multi-head attention *)

Section Attention.
Context {A : Arith}.

(** *** The linear maps *)

Lemma length_apply_linear (l : Linear) (i o : nat) (v : Vec) :
  wf_linear i o l -> length (apply_linear l v) = o.
Proof.
  intros (_ & _ & Hw & _ & Hb). unfold apply_linear.
  rewrite length_map2; rewrite length_map; congruence.
Qed.

Lemma Linear_forward_shape (l : Linear) (i o B S : nat) (x : T3) :
  wf_linear i o l -> has_shape3 B S i x ->
  Linear_forward l x = Ok (linear_map l x) /\ has_shape3 B S o (linear_map l x).
Proof.
  intros Hl [HB Hx]. rewrite Forall_forall in Hx. split.
  - unfold Linear_forward, linear_map.
    apply mapR_ok_in. intros xb Hxb. apply mapR_ok_in. intros v Hv.
    destruct (Hx xb Hxb) as [_ Hrows]. rewrite Forall_forall in Hrows.
    unfold Linear_vec. rewrite (Hrows v Hv).
    destruct Hl as (-> & _). now rewrite Nat.eqb_refl.
  - unfold linear_map. split; [now rewrite length_map |].
    apply Forall_map, Forall_forall. intros xb Hxb.
    destruct (Hx xb Hxb) as [HS _]. split; [now rewrite length_map |].
    apply Forall_map, Forall_forall. intros v _.
    now apply length_apply_linear with (i := i).
Qed.

(** *** Splitting into heads *)

Lemma length_head_row (h d_k j : nat) (tok : Vec) :
  length tok = h * d_k -> j < h -> length (firstn d_k (skipn (j * d_k) tok)) = d_k.
Proof.
  intros Ht Hj. rewrite length_firstn, length_skipn, Ht. nia.
Qed.

Lemma split_heads_shape (B S h d_k : nat) (x : T3) :
  has_shape3 B S (h * d_k) x -> has_shape4 B h S d_k (split_heads h d_k x).
Proof.
  intros [HB Hx]. rewrite Forall_forall in Hx. unfold split_heads.
  split; [now rewrite length_map |].
  apply Forall_map, Forall_forall. intros xb Hxb.
  destruct (Hx xb Hxb) as [HS Hrows]. rewrite Forall_forall in Hrows.
  split; [now rewrite length_map, length_seq |].
  apply Forall_map, Forall_forall. intros j Hj. apply in_seq in Hj.
  unfold head. split; [now rewrite length_map |].
  apply Forall_map, Forall_forall. intros tok Htok.
  apply length_head_row with (h := h); [now apply Hrows | lia].
Qed.

(** [view(B, -1, h, d_k).transpose(1,2)] is the split into heads. *)
Lemma split_heads_view (B S h d_k : nat) (x : T3) :
  B <> 0 -> S <> 0 -> h <> 0 -> d_k <> 0 ->
  has_shape3 B S (h * d_k) x ->
  rmap MultiHeadAttention.transpose12 (MultiHeadAttention.view4 h d_k x)
  = Ok (split_heads h d_k x).
Proof.
  intros HB0 HS0 Hh Hk [HB Hx]. rewrite Forall_forall in Hx.
  unfold MultiHeadAttention.view4.
  replace (length x =? 0) with false by (symmetry; apply Nat.eqb_neq; lia).
  replace (h * d_k =? 0) with false by (symmetry; apply Nat.eqb_neq; nia).
  cbn [orb].
  rewrite mapR_ok_in with (g := fun xb => map (view_rows d_k) xb).
  - cbn [rmap]. f_equal. unfold MultiHeadAttention.transpose12, split_heads.
    rewrite map_map. apply map_ext_in. intros xb Hxb.
    destruct (Hx xb Hxb) as [HS Hrows].
    assert (Hhd : length (hd [] (map (view_rows d_k) xb)) = h).
    { destruct xb as [| tok xb]; [cbn in HS; lia |]. cbn [map hd].
      inversion Hrows as [| ? ? Htok _]; subst.
      now destruct (view_rows_spec d_k h tok Hk Htok) as (_ & Hlen & _). }
    rewrite (transpose_cols [] _ h Hhd).
    apply map_ext_in. intros j Hj. apply in_seq in Hj.
    rewrite map_map. unfold head. apply map_ext_in. intros tok Htok.
    rewrite Forall_forall in Hrows.
    apply nth_view_rows. rewrite (Hrows tok Htok), Nat.div_mul by exact Hk. lia.
  - intros xb Hxb. destruct (Hx xb Hxb) as [HS Hrows].
    rewrite (length_concat_uniform (h * d_k) xb Hrows).
    rewrite Nat.Div0.mod_mul, Nat.eqb_refl.
    f_equal. apply view_tokens; assumption.
Qed.

(** *** Scores *)

Lemma map_map2 {X Y Z W} (g : Z -> W) (f : X -> Y -> Z) (xs : list X) (ys : list Y) :
  map g (map2 f xs ys) = map2 (fun a b => g (f a b)) xs ys.
Proof.
  revert ys. induction xs as [| a xs IH]; intros [| b ys]; cbn; try reflexivity.
  now rewrite IH.
Qed.

Lemma map2_ext_in {X Y Z} (f g : X -> Y -> Z) (xs : list X) (ys : list Y) :
  (forall a b, In (a, b) (combine xs ys) -> f a b = g a b) ->
  map2 f xs ys = map2 g xs ys.
Proof.
  revert ys. induction xs as [| a xs IH]; intros [| b ys] H; cbn; try reflexivity.
  rewrite (H a b) by (left; reflexivity).
  rewrite IH; [reflexivity |]. intros a' b' Hab. apply H. right. exact Hab.
Qed.

Lemma rect_hd {X} (r c : nat) (m : list (list X)) :
  r <> 0 -> rect r c m -> length (hd [] m) = c.
Proof.
  intros Hr [Hm Hrows]. destruct m as [| row m]; [cbn in Hm; lia |].
  now inversion Hrows.
Qed.

(** The product of a head of queries with the transposed head of keys. *)
Lemma matmul_transpose (S_q S_k d_k : nat) (Qj Kj : Mat) :
  S_k <> 0 -> d_k <> 0 -> rect S_q d_k Qj -> rect S_k d_k Kj ->
  matmul Qj (transpose zero Kj) = Ok (map (fun qr => map (dot qr) Kj) Qj).
Proof.
  intros HS Hk [HQ HQrows] [HK HKrows]. unfold matmul.
  rewrite length_transpose, (rect_hd S_k d_k Kj HS (conj HK HKrows)).
  replace (forallb (fun row => length row =? d_k) Qj) with true.
  - now rewrite (transpose_involutive zero Kj S_k d_k HS Hk HK HKrows).
  - symmetry. apply forallb_forall. intros row Hrow.
    rewrite Forall_forall in HQrows. rewrite (HQrows row Hrow). apply Nat.eqb_refl.
Qed.

Lemma raw_scores_run (B h S_q S_k d_k : nat) (Q K : T4) :
  S_k <> 0 -> d_k <> 0 ->
  has_shape4 B h S_q d_k Q -> has_shape4 B h S_k d_k K ->
  bzipR (bzipR (fun q k => matmul q (transpose zero k))) Q K
  = Ok (map2 (map2 (fun Qj Kj => map (fun qr => map (dot qr) Kj) Qj)) Q K).
Proof.
  intros HS Hk [HQ HQb] [HK HKb].
  rewrite Forall_forall in HQb. rewrite Forall_forall in HKb.
  rewrite bzipR_same_length by congruence.
  apply zipR_ok_in; [congruence |]. intros Qb Kb Hin.
  destruct (HQb Qb (in_combine_l _ _ _ _ Hin)) as [HQh HQj].
  destruct (HKb Kb (in_combine_r _ _ _ _ Hin)) as [HKh HKj].
  rewrite Forall_forall in HQj. rewrite Forall_forall in HKj.
  rewrite bzipR_same_length by congruence.
  apply zipR_ok_in; [congruence |]. intros Qj Kj Hin'.
  apply matmul_transpose with (S_q := S_q) (S_k := S_k) (d_k := d_k); try assumption.
  - apply HQj. exact (in_combine_l _ _ _ _ Hin').
  - apply HKj. exact (in_combine_r _ _ _ _ Hin').
Qed.

Lemma last_dim4_heads (B h S d_k : nat) (Q : T4) :
  B <> 0 -> h <> 0 -> S <> 0 -> has_shape4 B h S d_k Q -> last_dim4 Q = d_k.
Proof.
  intros HB Hh HS [HQ HQb]. unfold last_dim4, last_dim2.
  destruct Q as [| Qb Q]; [cbn in HQ; lia |]. cbn [hd].
  inversion HQb as [| ? ? Hshape _]; subst. destruct Hshape as [HQh HQj].
  destruct Qb as [| Qj Qb]; [cbn in HQh; lia |]. cbn [hd].
  inversion HQj as [| ? ? Hrect _]; subst.
  apply rect_hd with (r := S); assumption.
Qed.

Lemma scale_scores (d_k : nat) (Q K : T4) :
  map (map (map (map (fun x => x /. s_sqrt (s_of_nat d_k)))))
      (map2 (map2 (fun Qj Kj => map (fun qr => map (dot qr) Kj) Qj)) Q K)
  = raw_scores d_k Q K.
Proof.
  unfold raw_scores. rewrite map_map2. apply map2_ext_in. intros Qb Kb _.
  rewrite map_map2. apply map2_ext_in. intros Qj Kj _.
  rewrite map_map. apply map_ext. intros qr. now rewrite map_map.
Qed.

End Attention.

Section AttentionRun.
Context {A : Arith}.

(** *** Shapes along the pipeline *)

Lemma raw_scores_shape (B h S_q S_k d_k : nat) (Q K : T4) :
  has_shape4 B h S_q d_k Q -> has_shape4 B h S_k d_k K ->
  has_shape4 B h S_q S_k (raw_scores d_k Q K).
Proof.
  intros [HQ HQb] [HK HKb].
  rewrite Forall_forall in HQb. rewrite Forall_forall in HKb.
  unfold raw_scores. split; [rewrite length_map2; congruence |].
  apply Forall_map2. intros Qb Kb Hin.
  destruct (HQb Qb (in_combine_l _ _ _ _ Hin)) as [HQh HQj].
  destruct (HKb Kb (in_combine_r _ _ _ _ Hin)) as [HKh HKj].
  rewrite Forall_forall in HQj. rewrite Forall_forall in HKj.
  split; [rewrite length_map2; congruence |].
  apply Forall_map2. intros Qj Kj Hin'.
  destruct (HQj Qj (in_combine_l _ _ _ _ Hin')) as [HQs _].
  destruct (HKj Kj (in_combine_r _ _ _ _ Hin')) as [HKs _].
  split; [now rewrite length_map |].
  apply Forall_map, Forall_forall. intros qr _. now rewrite length_map.
Qed.

Lemma Forall_imap_from {X Y} (P : Y -> Prop) (f : nat -> X -> Y) (l : list X) (k : nat) :
  (forall i a, In a l -> P (f i a)) -> Forall P (imap_from k f l).
Proof.
  revert k. induction l as [| a l IH]; intros k H; cbn; constructor.
  - apply H. left. reflexivity.
  - apply IH. intros i b Hb. apply H. right. exact Hb.
Qed.

Lemma masked_fill_shape (B h S_q S_k : nat) (m : MultiHeadAttention.mask_t)
      (c : scalar) (s : T4) :
  has_shape4 B h S_q S_k s ->
  has_shape4 B h S_q S_k (MultiHeadAttention.masked_fill m c s).
Proof.
  intros [HB Hb]. rewrite Forall_forall in Hb.
  unfold MultiHeadAttention.masked_fill, imap.
  split; [now rewrite length_imap_from |].
  apply Forall_imap_from. intros b sb Hsb.
  destruct (Hb sb Hsb) as [Hh Hj]. rewrite Forall_forall in Hj.
  split; [now rewrite length_imap_from |].
  apply Forall_imap_from. intros j sj Hsj.
  destruct (Hj sj Hsj) as [HS Hrows]. rewrite Forall_forall in Hrows.
  split; [now rewrite length_imap_from |].
  apply Forall_imap_from. intros i row Hrow.
  rewrite length_imap_from. now apply Hrows.
Qed.

Lemma probabilities_shape (B h S_q S_k : nat) (mask : option MultiHeadAttention.mask_t)
      (s : T4) :
  has_shape4 B h S_q S_k s ->
  has_shape4 B h S_q S_k (probabilities (mask_scores mask s)).
Proof.
  intros Hs.
  assert (Hm : has_shape4 B h S_q S_k (mask_scores mask s)).
  { destruct mask as [m |]; [apply masked_fill_shape, Hs | exact Hs]. }
  destruct Hm as [HB Hb]. rewrite Forall_forall in Hb. unfold probabilities.
  split; [now rewrite length_map |].
  apply Forall_map, Forall_forall. intros sb Hsb.
  destruct (Hb sb Hsb) as [Hh Hj]. rewrite Forall_forall in Hj.
  split; [now rewrite length_map |].
  apply Forall_map, Forall_forall. intros sj Hsj.
  destruct (Hj sj Hsj) as [HS Hrows]. rewrite Forall_forall in Hrows.
  split; [now rewrite length_map |].
  apply Forall_map, Forall_forall. intros row Hrow.
  unfold softmax. rewrite !length_map. now apply Hrows.
Qed.

Lemma returns_mapM_in {St X Y} (f : X -> M St Y) (P : Y -> Prop) (l : list X) :
  (forall x, In x l -> returns (f x) P) ->
  returns (mapM f l) (fun ys => length ys = length l /\ Forall P ys).
Proof.
  induction l as [| x l IH]; intros Hf; cbn [mapM].
  - apply returns_ret. split; [reflexivity | constructor].
  - eapply returns_bind; [apply Hf; left; reflexivity |]. intros y Hy.
    eapply returns_bind; [apply IH; intros z Hz; apply Hf; right; exact Hz |].
    intros ys [Hlen Hall].
    apply returns_ret. split; [cbn; congruence | constructor; assumption].
Qed.

(** Dropout keeps the shape of the probabilities. *)
Lemma dropout4_shape (d : Dropout) (B h S_q S_k : nat) (s : T4) :
  has_shape4 B h S_q S_k s -> returns (dropout4 d s) (has_shape4 B h S_q S_k).
Proof.
  intros Hs. unfold dropout4. destruct (training d); [| now apply returns_ret].
  destruct Hs as [HB Hb]. rewrite Forall_forall in Hb.
  eapply returns_weaken.
  - apply returns_mapM_in with (P := has_shape3 h S_q S_k). intros sb Hsb.
    destruct (Hb sb Hsb) as [Hh Hj]. rewrite Forall_forall in Hj.
    eapply returns_weaken.
    + apply returns_mapM_in with (P := rect S_q S_k). intros sj Hsj.
      destruct (Hj sj Hsj) as [HS Hrows]. rewrite Forall_forall in Hrows.
      eapply returns_weaken.
      * apply returns_mapM_in with (P := fun row : Vec => length row = S_k).
        intros row Hrow.
        eapply returns_weaken.
        -- apply returns_mapM with (P := fun _ : scalar => True).
           intros x. apply dropout_scalar_returns.
        -- cbn beta. intros r [Hr _]. rewrite Hr. now apply Hrows.
      * cbn beta. intros r [Hr Hall]. split; [congruence | exact Hall].
    + cbn beta. intros r [Hr Hall]. split; [congruence | exact Hall].
  - cbn beta. intros r [Hr Hall]. split; [congruence | exact Hall].
Qed.

(** *** Probabilities times values *)

Lemma weighted_values_run (B h S_q S_k d_k : nat) (P V : T4) :
  S_k <> 0 ->
  has_shape4 B h S_q S_k P -> has_shape4 B h S_k d_k V ->
  bzipR (bzipR matmul) P V = Ok (weighted_values d_k P V) /\
  has_shape4 B h S_q d_k (weighted_values d_k P V).
Proof.
  intros HS [HP HPb] [HV HVb].
  rewrite Forall_forall in HPb. rewrite Forall_forall in HVb. split.
  - rewrite bzipR_same_length by congruence. unfold weighted_values.
    apply zipR_ok_in; [congruence |]. intros Pb Vb Hin.
    destruct (HPb Pb (in_combine_l _ _ _ _ Hin)) as [HPh HPj].
    destruct (HVb Vb (in_combine_r _ _ _ _ Hin)) as [HVh HVj].
    rewrite Forall_forall in HPj. rewrite Forall_forall in HVj.
    rewrite bzipR_same_length by congruence.
    apply zipR_ok_in; [congruence |]. intros Pj Vj Hin'.
    destruct (HPj Pj (in_combine_l _ _ _ _ Hin')) as [HPs HProws].
    pose proof (HVj Vj (in_combine_r _ _ _ _ Hin')) as HVrect.
    destruct HVrect as [HVs HVrows].
    unfold matmul.
    replace (forallb (fun row => length row =? length Vj) Pj) with true.
    + f_equal. apply map_ext. intros pr.
      rewrite (transpose_cols zero Vj d_k (rect_hd S_k d_k Vj HS (conj HVs HVrows))).
      now rewrite map_map.
    + symmetry. apply forallb_forall. intros row Hrow.
      rewrite Forall_forall in HProws. rewrite (HProws row Hrow), HVs.
      apply Nat.eqb_refl.
  - unfold weighted_values. split; [rewrite length_map2; congruence |].
    apply Forall_map2. intros Pb Vb Hin.
    destruct (HPb Pb (in_combine_l _ _ _ _ Hin)) as [HPh HPj].
    destruct (HVb Vb (in_combine_r _ _ _ _ Hin)) as [HVh HVj].
    rewrite Forall_forall in HPj.
    split; [rewrite length_map2; congruence |].
    apply Forall_map2. intros Pj Vj Hin'.
    destruct (HPj Pj (in_combine_l _ _ _ _ Hin')) as [HPs _].
    split; [now rewrite length_map |].
    apply Forall_map, Forall_forall. intros pr _.
    now rewrite length_map, length_seq.
Qed.

(** *** Merging the heads *)

Lemma mapR_map {X Y Z} (f : Y -> result Z) (g : X -> Y) (l : list X) :
  mapR f (map g l) = mapR (fun a => f (g a)) l.
Proof. induction l as [| a l IH]; cbn; [reflexivity |]. now rewrite IH. Qed.

Lemma length_merged_token (h S d_k i : nat) (Ob : T3) :
  has_shape3 h S d_k Ob -> i < S ->
  length (concat (map (fun Oj => nth i Oj []) Ob)) = h * d_k.
Proof.
  intros [Hh Hj] Hi. rewrite Forall_forall in Hj.
  rewrite length_concat_uniform with (n := d_k).
  - now rewrite length_map, Hh.
  - apply Forall_map, Forall_forall. intros Oj HOj.
    destruct (Hj Oj HOj) as [HS Hrows]. rewrite Forall_forall in Hrows.
    apply Hrows, nth_In. lia.
Qed.

(** [transpose(1,2).contiguous().view(B, -1, d_model)] concatenates, token by
    token, the rows of the heads. *)
Lemma concat_heads_view (B h S d_k : nat) (O : T4) :
  B <> 0 -> h <> 0 -> S <> 0 -> d_k <> 0 ->
  has_shape4 B h S d_k O ->
  MultiHeadAttention.view3 (h * d_k) (MultiHeadAttention.transpose12 O)
  = Ok (concat_heads S O) /\
  has_shape3 B S (h * d_k) (concat_heads S O).
Proof.
  intros HB0 Hh HS0 Hk [HB Hb]. rewrite Forall_forall in Hb. split.
  - unfold MultiHeadAttention.view3, MultiHeadAttention.transpose12.
    rewrite length_map.
    replace (length O =? 0) with false by (symmetry; apply Nat.eqb_neq; lia).
    replace (h * d_k =? 0) with false by (symmetry; apply Nat.eqb_neq; nia).
    cbn [orb]. rewrite mapR_map. unfold concat_heads.
    apply mapR_ok_in. intros Ob HOb.
    pose proof (Hb Ob HOb) as HOshape. destruct (Hb Ob HOb) as [HOh HOj].
    assert (Hhd : length (hd [] Ob) = S).
    { destruct Ob as [| Oj Ob]; [cbn in HOh; lia |]. cbn [hd].
      inversion HOj as [| ? ? Hrect _]; subst. now destruct Hrect. }
    rewrite (transpose_cols [] Ob S Hhd).
    rewrite concat_concat_map, map_map.
    assert (Hall : Forall (fun r : Vec => length r = h * d_k)
                          (map (fun i => concat (map (fun Oj => nth i Oj []) Ob))
                               (seq 0 S))).
    { apply Forall_map, Forall_forall. intros i Hi. apply in_seq in Hi.
      apply length_merged_token with (S := S); [exact HOshape | lia]. }
    rewrite (length_concat_uniform (h * d_k) _ Hall).
    rewrite Nat.Div0.mod_mul, Nat.eqb_refl. f_equal.
    apply view_rows_concat; [nia | exact Hall].
  - unfold concat_heads. split; [now rewrite length_map |].
    apply Forall_map, Forall_forall. intros Ob HOb.
    split; [now rewrite length_map, length_seq |].
    apply Forall_map, Forall_forall. intros i Hi. apply in_seq in Hi.
    apply length_merged_token with (S := S); [now apply Hb | lia].
Qed.

(** *** Running the static method and the forward pass *)

Lemma bind_lift_ok {St X Y} (a : X) (k : X -> M St Y) (s : St) :
  bind (lift (Ok a)) k s = k a s.
Proof. reflexivity. Qed.

Lemma attention_run (B h S_q S_k d_k : nat) (Q K V : T4)
      (mask : option MultiHeadAttention.mask_t) (d : Dropout) (g g' : rng) (P : T4) :
  B <> 0 -> h <> 0 -> S_q <> 0 -> S_k <> 0 -> d_k <> 0 ->
  has_shape4 B h S_q d_k Q -> has_shape4 B h S_k d_k K -> has_shape4 B h S_k d_k V ->
  dropout4 d (probabilities (mask_scores mask (raw_scores d_k Q K))) g = (Ok P, g') ->
  MultiHeadAttention.attention Q K V mask (Some d) g
  = (Ok (weighted_values d_k P V, P), g') /\
  has_shape4 B h S_q d_k (weighted_values d_k P V).
Proof.
  intros HB Hh HSq HSk Hk HQ HK HV Hdrop.
  assert (HP : has_shape4 B h S_q S_k P).
  { destruct (dropout4_shape d B h S_q S_k _
                (probabilities_shape B h S_q S_k mask _
                   (raw_scores_shape B h S_q S_k d_k Q K HQ HK)) g)
      as (P0 & g0 & E0 & HP0).
    rewrite Hdrop in E0. now injection E0 as -> _. }
  destruct (weighted_values_run B h S_q S_k d_k P V HSk HP HV) as [Hrun Hshape].
  split; [| exact Hshape].
  unfold MultiHeadAttention.attention.
  rewrite (raw_scores_run B h S_q S_k d_k Q K HSk Hk HQ HK), bind_lift_ok.
  cbv zeta.
  rewrite (last_dim4_heads B h S_q d_k Q HB Hh HSq HQ), scale_scores.
  change (match mask with
          | Some m => MultiHeadAttention.masked_fill m (s_of_Z (-1000000000))
                        (raw_scores d_k Q K)
          | None => raw_scores d_k Q K
          end) with (mask_scores mask (raw_scores d_k Q K)).
  change (map (map (map softmax)) (mask_scores mask (raw_scores d_k Q K)))
    with (probabilities (mask_scores mask (raw_scores d_k Q K))).
  unfold bind at 1. rewrite Hdrop. rewrite Hrun, bind_lift_ok. reflexivity.
Qed.

End AttentionRun.

Section AttentionForward.
Context {A : Arith}.

Lemma bind_with_rng {P X Y} (m : M rng X) (k : X -> M (P * rng) Y) (p : P)
      (g g' : rng) (a : X) :
  m g = (Ok a, g') -> bind (with_rng m) k (p, g) = k a (p, g').
Proof. intros H. unfold bind. rewrite with_rng_run. cbn [fst snd]. now rewrite H. Qed.

Lemma bind_set_self {P Y} (x : P) (k : unit -> M (P * rng) Y) (s : P * rng) :
  bind (set_self x) k s = k tt (x, snd s).
Proof. reflexivity. Qed.

End AttentionForward.

(** The constructor makes a well-formed block whenever it returns one of a
    width other than 0. *)
Lemma MultiHeadAttention_init_wf {A : Arith} (d_model h : nat) (dropout : scalar)
      (g g' : rng) (self : MultiHeadAttention.t) :
  d_model <> 0 ->
  MultiHeadAttention.__init__ d_model h dropout g = (Ok self, g') ->
  wf_attention self /\ MultiHeadAttention.d_model self = d_model /\
  MultiHeadAttention.h self = h.
Proof.
  intros Hd. unfold MultiHeadAttention.__init__.
  destruct (Nat.eqb_spec h 0) as [-> | Hh]; [discriminate |].
  destruct (Nat.eqb_spec (d_model mod h) 0) as [Hmod | _]; [| discriminate].
  cbn [negb].
  destruct (nn_Linear_returns d_model d_model g) as (q & g1 & Eq & Hq).
  destruct (nn_Linear_returns d_model d_model g1) as (k & g2 & Ek & Hk).
  destruct (nn_Linear_returns d_model d_model g2) as (v & g3 & Ev & Hv).
  destruct (nn_Linear_returns d_model d_model g3) as (o & g4 & Eo & Ho).
  unfold bind. rewrite Eq, Ek, Ev, Eo. unfold lift.
  destruct (nn_Dropout dropout) as [d | e]; [| discriminate].
  cbn. intros H. injection H as <- _.
  assert (Hdiv : d_model = h * (d_model / h)).
  { apply Nat.Div0.div_exact in Hmod. exact Hmod. }
  unfold wf_attention. cbn.
  split; [| split; reflexivity].
  split; [exact Hh |]. split; [intros E; rewrite E in Hdiv; lia |].
  split; [exact Hdiv |].
  split; [exact Hq |]. split; [exact Hk |]. split; [exact Hv | exact Ho].
Qed.

(** C1. On a module as its constructor makes it (the widths satisfy
    [d_model = h * d_k], the four linear maps are [d_model] to [d_model]) and
    on a query of shape (B, S_q, d_model) with key and value of shape
    (B, S_k, d_model), no extent being 0, [forward] returns: it projects
    [q], [k], [v] through [w_q], [w_k], [w_v]; splits each into [h] heads of
    width [d_k], head index before sequence index; takes per head
    [Q . K^T / sqrt(d_k)]; puts -1e9 where the mask is 0; applies softmax
    over the key axis; passes the probabilities through dropout (the
    identity in evaluation mode), stores them as [attention_scores] and
    multiplies them by [V]; concatenates the heads token by token back to
    width [d_model]; and applies [w_o].  The output has the shape
    (B, S_q, d_model) of the query. *)
Theorem MultiHeadAttention_forward_pipeline :
  forall (A : Arith) (self : MultiHeadAttention.t) (q k v : T3)
         (mask : option MultiHeadAttention.mask_t) (g : rng) (B S_q S_k : nat),
    wf_attention self ->
    B <> 0 -> S_q <> 0 -> S_k <> 0 ->
    has_shape3 B S_q (MultiHeadAttention.d_model self) q ->
    has_shape3 B S_k (MultiHeadAttention.d_model self) k ->
    has_shape3 B S_k (MultiHeadAttention.d_model self) v ->
    let h := MultiHeadAttention.h self in
    let d_k := MultiHeadAttention.d_k self in
    let Q := split_heads h d_k (linear_map (MultiHeadAttention.w_q self) q) in
    let K := split_heads h d_k (linear_map (MultiHeadAttention.w_k self) k) in
    let V := split_heads h d_k (linear_map (MultiHeadAttention.w_v self) v) in
    let probs := probabilities (mask_scores mask (raw_scores d_k Q K)) in
    exists (P : T4) (g' : rng),
      dropout4 (MultiHeadAttention.dropout self) probs g = (Ok P, g') /\
      (training (MultiHeadAttention.dropout self) = false -> P = probs /\ g' = g) /\
      MultiHeadAttention.forward q k v mask (self, g)
      = (Ok (linear_map (MultiHeadAttention.w_o self)
               (concat_heads S_q (weighted_values d_k P V))),
         (MultiHeadAttention.set_attention_scores P self, g')) /\
      has_shape3 B S_q (MultiHeadAttention.d_model self)
        (linear_map (MultiHeadAttention.w_o self)
           (concat_heads S_q (weighted_values d_k P V))).
Proof.
  intros A self q k v mask g B S_q S_k Hwf HB HSq HSk Hq Hk Hv h d_k Q K V probs.
  destruct Hwf as (Hh & Hdk & Hd & Hwq & Hwk & Hwv & Hwo).
  fold h in Hh, Hd. fold d_k in Hdk, Hd.
  destruct (Linear_forward_shape _ _ _ B S_q q Hwq Hq) as [Eq Sq].
  destruct (Linear_forward_shape _ _ _ B S_k k Hwk Hk) as [Ek Sk].
  destruct (Linear_forward_shape _ _ _ B S_k v Hwv Hv) as [Ev Sv].
  rewrite Hd in Sq, Sk, Sv.
  pose proof (split_heads_view B S_q h d_k _ HB HSq Hh Hdk Sq) as EQ.
  pose proof (split_heads_view B S_k h d_k _ HB HSk Hh Hdk Sk) as EK.
  pose proof (split_heads_view B S_k h d_k _ HB HSk Hh Hdk Sv) as EV.
  pose proof (split_heads_shape B S_q h d_k _ Sq) as SQ.
  pose proof (split_heads_shape B S_k h d_k _ Sk) as SK.
  pose proof (split_heads_shape B S_k h d_k _ Sv) as SV.
  fold Q in EQ, SQ. fold K in EK, SK. fold V in EV, SV.
  destruct (dropout4_shape (MultiHeadAttention.dropout self) B h S_q S_k probs
              (probabilities_shape B h S_q S_k mask _
                 (raw_scores_shape B h S_q S_k d_k Q K SQ SK)) g)
    as (P & g' & EP & SP).
  exists P, g'. split; [exact EP |]. split.
  { intros Ht. unfold dropout4 in EP. rewrite Ht in EP.
    injection EP as <- <-. split; reflexivity. }
  destruct (attention_run B h S_q S_k d_k Q K V mask
              (MultiHeadAttention.dropout self) g g' P
              HB Hh HSq HSk Hdk SQ SK SV EP) as [Eatt Satt].
  destruct (concat_heads_view B h S_q d_k _ HB Hh HSq Hdk Satt) as [Emerge Smerge].
  rewrite <- Hd in Smerge.
  destruct (Linear_forward_shape _ _ _ B S_q _ Hwo Smerge) as [Eo So].
  split; [| exact So].
  unfold MultiHeadAttention.forward.
  rewrite bind_get_self. cbn [fst].
  rewrite Eq, bind_lift_ok, Ek, bind_lift_ok, Ev, bind_lift_ok.
  fold h d_k.
  rewrite EQ, bind_lift_ok, EK, bind_lift_ok, EV, bind_lift_ok.
  rewrite (bind_with_rng _ _ self g g' _ Eatt).
  rewrite bind_set_self. cbn [fst snd].
  rewrite Hd, Emerge, bind_lift_ok. rewrite Eo. reflexivity.
Qed.

Lemma MultiHeadAttention_forward_pipeline_witness :
  exists (out : list (list (list R))) s',
    MultiHeadAttention.forward [[[1; 2]; [3; 4]]]%R [[[1; 2]; [3; 4]]]%R
      [[[1; 2]; [3; 4]]]%R None (example_attention, fun _ => 0%R)
    = (Ok out, s') /\
    has_shape3 1 2 2 out.
Proof.
  assert (Hx : has_shape3 1 2 2 [[[1; 2]; [3; 4]]]%R).
  { split; [reflexivity |]. repeat constructor. }
  destruct (MultiHeadAttention_forward_pipeline RArith example_attention
              [[[1; 2]; [3; 4]]]%R [[[1; 2]; [3; 4]]]%R [[[1; 2]; [3; 4]]]%R
              None (fun _ => 0%R) 1 2 2)
    as (P & g' & _ & _ & E & Hs).
  - repeat split; try discriminate; repeat constructor.
  - discriminate.
  - discriminate.
  - discriminate.
  - exact Hx.
  - exact Hx.
  - exact Hx.
  - eexists _, _. split; [exact E | exact Hs].
Defined.

(** ** Concrete runs *)

Section Runs.
Open Scope R_scope.

(** Two tokens of width 4 split into two heads of width 2: head 0 holds the
    first two features of both tokens, head 1 the last two. *)
Example split_two_heads :
  rmap MultiHeadAttention.transpose12
       (@MultiHeadAttention.view4 RArith 2 2 [[[1; 2; 3; 4]; [5; 6; 7; 8]]])
  = Ok [[[[1; 2]; [5; 6]]; [[3; 4]; [7; 8]]]].
Proof. reflexivity. Qed.

(** Merging the heads restores the token-major layout. *)
Example merge_two_heads :
  @MultiHeadAttention.view3 RArith 4
    (MultiHeadAttention.transpose12 [[[[1; 2]; [5; 6]]; [[3; 4]; [7; 8]]]])
  = Ok [[[1; 2; 3; 4]; [5; 6; 7; 8]]].
Proof. reflexivity. Qed.

(** A batch of extent 1 is broadcast, extents 2 and 3 do not match. *)
Example broadcast_batch :
  @add3 RArith [[[1; 2]]] [[[10; 20]]; [[30; 40]]]
  = Ok [[[1 + 10; 2 + 20]]; [[1 + 30; 2 + 40]]].
Proof. reflexivity. Qed.

Example broadcast_mismatch :
  @add3 RArith [[[1; 2]]] [[[1; 2; 3]]] = Err RuntimeError.
Proof. reflexivity. Qed.

(** The masked positions of a 1 x 1 x 2 x 2 score tensor under a causal mask. *)
Example causal_mask_fill :
  @MultiHeadAttention.masked_fill RArith
    (fun _ _ i j => if (j <=? i)%nat then 1%Z else 0%Z) (-1000000000)
    [[[[1; 2]; [3; 4]]]]
  = [[[[1; -1000000000]; [3; 4]]]].
Proof. reflexivity. Qed.

(** A width of 0 divides by zero, a width of 3 breaks the cosine assignment. *)
Example positional_width_0 :
  @PositionalEncoding.__init__ RArith 0 5 (PyFloat 0) = Err ZeroDivisionError.
Proof. reflexivity. Qed.

Example positional_width_3 :
  @PositionalEncoding.__init__ RArith 3 5 (PyFloat 0) = Err RuntimeError.
Proof. reflexivity. Qed.

(** [dropout] is a local of [DecoderLayer.__init__], [d_model] is not. *)
Example resolve_dropout :
  @resolve RArith (DecoderLayer.init_locals 0) "dropout" = Ok (ValFloat 0).
Proof. reflexivity. Qed.

(** A feed-forward block that stores the float it was given cannot run. *)
Example FeedForward_float_dropout :
  forall (l1 l2 : @Linear RArith) (g : nat -> R),
    wf_linear 1 1 l1 ->
    FeedForward.forward
      {| FeedForward.d_model := 1; FeedForward.d_ff := 1;
         FeedForward.dropout := PyFloat 0;
         FeedForward.linear1 := l1; FeedForward.linear2 := l2 |}
      [[[1]]] g
    = (Err TypeError, g).
Proof.
  intros l1 l2 g (Hin & _). unfold FeedForward.forward, Linear_forward.
  cbn [mapR FeedForward.linear1 FeedForward.dropout]. unfold Linear_vec.
  rewrite Hin. cbn. reflexivity.
Qed.

End Runs.

(* ================================================================== *)
(** * Further properties of the code *)

(** ** Which inputs a lookup or a linear map accepts *)

Section Acceptance.
Context {A : Arith}.

Lemma mapR_is_ok {X Y} (f : X -> result Y) (l : list X) :
  is_ok (mapR f l) = true <-> Forall (fun a => is_ok (f a) = true) l.
Proof.
  induction l as [| a l IH]; cbn [mapR].
  - split; [constructor | reflexivity].
  - destruct (f a) as [b | e] eqn:Ea; cbn [rbind].
    + destruct (mapR f l) as [bs | e]; cbn [rbind is_ok] in IH |- * .
      * split; [| reflexivity]. intros _. constructor; [now rewrite Ea | now apply IH].
      * split; [discriminate |]. intros H. inversion H; subst. now apply IH.
    + cbn [is_ok]. split; [discriminate |]. intros H. inversion H as [| ? ? Ha _]; subst.
      rewrite Ea in Ha. discriminate.
Qed.

(** An error of a map is the error of one of its elements. *)
Lemma mapR_err {X Y} (f : X -> result Y) (l : list X) (e : exn) :
  mapR f l = Err e -> exists a, In a l /\ f a = Err e.
Proof.
  induction l as [| a l IH]; cbn [mapR]; [discriminate |].
  destruct (f a) as [b | e'] eqn:Ea; cbn [rbind].
  - destruct (mapR f l) as [bs | e']; cbn [rbind]; [discriminate |].
    intros H. injection H as ->. destruct (IH eq_refl) as (a' & Hin & Ha').
    exists a'. split; [right; exact Hin | exact Ha'].
  - intros H. injection H as ->. exists a. split; [left; reflexivity | exact Ea].
Qed.

Lemma mapR_ok_nth {X Y} (f : X -> result Y) (l : list X) (out : list Y) :
  mapR f l = Ok out ->
  length out = length l /\
  forall i a, nth_error l i = Some a ->
              exists b, nth_error out i = Some b /\ f a = Ok b.
Proof.
  revert out. induction l as [| a l IH]; cbn [mapR]; intros out H.
  - injection H as <-. split; [reflexivity |]. intros [| i] a' Hi; discriminate.
  - destruct (f a) as [b | e] eqn:Ea; cbn [rbind] in H; [| discriminate].
    destruct (mapR f l) as [bs | e]; cbn [rbind] in H; [| discriminate].
    injection H as <-. destruct (IH bs eq_refl) as [Hlen Hnth].
    split; [cbn; now rewrite Hlen |].
    intros [| i] a' Hi; cbn in Hi |- * .
    + injection Hi as <-. exists b. split; [reflexivity | exact Ea].
    + apply Hnth, Hi.
Qed.

Lemma embed_id_ok (self : InputEmbeddings.t) (id : nat) :
  is_ok (embed_id self id) = true <-> id < length (InputEmbeddings.embedding self).
Proof.
  unfold embed_id.
  destruct (InputEmbeddings.embedding self) as [| r rs] eqn:E.
  - cbn. split; [discriminate | lia].
  - rewrite <- E, <- nth_error_Some.
    destruct (nth_error (InputEmbeddings.embedding self) id); cbn; split;
      congruence.
Qed.

(** On a table that has a row, a lookup is the row or an [IndexError]. *)
Lemma embed_id_rows (self : InputEmbeddings.t) (id : nat) :
  InputEmbeddings.embedding self <> [] ->
  embed_id self id
  = match nth_error (InputEmbeddings.embedding self) id with
    | Some row =>
        Ok (map (fun e => e *. s_sqrt (s_of_nat (InputEmbeddings.d_model self))) row)
    | None => Err IndexError
    end.
Proof.
  intros Hne. unfold embed_id.
  destruct (InputEmbeddings.embedding self) as [| r rs] eqn:E; [congruence |].
  reflexivity.
Qed.

(** The one exception of a lookup: which one depends on the table alone. *)
Lemma InputEmbeddings_forward_err (self : InputEmbeddings.t) (x : list (list nat))
      (e : exn) :
  InputEmbeddings.forward self x = Err e ->
  e = match InputEmbeddings.embedding self with
      | [] => RuntimeError
      | _ :: _ => IndexError
      end.
Proof.
  intros He. change (InputEmbeddings.forward self x)
    with (mapR (mapR (embed_id self)) x) in He.
  apply mapR_err in He. destruct He as (s & _ & He).
  apply mapR_err in He. destruct He as (id & _ & He).
  unfold embed_id in He.
  destruct (InputEmbeddings.embedding self) as [| r rs] eqn:E; [congruence |].
  rewrite <- E in He.
  destruct (nth_error (InputEmbeddings.embedding self) id); congruence.
Qed.

Lemma InputEmbeddings_init_returns (d_model vocab_size : nat) :
  returns (InputEmbeddings.__init__ d_model vocab_size)
          (fun self =>
             InputEmbeddings.d_model self = d_model /\
             InputEmbeddings.vocab_size self = vocab_size /\
             length (InputEmbeddings.embedding self) = vocab_size /\
             Forall (fun row => length row = d_model) (InputEmbeddings.embedding self)).
Proof.
  unfold InputEmbeddings.__init__.
  eapply returns_bind; [apply rand_mat_returns |]. intros w [Hw1 Hw2].
  apply returns_ret. repeat split; assumption.
Qed.

End Acceptance.

(** X1. An embedding built by [InputEmbeddings(d_model, vocab_size)] with a
    vocabulary that is not empty accepts exactly the batches whose token ids
    are all below [vocab_size]; any other batch raises [IndexError], and
    nothing else is ever raised.  When it returns, the output has one token
    of width [d_model] per id, at the place of the id, and that token is the
    row of the table at the id, every entry multiplied by [sqrt(d_model)]. *)
Theorem InputEmbeddings_forward_lookup :
  forall (A : Arith) (d_model vocab_size : nat) (g g' : rng)
         (self : InputEmbeddings.t) (x : list (list nat)),
    InputEmbeddings.__init__ d_model vocab_size g = (Ok self, g') ->
    vocab_size <> 0 ->
    (is_ok (InputEmbeddings.forward self x) = true
     <-> Forall (Forall (fun id => id < vocab_size)) x) /\
    (forall e, InputEmbeddings.forward self x = Err e -> e = IndexError) /\
    (forall out, InputEmbeddings.forward self x = Ok out ->
       length out = length x /\
       forall b s i id,
         nth_error x b = Some s -> nth_error s i = Some id ->
         exists row tok,
           nth_error (InputEmbeddings.embedding self) id = Some row /\
           nth_error (nth b out []) i = Some tok /\
           tok = map (fun e => e *. s_sqrt (s_of_nat d_model)) row /\
           length tok = d_model).
Proof.
  intros A d_model vocab_size g g' self x Hinit Hvocab.
  destruct (InputEmbeddings_init_returns d_model vocab_size g)
    as (self0 & g0 & E0 & Hd & Hv & Hlen & Hrows).
  rewrite Hinit in E0. injection E0 as <- <-.
  assert (Hne : InputEmbeddings.embedding self <> []).
  { intros E. rewrite E in Hlen. cbn in Hlen. congruence. }
  change (InputEmbeddings.forward self x) with (mapR (mapR (embed_id self)) x).
  split; [| split].
  - rewrite mapR_is_ok. split; intros H; rewrite Forall_forall in H;
      apply Forall_forall; intros s Hs; specialize (H s Hs).
    + rewrite mapR_is_ok in H. rewrite Forall_forall in H.
      apply Forall_forall. intros id Hid. rewrite <- Hlen. apply embed_id_ok, H, Hid.
    + rewrite mapR_is_ok. rewrite Forall_forall in H.
      apply Forall_forall. intros id Hid. apply embed_id_ok. rewrite Hlen. apply H, Hid.
  - intros e He. apply mapR_err in He. destruct He as (s & _ & He).
    apply mapR_err in He. destruct He as (id & _ & He).
    rewrite (embed_id_rows self id Hne) in He.
    destruct (nth_error (InputEmbeddings.embedding self) id); congruence.
  - intros out Hout. destruct (mapR_ok_nth _ _ _ Hout) as [Hl Hn].
    split; [exact Hl |]. intros b s i id Hb Hid.
    destruct (Hn b s Hb) as (os & Hos & Hs).
    destruct (mapR_ok_nth _ _ _ Hs) as [_ Hn'].
    destruct (Hn' i id Hid) as (tok & Htok & Hemb).
    rewrite (embed_id_rows self id Hne) in Hemb.
    destruct (nth_error (InputEmbeddings.embedding self) id) as [row |] eqn:Erow;
      [| discriminate].
    injection Hemb as <-. exists row. eexists. split; [reflexivity |].
    split; [| split].
    + rewrite (nth_error_nth _ _ [] Hos). exact Htok.
    + now rewrite Hd.
    + rewrite length_map. rewrite Forall_forall in Hrows.
      apply Hrows. eapply nth_error_In. exact Erow.
Qed.

Lemma InputEmbeddings_forward_lookup_witness :
  exists self g',
    @InputEmbeddings.__init__ RArith 2 3 (fun _ => 0%R) = (Ok self, g') /\
    is_ok (InputEmbeddings.forward self [[0; 2]; [1; 1]]) = true /\
    is_ok (InputEmbeddings.forward self [[0; 3]]) = false.
Proof.
  eexists _, _. split; [reflexivity |].
  destruct (InputEmbeddings_forward_lookup RArith 2 3 (fun _ => 0%R) _ _
              [[0; 2]; [1; 1]] eq_refl ltac:(discriminate)) as (Hiff & _).
  split; [apply Hiff; repeat constructor |]. reflexivity.
Defined.

(** ** Broadcasting and rejection on the feature axis *)

Section Widths.
Context {A : Arith}.

Lemma zipR_pure_mismatch {X Y Z} (f : X -> Y -> Z) (xs : list X) (ys : list Y) :
  length xs <> length ys -> zipR (fun a b => Ok (f a b)) xs ys = Err RuntimeError.
Proof.
  revert ys. induction xs as [| x xs IH]; intros [| y ys] H; cbn in H |- * ;
    try reflexivity; try congruence.
  rewrite IH by lia. reflexivity.
Qed.

Lemma bzip_mismatch {X Y Z} (f : X -> Y -> Z) (xs : list X) (ys : list Y) :
  length xs <> length ys -> length xs <> 1 -> length ys <> 1 ->
  bzip f xs ys = Err RuntimeError.
Proof.
  intros H Hx Hy. unfold bzip, bzipR.
  destruct xs as [| x [| x' xs]]; cbn in Hx; try congruence;
    destruct ys as [| y [| y' ys]]; cbn in Hy; try congruence;
    apply zipR_pure_mismatch; exact H.
Qed.

Lemma bzip_singleton_l {X Y Z} (f : X -> Y -> Z) (x : X) (ys : list Y) :
  bzip f [x] ys = Ok (map (f x) ys).
Proof. unfold bzip, bzipR. apply mapR_pure. Qed.

Lemma bzip_singleton_r {X Y Z} (f : X -> Y -> Z) (xs : list X) (y : Y) :
  bzip f xs [y] = Ok (map (fun x => f x y) xs).
Proof.
  unfold bzip, bzipR. destruct xs as [| x [| x' xs]]; try reflexivity.
  apply (mapR_pure (fun x => f x y)).
Qed.

(** The outcome of the normalisation of one token by its width. *)
Lemma forward_vec_by_width (self : LayerNormalization.t) (v : Vec) (d : nat) :
  length (LayerNormalization.alpha self) = d ->
  length (LayerNormalization.beta self) = d ->
  (length v = d \/ length v = 1 \/ d = 1 ->
   exists out, LayerNormalization.forward_vec self v = Ok out /\
               length out = if length v =? 1 then d else length v) /\
  (~ (length v = d \/ length v = 1 \/ d = 1) ->
   LayerNormalization.forward_vec self v = Err RuntimeError).
Proof.
  intros Ha Hb. split.
  - intros [Hv | [Hv | Hd]].
    + rewrite forward_vec_formula by congruence.
      eexists. split; [reflexivity |]. rewrite length_normalize_token.
      destruct (Nat.eqb_spec (length v) 1); congruence.
    + unfold LayerNormalization.forward_vec.
      destruct v as [| x [| x' v]]; cbn in Hv; try discriminate.
      cbn [map]. rewrite bzip_singleton_r. cbn [rbind].
      rewrite bzip_same_length by (rewrite !length_map; congruence).
      eexists. split; [reflexivity |].
      rewrite length_map2 by (rewrite !length_map; congruence).
      rewrite !length_map. cbn. exact Ha.
    + unfold LayerNormalization.forward_vec. rewrite Hd in Ha, Hb |- * .
      destruct (LayerNormalization.alpha self) as [| a [| a' al]]; cbn in Ha;
        try discriminate.
      destruct (LayerNormalization.beta self) as [| b [| b' bl]]; cbn in Hb;
        try discriminate.
      rewrite bzip_singleton_l. cbn [rbind]. rewrite bzip_singleton_r.
      eexists. split; [reflexivity |]. rewrite !length_map.
      destruct (Nat.eqb_spec (length v) 1) as [E | _]; [exact E | reflexivity].
  - intros Hn. unfold LayerNormalization.forward_vec.
    rewrite bzip_mismatch; [reflexivity | | | ]; rewrite ?length_map; lia.
Qed.

Lemma ProjectionLayer_init_returns (d_model vocab_size : nat) :
  returns (ProjectionLayer.__init__ d_model vocab_size)
          (fun self => wf_linear d_model vocab_size (ProjectionLayer.linear self)).
Proof.
  unfold ProjectionLayer.__init__.
  eapply returns_bind; [apply nn_Linear_returns |]. intros l Hl.
  apply returns_ret. exact Hl.
Qed.

Lemma is_ok_rmap {X Y} (f : X -> Y) (r : result X) : is_ok (rmap f r) = is_ok r.
Proof. destruct r; reflexivity. Qed.

Lemma Linear_vec_ok (l : Linear) (v : Vec) :
  is_ok (Linear_vec l v) = true <-> length v = in_features l.
Proof.
  unfold Linear_vec. destruct (Nat.eqb_spec (length v) (in_features l)); cbn;
    split; congruence.
Qed.

Lemma Linear_forward_ok (l : Linear) (x : T3) :
  is_ok (Linear_forward l x) = true
  <-> Forall (Forall (fun v => length v = in_features l)) x.
Proof.
  unfold Linear_forward. rewrite mapR_is_ok.
  split; intros H; rewrite Forall_forall in H; apply Forall_forall; intros m Hm;
    specialize (H m Hm).
  - rewrite mapR_is_ok in H. rewrite Forall_forall in H.
    apply Forall_forall. intros v Hv. apply Linear_vec_ok, H, Hv.
  - rewrite mapR_is_ok. rewrite Forall_forall in H.
    apply Forall_forall. intros v Hv. apply Linear_vec_ok, H, Hv.
Qed.

Lemma Linear_forward_err (l : Linear) (x : T3) (e : exn) :
  Linear_forward l x = Err e -> e = RuntimeError.
Proof.
  intros He. apply mapR_err in He. destruct He as (m & _ & He).
  apply mapR_err in He. destruct He as (v & _ & He).
  unfold Linear_vec in He. destruct (length v =? in_features l); congruence.
Qed.

End Widths.

(** X2. A normalisation built by [LayerNormalization(d)] (with any [eps])
    accepts a token of width [d]; through broadcasting it also accepts a
    token of width 1, which it widens to [d], and, when [d] is 1, a token of
    any width; every other width raises [RuntimeError].  On a rank-3 input
    it returns exactly when every token is accepted, and [RuntimeError] is
    the only exception it raises. *)
Theorem LayerNormalization_accepts_by_width :
  forall (A : Arith) (d : nat) (eps : option scalar),
  exists self,
    LayerNormalization.__init__ (Some d) eps = Ok self /\
    (forall v,
        (length v = d \/ length v = 1 \/ d = 1 ->
         exists out, LayerNormalization.forward_vec self v = Ok out /\
                     length out = if length v =? 1 then d else length v) /\
        (~ (length v = d \/ length v = 1 \/ d = 1) ->
         LayerNormalization.forward_vec self v = Err RuntimeError)) /\
    (forall x,
        (is_ok (LayerNormalization.forward self x) = true
         <-> Forall (Forall (fun v => length v = d \/ length v = 1 \/ d = 1)) x) /\
        (forall e, LayerNormalization.forward self x = Err e -> e = RuntimeError)).
Proof.
  intros A d eps. eexists. split; [reflexivity |].
  set (self := {| LayerNormalization.d_model := d;
                  LayerNormalization.eps := _;
                  LayerNormalization.alpha := repeat one d;
                  LayerNormalization.beta := repeat zero d |}).
  assert (Hw : forall v,
             (length v = d \/ length v = 1 \/ d = 1 ->
              exists out, LayerNormalization.forward_vec self v = Ok out /\
                          length out = if length v =? 1 then d else length v) /\
             (~ (length v = d \/ length v = 1 \/ d = 1) ->
              LayerNormalization.forward_vec self v = Err RuntimeError)).
  { intros v. apply forward_vec_by_width; apply repeat_length. }
  assert (Hok : forall v, is_ok (LayerNormalization.forward_vec self v) = true
                          <-> (length v = d \/ length v = 1 \/ d = 1)).
  { intros v. destruct (Hw v) as [H1 H2]. split.
    - intros Hv.
      destruct (Nat.eq_dec (length v) d) as [E | NE]; [now left |].
      destruct (Nat.eq_dec (length v) 1) as [E1 | NE1]; [now right; left |].
      destruct (Nat.eq_dec d 1) as [E2 | NE2]; [now right; right |].
      rewrite H2 in Hv by tauto. discriminate.
    - intros Hv. destruct (H1 Hv) as (out & -> & _). reflexivity. }
  split; [exact Hw |]. intros x. split.
  - unfold LayerNormalization.forward. rewrite mapR_is_ok.
    split; intros H; rewrite Forall_forall in H; apply Forall_forall; intros m Hm;
      specialize (H m Hm).
    + rewrite mapR_is_ok in H. rewrite Forall_forall in H.
      apply Forall_forall. intros v Hv. apply Hok, H, Hv.
    + rewrite mapR_is_ok. rewrite Forall_forall in H.
      apply Forall_forall. intros v Hv. apply Hok, H, Hv.
  - intros e He. apply mapR_err in He. destruct He as (m & _ & He).
    apply mapR_err in He. destruct He as (v & _ & He).
    destruct (Hw v) as [H1 H2].
    destruct (Nat.eq_dec (length v) d) as [E | NE];
      [destruct (H1 (or_introl E)) as (out & Hout & _); congruence |].
    destruct (Nat.eq_dec (length v) 1) as [E1 | NE1];
      [destruct (H1 (or_intror (or_introl E1))) as (out & Hout & _); congruence |].
    destruct (Nat.eq_dec d 1) as [E2 | NE2];
      [destruct (H1 (or_intror (or_intror E2))) as (out & Hout & _); congruence |].
    rewrite H2 in He by tauto. congruence.
Qed.

(** X3. A projection built by [ProjectionLayer(d_model, vocab_size)] returns
    exactly on the inputs whose tokens all have width [d_model], and raises
    [RuntimeError] (nothing else) on the others; on an input of shape
    (B, S, d_model) the output has shape (B, S, vocab_size) and every token
    is [log_softmax] of the linear map of the input token. *)
Theorem ProjectionLayer_forward_accepts :
  forall (A : Arith) (d_model vocab_size : nat) (g g' : rng)
         (self : ProjectionLayer.t) (x : T3),
    ProjectionLayer.__init__ d_model vocab_size g = (Ok self, g') ->
    (is_ok (ProjectionLayer.forward self x) = true
     <-> Forall (Forall (fun v => length v = d_model)) x) /\
    (forall e, ProjectionLayer.forward self x = Err e -> e = RuntimeError) /\
    (forall B S, has_shape3 B S d_model x ->
       ProjectionLayer.forward self x
       = Ok (map (map (fun v => log_softmax (apply_linear (ProjectionLayer.linear self) v)))
                 x) /\
       has_shape3 B S vocab_size
         (map (map (fun v => log_softmax (apply_linear (ProjectionLayer.linear self) v)))
              x)).
Proof.
  intros A d_model vocab_size g g' self x Hinit.
  destruct (ProjectionLayer_init_returns d_model vocab_size g)
    as (self0 & g0 & E0 & Hl).
  rewrite Hinit in E0. injection E0 as <- <-.
  unfold ProjectionLayer.forward. split; [| split].
  - rewrite is_ok_rmap, Linear_forward_ok. destruct Hl as (-> & _). reflexivity.
  - intros e He.
    destruct (Linear_forward (ProjectionLayer.linear self) x) as [y | e'] eqn:E;
      cbn [rmap] in He; [discriminate |].
    injection He as <-. now apply Linear_forward_err in E.
  - intros B S Hx.
    destruct (Linear_forward_shape _ _ _ B S x Hl Hx) as [E [HB Hrows]].
    rewrite E. cbn [rmap]. unfold linear_map. rewrite !map_map.
    split.
    + f_equal. apply map_ext. intros m. now rewrite map_map.
    + destruct Hx as [HBx Hxrows]. rewrite Forall_forall in Hxrows.
      split; [now rewrite length_map |].
      apply Forall_map, Forall_forall. intros m Hm.
      destruct (Hxrows m Hm) as [HS _]. split; [now rewrite length_map |].
      apply Forall_map, Forall_forall. intros v _.
      unfold log_softmax, softmax. rewrite !length_map.
      now apply length_apply_linear with (i := d_model).
Qed.

Lemma ProjectionLayer_forward_accepts_witness :
  exists self g',
    @ProjectionLayer.__init__ RArith 2 3 (fun _ => 0%R) = (Ok self, g') /\
    is_ok (ProjectionLayer.forward self [[[1; 2]; [3; 4]]]%R) = true.
Proof.
  eexists _, _. split; [reflexivity |].
  destruct (ProjectionLayer_forward_accepts RArith 2 3 (fun _ => 0%R) _ _
              [[[1; 2]; [3; 4]]]%R eq_refl) as (Hiff & _).
  apply Hiff. repeat constructor.
Defined.

(** ** Sums over the reals: the weights of a softmax *)

Section RealSums.
Open Scope R_scope.









End RealSums.





(** ** What the constructors return or raise *)

Section Constructors.
Context {A : Arith}.

Lemma raises_lift {St X} (e : exn) (r : result X) :
  r = Err e -> raises e (@lift St X r).
Proof. intros -> s. now exists s. Qed.

Lemma raises_bind_l {St X Y} (e : exn) (m : M St X) (k : X -> M St Y) :
  raises e m -> raises e (bind m k).
Proof.
  intros H s. destruct (H s) as [s' E]. exists s'. unfold bind. now rewrite E.
Qed.

Lemma raises_bind {St X Y} (e : exn) (m : M St X) (k : X -> M St Y) (P : X -> Prop) :
  returns m P -> (forall x, P x -> raises e (k x)) -> raises e (bind m k).
Proof.
  intros Hm Hk s. destruct (Hm s) as (x & s1 & E & Hx).
  destruct (Hk x Hx s1) as [s' E']. exists s'. unfold bind. now rewrite E.
Qed.

Lemma raises_lift_ok {St X Y} (e : exn) (x : X) (k : X -> M St Y) :
  raises e (k x) -> raises e (bind (lift (Ok x)) k).
Proof. intros H s. exact (H s). Qed.

Lemma returns_lift_ok {St X Y} (x : X) (k : X -> M St Y) (Q : Y -> Prop) :
  returns (k x) Q -> returns (bind (lift (Ok x)) k) Q.
Proof. intros H s. exact (H s). Qed.

Lemma bind_ok_inv {St X Y} (m : M St X) (k : X -> M St Y) (s s' : St) (y : Y) :
  bind m k s = (Ok y, s') -> exists x s1, m s = (Ok x, s1) /\ k x s1 = (Ok y, s').
Proof.
  unfold bind. destruct (m s) as [[x | e] s1]; [eauto | discriminate].
Qed.

(** *** PositionalEncoding *)

Lemma PositionalEncoding_init_fields (d seq : nat) (dr : pyval)
      (self : PositionalEncoding.t) :
  PositionalEncoding.__init__ d seq dr = Ok self ->
  PositionalEncoding.d_model self = d /\ PositionalEncoding.seq_len self = seq /\
  PositionalEncoding.dropout self = dr.
Proof.
  unfold PositionalEncoding.__init__. cbv zeta.
  destruct (d =? 0); [discriminate |].
  destruct (PositionalEncoding.assign_cols 0 _ _ _ _) as [pe1 | e1]; cbn [rbind];
    [| discriminate].
  destruct (PositionalEncoding.assign_cols 1 _ _ _ _) as [pe2 | e2]; cbn [rbind];
    [| discriminate].
  intros H. injection H as <-. auto.
Qed.

Lemma PositionalEncoding_init_zero (seq : nat) (dr : pyval) :
  PositionalEncoding.__init__ 0 seq dr = Err ZeroDivisionError.
Proof. reflexivity. Qed.

Lemma PositionalEncoding_init_one (seq : nat) (dr : pyval) :
  is_ok (PositionalEncoding.__init__ 1 seq dr) = true.
Proof. reflexivity. Qed.

Lemma PositionalEncoding_init_accepts (d seq : nat) (dr : pyval) :
  d = 1 \/ (d <> 0 /\ Nat.even d = true) ->
  exists self table,
    PositionalEncoding.__init__ d seq dr = Ok self /\
    PositionalEncoding.d_model self = d /\ PositionalEncoding.seq_len self = seq /\
    PositionalEncoding.dropout self = dr /\
    PositionalEncoding.pe self = [table] /\
    length table = seq /\ Forall (fun row => length row = d) table.
Proof.
  intros Hd.
  assert (Hok : is_ok (PositionalEncoding.__init__ d seq dr) = true).
  { destruct Hd as [-> | [Hd0 Hev]]; [apply PositionalEncoding_init_one |].
    apply Nat.even_spec in Hev. destruct Hev as [k ->].
    apply PositionalEncoding_init_even. lia. }
  destruct (PositionalEncoding.__init__ d seq dr) as [self | e] eqn:E;
    [| discriminate].
  destruct (PositionalEncoding_init_fields d seq dr self E) as (H1 & H2 & H3).
  destruct (PositionalEncoding_init_table d seq dr self E) as (cos_vals & Hpe & _).
  destruct (length_table_of d seq cos_vals) as [Hl Hrows].
  exists self, (table_of d seq cos_vals). repeat (split; [assumption || reflexivity |]).
  exact Hrows.
Qed.

Lemma PositionalEncoding_init_rejects (d seq : nat) (dr : pyval) :
  3 <= d -> Nat.odd d = true ->
  PositionalEncoding.__init__ d seq dr = Err RuntimeError.
Proof.
  intros Hd Hodd. apply Nat.odd_spec in Hodd. destruct Hodd as [k ->].
  apply PositionalEncoding_init_odd. lia.
Qed.

(** *** The blocks of an encoder layer *)

Lemma MultiHeadAttention_init_returns (d h : nat) (p : scalar) :
  h <> 0 -> d mod h = 0 -> is_ok (nn_Dropout p) = true ->
  returns (MultiHeadAttention.__init__ d h p)
          (fun m => MultiHeadAttention.d_model m = d /\ MultiHeadAttention.h m = h /\
                    MultiHeadAttention.d_k m = d / h /\
                    MultiHeadAttention.attention_scores m = None).
Proof.
  intros Hh Hmod Hp. unfold MultiHeadAttention.__init__.
  destruct (Nat.eqb_spec h 0) as [| _]; [contradiction |].
  rewrite Hmod. cbn [Nat.eqb negb].
  eapply returns_bind; [apply nn_Linear_returns |]. intros wq _.
  eapply returns_bind; [apply nn_Linear_returns |]. intros wk _.
  eapply returns_bind; [apply nn_Linear_returns |]. intros wv _.
  eapply returns_bind; [apply nn_Linear_returns |]. intros wo _.
  destruct (nn_Dropout p) as [dr | e]; [| discriminate].
  apply returns_lift_ok, returns_ret. cbn. auto.
Qed.

Lemma MultiHeadAttention_init_raises (d h : nat) (p : scalar) :
  (h = 0 -> raises ZeroDivisionError (MultiHeadAttention.__init__ d h p)) /\
  (h <> 0 -> d mod h <> 0 -> raises AssertionError (MultiHeadAttention.__init__ d h p)) /\
  (h <> 0 -> d mod h = 0 -> is_ok (nn_Dropout p) = false ->
   raises ValueError (MultiHeadAttention.__init__ d h p)).
Proof.
  unfold MultiHeadAttention.__init__. split; [| split].
  - intros ->. cbn [Nat.eqb]. intros s. now exists s.
  - intros Hh Hmod. destruct (Nat.eqb_spec h 0) as [| _]; [contradiction |].
    destruct (Nat.eqb_spec (d mod h) 0) as [| _]; [contradiction |]. cbn [negb].
    intros s. now exists s.
  - intros Hh Hmod Hp. destruct (Nat.eqb_spec h 0) as [| _]; [contradiction |].
    rewrite Hmod. cbn [Nat.eqb negb].
    eapply raises_bind; [apply nn_Linear_returns |]. intros wq _.
    eapply raises_bind; [apply nn_Linear_returns |]. intros wk _.
    eapply raises_bind; [apply nn_Linear_returns |]. intros wv _.
    eapply raises_bind; [apply nn_Linear_returns |]. intros wo _.
    apply raises_bind_l, raises_lift.
    unfold nn_Dropout in Hp |- * .
    destruct (s_ltb p zero || s_ltb one p); [reflexivity | discriminate].
Qed.

Lemma FeedForward_init_returns (d d_ff : nat) (dr : pyval) :
  returns (FeedForward.__init__ d d_ff dr)
          (fun ff => FeedForward.dropout ff = dr /\
                     wf_linear d d_ff (FeedForward.linear1 ff) /\
                     wf_linear d_ff d (FeedForward.linear2 ff)).
Proof.
  unfold FeedForward.__init__.
  eapply returns_bind; [apply nn_Linear_returns |]. intros l1 H1.
  eapply returns_bind; [apply nn_Linear_returns |]. intros l2 H2.
  apply returns_ret. cbn. auto.
Qed.

Lemma ResidualConnection_init_ok (d : nat) (p : scalar) :
  is_ok (nn_Dropout p) = true ->
  exists rc, ResidualConnection.__init__ d p = Ok rc /\
             LayerNormalization.alpha (ResidualConnection.norm rc) = repeat one d /\
             LayerNormalization.beta (ResidualConnection.norm rc) = repeat zero d /\
             nn_Dropout p = Ok (ResidualConnection.dropout rc).
Proof.
  intros Hp. unfold ResidualConnection.__init__. cbn [LayerNormalization.__init__ rbind].
  destruct (nn_Dropout p) as [dr | e]; [| discriminate].
  cbn [rbind]. eexists. split; [reflexivity |]. cbn. auto.
Qed.

Lemma EncoderLayer_init_returns (d h d_ff : nat) (p : scalar) :
  h <> 0 -> d mod h = 0 -> is_ok (nn_Dropout p) = true ->
  returns (EncoderLayer.__init__ d h d_ff p)
          (fun l =>
             FeedForward.dropout (EncoderLayer.feed_forward l) = PyFloat p /\
             MultiHeadAttention.d_model (EncoderLayer.multi_head_attention l) = d /\
             MultiHeadAttention.h (EncoderLayer.multi_head_attention l) = h /\
             MultiHeadAttention.d_k (EncoderLayer.multi_head_attention l) = d / h /\
             ResidualConnection.__init__ d p = Ok (EncoderLayer.residual_connection l) /\
             ResidualConnection.__init__ d p
             = Ok (EncoderLayer.residual_connection_ff l)).
Proof.
  intros Hh Hmod Hp. unfold EncoderLayer.__init__.
  eapply returns_bind; [apply MultiHeadAttention_init_returns; assumption |].
  intros mha (Hd & Hh' & Hk & _).
  eapply returns_bind; [apply FeedForward_init_returns |]. intros ff (Hff & _).
  destruct (ResidualConnection_init_ok d p Hp) as (rc & Erc & _).
  rewrite Erc. apply returns_lift_ok, returns_lift_ok, returns_ret. cbn.
  repeat split; assumption || reflexivity.
Qed.

End Constructors.

(** X7. What [PositionalEncoding(d_model, seq_len, dropout)] does depends on
    the width alone: width 0 raises [ZeroDivisionError], an odd width from 3
    on raises [RuntimeError] (the cosine columns do not fit), and width 1 or
    an even width returns a module whose table has shape
    (1, seq_len, d_model).  The [dropout] argument is stored as it is,
    whatever it is. *)
Theorem PositionalEncoding_init_by_width :
  forall (A : Arith) (d_model seq_len : nat) (dropout : pyval),
    (d_model = 0 ->
     PositionalEncoding.__init__ d_model seq_len dropout = Err ZeroDivisionError) /\
    (3 <= d_model -> Nat.odd d_model = true ->
     PositionalEncoding.__init__ d_model seq_len dropout = Err RuntimeError) /\
    (d_model = 1 \/ (d_model <> 0 /\ Nat.even d_model = true) ->
     exists self table,
       PositionalEncoding.__init__ d_model seq_len dropout = Ok self /\
       PositionalEncoding.d_model self = d_model /\
       PositionalEncoding.seq_len self = seq_len /\
       PositionalEncoding.dropout self = dropout /\
       PositionalEncoding.pe self = [table] /\
       length table = seq_len /\ Forall (fun row => length row = d_model) table).
Proof.
  intros A d_model seq_len dropout. split; [| split].
  - intros ->. apply PositionalEncoding_init_zero.
  - apply PositionalEncoding_init_rejects.
  - apply PositionalEncoding_init_accepts.
Qed.

(** X8. [EncoderLayer(d_model, h, d_ff, dropout)] raises
    [ZeroDivisionError] when [h] is 0, [AssertionError] when [h] does not
    divide [d_model], and [ValueError] when [dropout] is not a probability;
    otherwise it returns.  The layer it returns holds an attention block of
    [h] heads of width [d_model / h], two residual connections, and a
    feed-forward block whose [dropout] attribute is the number [dropout]
    itself, not a dropout module. *)
Theorem EncoderLayer_init_outcome :
  forall (A : Arith) (d_model h d_ff : nat) (dropout : scalar),
    (h = 0 -> raises ZeroDivisionError (EncoderLayer.__init__ d_model h d_ff dropout)) /\
    (h <> 0 -> d_model mod h <> 0 ->
     raises AssertionError (EncoderLayer.__init__ d_model h d_ff dropout)) /\
    (h <> 0 -> d_model mod h = 0 -> is_ok (nn_Dropout dropout) = false ->
     raises ValueError (EncoderLayer.__init__ d_model h d_ff dropout)) /\
    (h <> 0 -> d_model mod h = 0 -> is_ok (nn_Dropout dropout) = true ->
     returns (EncoderLayer.__init__ d_model h d_ff dropout)
       (fun l =>
          FeedForward.dropout (EncoderLayer.feed_forward l) = PyFloat dropout /\
          MultiHeadAttention.d_model (EncoderLayer.multi_head_attention l) = d_model /\
          MultiHeadAttention.h (EncoderLayer.multi_head_attention l) = h /\
          MultiHeadAttention.d_k (EncoderLayer.multi_head_attention l) = d_model / h /\
          ResidualConnection.__init__ d_model dropout
          = Ok (EncoderLayer.residual_connection l) /\
          ResidualConnection.__init__ d_model dropout
          = Ok (EncoderLayer.residual_connection_ff l))).
Proof.
  intros A d_model h d_ff dropout.
  destruct (MultiHeadAttention_init_raises d_model h dropout) as (H0 & Hassert & Hval).
  split; [| split; [| split]].
  - intros Hh. apply raises_bind_l, H0, Hh.
  - intros Hh Hmod. apply raises_bind_l, Hassert; assumption.
  - intros Hh Hmod Hp. apply raises_bind_l, Hval; assumption.
  - apply EncoderLayer_init_returns.
Qed.

(** X9. The exception of [build_transformer], for a head count that divides
    [d_model] and a [dropout] that is a probability: [ZeroDivisionError] when
    [d_model] is 0, [RuntimeError] when it is odd and at least 3 (both from
    the positional encoding); otherwise [NameError] from the first decoder
    layer when [N] is at least 1, and [TypeError] from [Encoder] when [N] is
    0. *)
Theorem build_transformer_exception :
  forall (A : Arith) (src_vocab_size tgt_vocab_size d_model h d_ff N : nat)
         (dropout : scalar) (src_seq_len tgt_seq_len : nat),
    h <> 0 -> d_model mod h = 0 -> is_ok (nn_Dropout dropout) = true ->
    raises (if d_model =? 0 then ZeroDivisionError
            else if Nat.odd d_model && (3 <=? d_model) then RuntimeError
            else if N =? 0 then TypeError else NameError)
           (build_transformer src_vocab_size tgt_vocab_size d_model h d_ff N
              dropout src_seq_len tgt_seq_len).
Proof.
  intros A sv tv d h d_ff N p sl tl Hh Hmod Hp. unfold build_transformer.
  eapply raises_bind; [apply InputEmbeddings_init_returns |]. intros se _.
  eapply raises_bind; [apply InputEmbeddings_init_returns |]. intros te _.
  destruct (Nat.eqb_spec d 0) as [-> | Hd].
  { apply raises_bind_l, raises_lift, PositionalEncoding_init_zero. }
  destruct (Nat.odd d && (3 <=? d)) eqn:Hodd.
  { apply andb_prop in Hodd. destruct Hodd as [Ho H3]. apply Nat.leb_le in H3.
    apply raises_bind_l, raises_lift, PositionalEncoding_init_rejects; assumption. }
  assert (Hw : d = 1 \/ (d <> 0 /\ Nat.even d = true)).
  { apply andb_false_iff in Hodd. destruct Hodd as [Ho | H3].
    - right. split; [exact Hd |]. rewrite <- Nat.negb_odd, Ho. reflexivity.
    - apply Nat.leb_gt in H3.
      assert (d = 1 \/ d = 2) as [-> | ->] by lia; [now left | right; now split]. }
  destruct (PositionalEncoding_init_accepts d sl (PyFloat p) Hw) as (sp & ? & Esp & _).
  destruct (PositionalEncoding_init_accepts d tl (PyFloat p) Hw) as (tp & ? & Etp & _).
  rewrite Esp, Etp. apply raises_lift_ok, raises_lift_ok.
  eapply raises_bind.
  { apply returns_mapM with (P := fun _ : EncoderLayer.t => True). intros _.
    eapply returns_bind; [apply MultiHeadAttention_init_returns; assumption |].
    intros _ _.
    eapply returns_bind; [apply FeedForward_init_returns |]. intros _ _.
    eapply returns_weaken; [apply EncoderLayer_init_returns; assumption |].
    intros; exact I. }
  intros encoder_block _.
  destruct N as [| n]; cbn [Nat.eqb seq mapM].
  - apply raises_lift_ok, raises_bind_l, raises_lift, Encoder_init_raises.
  - apply raises_bind_l, raises_bind_l.
    eapply raises_bind; [apply MultiHeadAttention_init_returns; assumption |].
    intros sa _.
    eapply raises_bind; [apply MultiHeadAttention_init_returns; assumption |].
    intros ca _.
    eapply raises_bind; [apply FeedForward_init_returns |]. intros ff _.
    apply raises_lift, DecoderLayer_init_raises.
Qed.

Lemma build_transformer_exception_witness :
  exists g', @build_transformer RArith 5 5 4 2 8 1 0%R 3 3 (fun _ => 0%R)
             = (Err NameError, g').
Proof.
  exact (build_transformer_exception RArith 5 5 4 2 8 1 0%R 3 3
           ltac:(discriminate) eq_refl nn_Dropout_zero_ok (fun _ => 0%R)).
Defined.

(** ** The feed-forward block and the layers around it *)

Section Blocks.
Context {A : Arith}.

(** With a number in the place of its dropout module, the block fails at
    the call of the number, or before it in the first linear map. *)
Lemma FeedForward_forward_float (ff : FeedForward.t) (p : scalar) (x : T3) (g : rng) :
  FeedForward.dropout ff = PyFloat p ->
  FeedForward.forward ff x g
  = (Err (if is_ok (Linear_forward (FeedForward.linear1 ff) x)
          then TypeError else RuntimeError), g).
Proof.
  intros Hp. unfold FeedForward.forward. rewrite Hp.
  destruct (Linear_forward (FeedForward.linear1 ff) x) as [y | e] eqn:E.
  - reflexivity.
  - apply Linear_forward_err in E. subst e. reflexivity.
Qed.

Lemma FeedForward_sublayer_never_returns {P} (rc : ResidualConnection.t)
      (ff : FeedForward.t) (p : scalar) (x : T3) :
  FeedForward.dropout ff = PyFloat p ->
  never_returns
    (@ResidualConnection.forward A P rc x
       (fun n => with_rng (FeedForward.forward ff n))).
Proof.
  intros Hp. unfold ResidualConnection.forward.
  apply never_returns_bind. intros n. apply never_returns_bind_l.
  intros s. rewrite with_rng_run, (FeedForward_forward_float ff p n (snd s) Hp).
  cbn [fst snd]. eauto.
Qed.

(** If [m] keeps an observation of [self] and what follows fails whenever
    the observation is what it was, the sequence fails. *)
Lemma never_returns_after {P X Y O} (obs : P -> O) (m : M (P * rng) X)
      (k : X -> M (P * rng) Y) (s : P * rng) :
  preserves obs m ->
  (forall x s', obs (fst s') = obs (fst s) -> exists e s'', k x s' = (Err e, s'')) ->
  exists e s'', bind m k s = (Err e, s'').
Proof.
  intros Hm Hk. unfold bind. pose proof (Hm s) as Hs.
  destruct (m s) as [[x | e] s'].
  - apply Hk. exact Hs.
  - eauto.
Qed.

Lemma has_shape3_map (f : scalar -> scalar) (B S D : nat) (x : T3) :
  has_shape3 B S D x -> has_shape3 B S D (map (map (map f)) x).
Proof.
  intros [HB Hx]. rewrite Forall_forall in Hx.
  split; [now rewrite length_map |].
  apply Forall_map, Forall_forall. intros m Hm.
  destruct (Hx m Hm) as [HS Hrows]. rewrite Forall_forall in Hrows.
  split; [now rewrite length_map |].
  apply Forall_map, Forall_forall. intros v Hv. rewrite length_map. now apply Hrows.
Qed.

Lemma dropout3_shape (d : Dropout) (B S D : nat) (x : T3) :
  has_shape3 B S D x -> returns (dropout3 d x) (has_shape3 B S D).
Proof.
  intros Hs. unfold dropout3. destruct (training d); [| now apply returns_ret].
  destruct Hs as [HB Hb]. rewrite Forall_forall in Hb.
  eapply returns_weaken.
  - apply returns_mapM_in with (P := rect S D). intros m Hm.
    destruct (Hb m Hm) as [HS Hrows]. rewrite Forall_forall in Hrows.
    eapply returns_weaken.
    + apply returns_mapM_in with (P := fun row : Vec => length row = D).
      intros row Hrow.
      eapply returns_weaken.
      * apply returns_mapM with (P := fun _ : scalar => True).
        intros a. apply dropout_scalar_returns.
      * cbn beta. intros r [Hr _]. rewrite Hr. now apply Hrows.
    + cbn beta. intros r [Hr Hall]. split; [congruence | exact Hall].
  - cbn beta. intros r [Hr Hall]. split; [congruence | exact Hall].
Qed.

End Blocks.

(** X10. A feed-forward block built with a number as [dropout], which is
    how [EncoderLayer] and [build_transformer] build it, never returns from
    [forward]: it raises [TypeError] (the number is called) when every token
    has width [d_model], and [RuntimeError] from the first linear map
    otherwise.  The generator is not advanced. *)
Theorem FeedForward_float_dropout_raises :
  forall (A : Arith) (d_model d_ff : nat) (p : scalar) (g g' : rng)
         (self : FeedForward.t) (x : T3) (g1 : rng),
    FeedForward.__init__ d_model d_ff (PyFloat p) g = (Ok self, g') ->
    exists e,
      FeedForward.forward self x g1 = (Err e, g1) /\
      (e = TypeError \/ e = RuntimeError) /\
      (e = TypeError <-> Forall (Forall (fun v => length v = d_model)) x).
Proof.
  intros A d_model d_ff p g g' self x g1 Hinit.
  destruct (FeedForward_init_returns d_model d_ff (PyFloat p) g)
    as (self0 & g0 & E0 & Hp & Hl1 & _).
  rewrite Hinit in E0. injection E0 as <- <-.
  eexists. split; [apply (FeedForward_forward_float self p x g1 Hp) |].
  pose proof (Linear_forward_ok (FeedForward.linear1 self) x) as Hok.
  destruct Hl1 as (Hin & _). rewrite Hin in Hok.
  destruct (is_ok (Linear_forward (FeedForward.linear1 self) x)).
  - split; [now left |]. split; [intros _; now apply Hok | reflexivity].
  - split; [now right |]. split; [discriminate |].
    intros H. apply Hok in H. discriminate.
Qed.

Lemma FeedForward_float_dropout_raises_witness :
  exists self g',
    @FeedForward.__init__ RArith 2 4 (PyFloat 0%R) (fun _ => 0%R) = (Ok self, g') /\
    FeedForward.forward self [[[1; 2]]]%R (fun _ => 0%R)
    = (Err TypeError, fun _ => 0%R).
Proof.
  eexists _, _. split; [reflexivity |].
  destruct (FeedForward_float_dropout_raises RArith 2 4 0%R (fun _ => 0%R) _ _
              [[[1; 2]]]%R (fun _ => 0%R) eq_refl) as (e & Hrun & _ & Hiff).
  rewrite Hrun. f_equal. f_equal. apply Hiff. repeat constructor.
Defined.

(** X11. An encoder layer that [EncoderLayer(d_model, h, d_ff, dropout)]
    has returned never returns from [forward], whatever the input and the
    mask: its feed-forward block holds the number [dropout] where a module
    is called.  The parameters of the layer are left as they were. *)
Theorem EncoderLayer_forward_never_returns :
  forall (A : Arith) (d_model h d_ff : nat) (dropout : scalar) (g g' : rng)
         (self : EncoderLayer.t),
    EncoderLayer.__init__ d_model h d_ff dropout g = (Ok self, g') ->
    forall (x : T3) (mask : option MultiHeadAttention.mask_t) (g1 : rng),
    exists e s',
      EncoderLayer.forward x mask (self, g1) = (Err e, s') /\
      EncoderLayer.parameters (fst s') = EncoderLayer.parameters self.
Proof.
  intros A d_model h d_ff dropout g g' self Hinit x mask g1.
  assert (Hff : FeedForward.dropout (EncoderLayer.feed_forward self) = PyFloat dropout).
  { unfold EncoderLayer.__init__ in Hinit.
    apply bind_ok_inv in Hinit. destruct Hinit as (mha & s1 & _ & Hinit).
    apply bind_ok_inv in Hinit. destruct Hinit as (ff & s2 & Eff & Hinit).
    apply bind_ok_inv in Hinit. destruct Hinit as (rc & s3 & _ & Hinit).
    apply bind_ok_inv in Hinit. destruct Hinit as (rc_ff & s4 & _ & Hinit).
    destruct (FeedForward_init_returns d_model d_ff (PyFloat dropout) s1)
      as (ff0 & s0 & E0 & Hp & _).
    rewrite Eff in E0. injection E0 as <- <-.
    unfold ret in Hinit. injection Hinit as <- <-. exact Hp. }
  assert (Hraise : exists e s', EncoderLayer.forward x mask (self, g1) = (Err e, s')).
  { unfold EncoderLayer.forward. rewrite bind_get_self. cbn [fst].
    apply never_returns_after with (obs := EncoderLayer.feed_forward).
    - apply preserves_residual. intros n.
      apply preserves_zoom_self with (obs' := fun _ : MultiHeadAttention.t => tt).
      + intros s. reflexivity.
      + intros c l _. reflexivity.
    - intros x1 s1 Hs1. rewrite bind_get_self. cbn [fst] in Hs1.
      apply (FeedForward_sublayer_never_returns
               (EncoderLayer.residual_connection_ff (fst s1))
               (EncoderLayer.feed_forward (fst s1)) dropout x1).
      rewrite Hs1. exact Hff. }
  destruct Hraise as (e & s' & E). exists e, s'. split; [exact E |].
  pose proof (EncoderLayer_forward_parameters x mask (self, g1)) as Hp.
  rewrite E in Hp. exact Hp.
Qed.

Lemma EncoderLayer_forward_never_returns_witness :
  exists self g',
    @EncoderLayer.__init__ RArith 2 1 4 0%R (fun _ => 0%R) = (Ok self, g') /\
    exists e s',
      EncoderLayer.forward [[[1; 2]]]%R None (self, fun _ => 0%R) = (Err e, s').
Proof.
  destruct (@EncoderLayer_init_returns RArith 2 1 4 0%R ltac:(discriminate) eq_refl
              nn_Dropout_zero_ok (fun _ => 0%R)) as (self & g' & Hinit & _).
  exists self, g'. split; [exact Hinit |].
  destruct (EncoderLayer_forward_never_returns RArith 2 1 4 0%R (fun _ => 0%R) g' self
              Hinit [[[1; 2]]]%R None (fun _ => 0%R)) as (e & s' & Hrun & _).
  exists e, s'. exact Hrun.
Defined.

(** X12. A feed-forward block built with a dropout module maps an input of
    shape (B, S, d_model) to an output of the same shape, in either mode of
    the module.  When the module is in evaluation mode the output is
    [linear2(relu(linear1(x)))] and the generator is not advanced. *)
Theorem FeedForward_forward_run :
  forall (A : Arith) (d_model d_ff : nat) (d : Dropout) (g g' : rng)
         (self : FeedForward.t) (x : T3) (B S : nat) (g1 : rng),
    FeedForward.__init__ d_model d_ff (PyDropout d) g = (Ok self, g') ->
    has_shape3 B S d_model x ->
    exists out g2,
      FeedForward.forward self x g1 = (Ok out, g2) /\
      has_shape3 B S d_model out /\
      (training d = false ->
       g2 = g1 /\
       out = linear_map (FeedForward.linear2 self)
               (map (map (map relu)) (linear_map (FeedForward.linear1 self) x))).
Proof.
  intros A d_model d_ff d g g' self x B S g1 Hinit Hx.
  destruct (FeedForward_init_returns d_model d_ff (PyDropout d) g)
    as (self0 & g0 & E0 & Hp & Hl1 & Hl2).
  rewrite Hinit in E0. injection E0 as <- <-.
  destruct (Linear_forward_shape (FeedForward.linear1 self) d_model d_ff B S x Hl1 Hx)
    as [E1 Hs1].
  set (y := map (map (map relu)) (linear_map (FeedForward.linear1 self) x)).
  assert (Hy : has_shape3 B S d_ff y) by (apply has_shape3_map; exact Hs1).
  destruct (dropout3_shape d B S d_ff y Hy g1) as (r & g2 & Edrop & Hr).
  destruct (Linear_forward_shape (FeedForward.linear2 self) d_ff d_model B S r Hl2 Hr)
    as [E2 Hs2].
  exists (linear_map (FeedForward.linear2 self) r), g2.
  split; [| split; [exact Hs2 |]].
  - unfold FeedForward.forward. rewrite Hp, E1, bind_lift_ok. fold y.
    cbn [py_call]. unfold bind, ret, lift. rewrite Edrop. cbn [as_tensor].
    rewrite E2. reflexivity.
  - intros Htrain. rewrite (dropout3_eval d y g1 Htrain) in Edrop.
    injection Edrop as <- <-. split; reflexivity.
Qed.

Lemma FeedForward_forward_run_witness :
  exists self g' out g2,
    @FeedForward.__init__ RArith 2 4 (PyDropout (@Build_Dropout RArith 0%R false))
      (fun _ => 0%R) = (Ok self, g') /\
    FeedForward.forward self [[[1; 2]]]%R (fun _ => 0%R) = (Ok out, g2) /\
    has_shape3 1 1 2 out.
Proof.
  assert (Hs : @has_shape3 RArith 1 1 2 [[[1; 2]]]%R)
    by (split; [reflexivity | repeat constructor]).
  eexists _, _.
  destruct (FeedForward_forward_run RArith 2 4 (@Build_Dropout RArith 0%R false)
              (fun _ => 0%R) _ _ [[[1; 2]]]%R 1 1 (fun _ => 0%R) eq_refl Hs)
    as (out & g2 & Hrun & Hshape & _).
  exists out, g2. split; [reflexivity |]. split; [exact Hrun | exact Hshape].
Defined.

(** X13. [Transformer.encode] and [Transformer.decode] never return,
    however the model was put together.  When the embedding returns, the
    positional encoding raises [TypeError]; when it does not, it has raised
    [IndexError] for a token id beyond the rows of its table, or
    [RuntimeError] when its table has no row at all.  In every case the
    model and the generator are left as they were, and neither the encoder
    nor the decoder is reached. *)
Theorem Transformer_encode_decode_raise :
  forall (A : Arith) (t : Transformer.t) (g : rng),
    (forall src src_mask,
        Transformer.encode src src_mask (t, g)
        = (Err (if is_ok (InputEmbeddings.forward (Transformer.src_embed t) src)
                then TypeError
                else match InputEmbeddings.embedding (Transformer.src_embed t) with
                     | [] => RuntimeError
                     | _ :: _ => IndexError
                     end), (t, g))) /\
    (forall encoder_output src_mask tgt tgt_mask,
        Transformer.decode encoder_output src_mask tgt tgt_mask (t, g)
        = (Err (if is_ok (InputEmbeddings.forward (Transformer.tgt_embed t) tgt)
                then TypeError
                else match InputEmbeddings.embedding (Transformer.tgt_embed t) with
                     | [] => RuntimeError
                     | _ :: _ => IndexError
                     end), (t, g))).
Proof.
  intros A t g. split.
  - intros src src_mask. unfold Transformer.encode. rewrite bind_get_self. cbn [fst].
    destruct (InputEmbeddings.forward (Transformer.src_embed t) src) as [x | e] eqn:E.
    + reflexivity.
    + apply InputEmbeddings_forward_err in E. subst e. reflexivity.
  - intros encoder_output src_mask tgt tgt_mask. unfold Transformer.decode.
    rewrite bind_get_self. cbn [fst].
    destruct (InputEmbeddings.forward (Transformer.tgt_embed t) tgt) as [x | e] eqn:E.
    + reflexivity.
    + apply InputEmbeddings_forward_err in E. subst e. reflexivity.
Qed.

(** ** Masks, heads and values *)

Section Masks.
Context {A : Arith}.

Lemma imap_from_id {X} (f : nat -> X -> X) (l : list X) (k : nat) :
  (forall i a, f i a = a) -> imap_from k f l = l.
Proof.
  intros H. revert k. induction l as [| a l IH]; intros k; cbn [imap_from].
  - reflexivity.
  - now rewrite H, IH.
Qed.

Lemma masked_fill_no_zero (m : MultiHeadAttention.mask_t) (c : scalar) (s : T4) :
  (forall b j i k, m b j i k <> 0%Z) -> MultiHeadAttention.masked_fill m c s = s.
Proof.
  intros Hm. unfold MultiHeadAttention.masked_fill, imap.
  apply imap_from_id. intros b sb. apply imap_from_id. intros j sj.
  apply imap_from_id. intros i row. apply imap_from_id. intros k x.
  destruct (Z.eqb_spec (m b j i k) 0) as [E | _]; [now apply Hm in E | reflexivity].
Qed.

Lemma bind_cong_l {St X Y} (m m' : M St X) (k : X -> M St Y) (s : St) :
  m s = m' s -> bind m k s = bind m' k s.
Proof. unfold bind. now intros ->. Qed.

Lemma attention_no_zero (Q K V : T4) (m : MultiHeadAttention.mask_t)
      (dropout : option Dropout) (g : rng) :
  (forall b j i k, m b j i k <> 0%Z) ->
  MultiHeadAttention.attention Q K V (Some m) dropout g
  = MultiHeadAttention.attention Q K V None dropout g.
Proof.
  intros Hm. unfold MultiHeadAttention.attention.
  apply bind_ext_on. intros s g' _. cbv beta iota zeta.
  now rewrite masked_fill_no_zero.
Qed.

Lemma forward_no_zero (q k v : T3) (m : MultiHeadAttention.mask_t)
      (s : MultiHeadAttention.t * rng) :
  (forall b j i k, m b j i k <> 0%Z) ->
  MultiHeadAttention.forward q k v (Some m) s
  = MultiHeadAttention.forward q k v None s.
Proof.
  intros Hm. unfold MultiHeadAttention.forward.
  do 7 (apply bind_ext_on; intros ? ? _).
  apply bind_cong_l. rewrite !with_rng_run.
  now rewrite attention_no_zero.
Qed.

(** *** Splitting into heads and merging back *)

Lemma nth_map_default {X Y} (f : X -> Y) (l : list X) (i : nat) (dx : X) (dy : Y) :
  i < length l -> nth i (map f l) dy = f (nth i l dx).
Proof.
  intros Hi. rewrite nth_indep with (d' := f dx) by (now rewrite length_map).
  apply map_nth.
Qed.

Lemma concat_heads_split_heads (B S h d_k : nat) (x : T3) :
  h <> 0 -> d_k <> 0 -> has_shape3 B S (h * d_k) x ->
  concat_heads S (split_heads h d_k x) = x.
Proof.
  intros Hh Hk [HB Hx]. rewrite Forall_forall in Hx.
  unfold concat_heads, split_heads. rewrite map_map.
  transitivity (map (fun xb : Mat => xb) x); [| apply map_id].
  apply map_ext_in. intros xb Hxb. destruct (Hx xb Hxb) as [HS Hrows].
  rewrite Forall_forall in Hrows.
  transitivity (map (fun i => nth i xb []) (seq 0 S)).
  - apply map_ext_in. intros i Hi. apply in_seq in Hi.
    rewrite map_map.
    assert (Htok : length (nth i xb []) = h * d_k) by (apply Hrows, nth_In; lia).
    transitivity (concat (view_rows d_k (nth i xb []))).
    + f_equal. unfold view_rows. rewrite Htok, Nat.div_mul by exact Hk.
      apply map_ext. intros j. unfold head.
      apply (nth_map_default (fun t => firstn d_k (skipn (j * d_k) t)) xb i [] []).
      lia.
    + apply (view_rows_spec d_k h (nth i xb []) Hk Htok).
  - rewrite <- HS. apply map_nth_seq_id.
Qed.

(** *** Values that do not match the keys *)

Lemma matmul_mismatch (r c n : nat) (a b : Mat) :
  r <> 0 -> rect r c a -> length b = n -> n <> c -> matmul a b = Err RuntimeError.
Proof.
  intros Hr [Ha Hrows] Hb Hn. unfold matmul.
  destruct a as [| row a]; [cbn in Ha; lia |].
  pose proof (Forall_inv Hrows) as Hrow. cbn beta in Hrow.
  cbn [forallb]. rewrite Hrow.
  destruct (Nat.eqb_spec c (length b)) as [E | _]; [congruence | reflexivity].
Qed.

Lemma zipR_head_err {X Y Z} (f : X -> Y -> result Z) (x : X) (xs : list X)
      (y : Y) (ys : list Y) (e : exn) :
  f x y = Err e -> zipR f (x :: xs) (y :: ys) = Err e.
Proof. intros H. cbn [zipR]. now rewrite H. Qed.

Lemma weighted_values_mismatch (B h S_q S_k S_v d_v : nat) (P V : T4) :
  B <> 0 -> h <> 0 -> S_q <> 0 -> S_v <> S_k ->
  has_shape4 B h S_q S_k P -> has_shape4 B h S_v d_v V ->
  bzipR (bzipR matmul) P V = Err RuntimeError.
Proof.
  intros HB Hh HSq Hne [HP HPb] [HV HVb].
  rewrite bzipR_same_length by congruence.
  destruct P as [| Pb P]; [cbn in HP; lia |].
  destruct V as [| Vb V]; [cbn in HV; lia |].
  destruct (Forall_inv HPb) as [HPh HPj].
  destruct (Forall_inv HVb) as [HVh HVj].
  apply zipR_head_err.
  rewrite bzipR_same_length by congruence.
  destruct Pb as [| Pj Pb]; [cbn in HPh; lia |].
  destruct Vb as [| Vj Vb]; [cbn in HVh; lia |].
  pose proof (Forall_inv HPj) as HPr.
  destruct (Forall_inv HVj) as [HVr _].
  apply zipR_head_err.
  apply (matmul_mismatch S_q S_k S_v Pj Vj HSq HPr HVr Hne).
Qed.

End Masks.

(** X14. A mask with no entry 0 is no mask: [masked_fill] returns the
    scores as they are, and [attention] and [MultiHeadAttention.forward]
    give, result and state, what they give without a mask. *)
Theorem mask_without_zero_is_no_mask :
  forall (A : Arith) (m : MultiHeadAttention.mask_t),
    (forall b j i k, m b j i k <> 0%Z) ->
    (forall (c : scalar) (scores : T4),
        MultiHeadAttention.masked_fill m c scores = scores) /\
    (forall (Q K V : T4) (dropout : option Dropout) (g : rng),
        MultiHeadAttention.attention Q K V (Some m) dropout g
        = MultiHeadAttention.attention Q K V None dropout g) /\
    (forall (q k v : T3) (s : MultiHeadAttention.t * rng),
        MultiHeadAttention.forward q k v (Some m) s
        = MultiHeadAttention.forward q k v None s).
Proof.
  intros A m Hm. split; [| split].
  - intros c scores. now apply masked_fill_no_zero.
  - intros Q K V dropout g. now apply attention_no_zero.
  - intros q k v s. now apply forward_no_zero.
Qed.

Lemma mask_without_zero_is_no_mask_witness :
  @MultiHeadAttention.forward RArith [[[1; 2]; [3; 4]]]%R [[[1; 2]; [3; 4]]]%R
    [[[1; 2]; [3; 4]]]%R (Some (fun _ _ _ _ => 1%Z)) (example_attention, fun _ => 0%R)
  = MultiHeadAttention.forward [[[1; 2]; [3; 4]]]%R [[[1; 2]; [3; 4]]]%R
      [[[1; 2]; [3; 4]]]%R None (example_attention, fun _ => 0%R).
Proof.
  apply (mask_without_zero_is_no_mask RArith (fun _ _ _ _ => 1%Z)).
  intros b j i k. discriminate.
Defined.

(** X15. Splitting into heads and merging back is a round trip: for [x] of
    shape (B, S, h*d_k) with no extent 0, [view(B,-1,h,d_k).transpose(1,2)]
    returns heads of shape (B, h, S, d_k), and
    [transpose(1,2).contiguous().view(B,-1,h*d_k)] of these heads returns
    [x]. *)
Theorem split_merge_round_trip :
  forall (A : Arith) (B S h d_k : nat) (x : T3),
    B <> 0 -> S <> 0 -> h <> 0 -> d_k <> 0 ->
    has_shape3 B S (h * d_k) x ->
    exists heads,
      rmap MultiHeadAttention.transpose12 (MultiHeadAttention.view4 h d_k x) = Ok heads /\
      has_shape4 B h S d_k heads /\
      MultiHeadAttention.view3 (h * d_k) (MultiHeadAttention.transpose12 heads) = Ok x.
Proof.
  intros A B S h d_k x HB HS Hh Hk Hx.
  exists (split_heads h d_k x).
  pose proof (split_heads_shape B S h d_k x Hx) as Hshape.
  split; [apply (split_heads_view B S h d_k x HB HS Hh Hk Hx) |].
  split; [exact Hshape |].
  destruct (concat_heads_view B h S d_k (split_heads h d_k x) HB Hh HS Hk Hshape)
    as [E _].
  rewrite E. f_equal. apply (concat_heads_split_heads B S h d_k x Hh Hk Hx).
Qed.

Lemma split_merge_round_trip_witness :
  exists heads,
    rmap MultiHeadAttention.transpose12
      (@MultiHeadAttention.view4 RArith 2 2 [[[1; 2; 3; 4]; [5; 6; 7; 8]]]%R) = Ok heads /\
    MultiHeadAttention.view3 4 (MultiHeadAttention.transpose12 heads)
    = Ok [[[1; 2; 3; 4]; [5; 6; 7; 8]]]%R.
Proof.
  assert (Hs : @has_shape3 RArith 1 2 (2 * 2) [[[1; 2; 3; 4]; [5; 6; 7; 8]]]%R)
    by (split; [reflexivity | repeat constructor]).
  destruct (split_merge_round_trip RArith 1 2 2 2 [[[1; 2; 3; 4]; [5; 6; 7; 8]]]%R
              ltac:(discriminate) ltac:(discriminate) ltac:(discriminate)
              ltac:(discriminate) Hs) as (heads & Hsplit & _ & Hmerge).
  exists heads. split; [exact Hsplit | exact Hmerge].
Defined.

(** X16. [attention] needs as many values as keys: with queries
    (B, h, S_q, d_k), keys (B, h, S_k, d_k) and values (B, h, S_v, d_v)
    where [S_v] differs from [S_k] (and no extent of the scores is 0), it
    raises [RuntimeError] at the product of the weights and the values,
    with or without a mask or a dropout module. *)
Theorem attention_values_must_match_keys :
  forall (A : Arith) (B h S_q S_k S_v d_k d_v : nat) (Q K V : T4)
         (mask : option MultiHeadAttention.mask_t) (dropout : option Dropout)
         (g : rng),
    B <> 0 -> h <> 0 -> S_q <> 0 -> S_k <> 0 -> d_k <> 0 ->
    has_shape4 B h S_q d_k Q -> has_shape4 B h S_k d_k K ->
    has_shape4 B h S_v d_v V ->
    S_v <> S_k ->
    exists g', MultiHeadAttention.attention Q K V mask dropout g
               = (Err RuntimeError, g').
Proof.
  intros A B h S_q S_k S_v d_k d_v Q K V mask dropout g
         HB Hh HSq HSk Hk HQ HK HV Hne.
  unfold MultiHeadAttention.attention.
  rewrite (raw_scores_run B h S_q S_k d_k Q K HSk Hk HQ HK), bind_lift_ok.
  cbv zeta.
  rewrite (last_dim4_heads B h S_q d_k Q HB Hh HSq HQ), scale_scores.
  change (match mask with
          | Some m => MultiHeadAttention.masked_fill m (s_of_Z (-1000000000))
                        (raw_scores d_k Q K)
          | None => raw_scores d_k Q K
          end) with (mask_scores mask (raw_scores d_k Q K)).
  change (map (map (map softmax)) (mask_scores mask (raw_scores d_k Q K)))
    with (probabilities (mask_scores mask (raw_scores d_k Q K))).
  assert (Hprobs : has_shape4 B h S_q S_k
                     (probabilities (mask_scores mask (raw_scores d_k Q K)))).
  { apply probabilities_shape, raw_scores_shape with (d_k := d_k); assumption. }
  assert (Hdrop : exists P g',
             match dropout with
             | Some d => dropout4 d (probabilities (mask_scores mask (raw_scores d_k Q K)))
             | None => ret (probabilities (mask_scores mask (raw_scores d_k Q K)))
             end g = (Ok P, g') /\ has_shape4 B h S_q S_k P).
  { destruct dropout as [d |].
    - apply dropout4_shape, Hprobs.
    - eexists _, _. split; [reflexivity | exact Hprobs]. }
  destruct Hdrop as (P & g' & Edrop & HP).
  exists g'. unfold bind at 1. rewrite Edrop.
  rewrite (weighted_values_mismatch B h S_q S_k S_v d_v P V HB Hh HSq Hne HP HV).
  reflexivity.
Qed.

Lemma attention_values_must_match_keys_witness :
  exists g',
    @MultiHeadAttention.attention RArith [[[[1; 2]]]]%R [[[[3; 4]; [5; 6]]]]%R
      [[[[7; 8]]]]%R None None (fun _ => 0%R)
    = (Err RuntimeError, g').
Proof.
  apply (attention_values_must_match_keys RArith 1 1 1 2 1 2 2
           [[[[1; 2]]]]%R [[[[3; 4]; [5; 6]]]]%R [[[[7; 8]]]]%R None None
           (fun _ => 0%R));
    try discriminate; split; try reflexivity; repeat constructor.
Defined.

(** ** The range of the positional table *)

(** X17. Over the reals, every entry of the table that
    [PositionalEncoding.__init__] registers lies between -1 and 1. *)
Theorem positional_table_bounded :
  forall (d_model seq_len : nat) (dropout : @pyval RArith)
         (self : @PositionalEncoding.t RArith),
    PositionalEncoding.__init__ d_model seq_len dropout = Ok self ->
    Forall (Forall (Forall (fun e : R => (-1 <= e <= 1)%R))) (PositionalEncoding.pe self).
Proof.
  intros d seq dr self Hinit.
  destruct (@PositionalEncoding_init_table RArith d seq dr self Hinit)
    as (cos_vals & Hpe & Hcos).
  rewrite Hpe. constructor; [| constructor].
  destruct (@length_table_of RArith d seq cos_vals) as [Hl Hrows].
  rewrite Forall_forall in Hrows.
  apply Forall_forall. intros row Hrow.
  destruct (In_nth _ _ [] Hrow) as (pos & Hpos0 & Hnth).
  assert (Hpos : pos < seq) by (rewrite <- Hl; exact Hpos0).
  apply Forall_forall. intros e He.
  destruct (In_nth _ _ 0%R He) as (c & Hc & Hec).
  assert (Herr : nth_error row c = Some e).
  { rewrite <- Hec. apply nth_error_nth'. exact Hc. }
  assert (Hcd : c < d) by (rewrite <- (Hrows row Hrow); exact Hc).
  pose proof (half_spec c) as Hhalf.
  assert (H2i : 2 * (c / 2) < d) by lia.
  assert (Ht : nth_error row (2 * (c / 2)) = Some (sin (@angle RArith d pos (c / 2))) /\
               (2 * (c / 2) + 1 < d ->
                nth_error row (2 * (c / 2) + 1)
                = Some (cos (@angle RArith d pos (c / 2))))).
  { rewrite <- Hnth.
    exact (@table_row_entries RArith d seq pos (c / 2) cos_vals Hpos H2i
             (Hcos (c / 2))). }
  destruct Ht as [Hsin Hcosv].
  destruct (Nat.eq_dec c (2 * (c / 2))) as [Ec | Ec].
  - rewrite <- Ec in Hsin. rewrite Hsin in Herr. injection Herr as <-.
    apply SIN_bound.
  - assert (Ec' : 2 * (c / 2) + 1 = c) by lia.
    assert (Hlt : 2 * (c / 2) + 1 < d) by lia.
    specialize (Hcosv Hlt). rewrite Ec' in Hcosv.
    rewrite Hcosv in Herr. injection Herr as <-.
    apply COS_bound.
Qed.

Lemma positional_table_bounded_witness :
  exists self,
    @PositionalEncoding.__init__ RArith 2 3 (PyFloat 0%R) = Ok self /\
    Forall (Forall (Forall (fun e : R => (-1 <= e <= 1)%R)))
           (PositionalEncoding.pe self).
Proof.
  eexists. split; [reflexivity |].
  apply (positional_table_bounded 2 3 (@PyFloat RArith 0%R)). reflexivity.
Defined.

(** ** The initialisation loop at the end of build_transformer *)

Section Xavier.
Context {A : Arith}.















End Xavier.

